(** * KLUH: job listing, skill-gap analysis and profile routes

    A shallow embedding of the Express routes that score job postings
    against a user's skills ([routes/jobs.js]), analyse skill gaps
    ([routes/skillGap]) and maintain the stored skill list
    ([routes/profile]), together with [parseSkillsText] from
    [lib/supabase.js].

    Conventions of the embedding:
    - a JavaScript string is a [string]: a sequence of code units below 256
      (ASCII and Latin-1 text);
    - a Number that is computed by division and multiplication is an IEEE 754
      binary64 value ([spec_float] at precision 53); a Number that is known to
      be an integer (an array length, the result of [Math.round]) is a [Z] or
      a [nat];
    - a database query is an input of the handler (its [data] and [error]),
      a database write is an update of an explicit table. *)

From Stdlib Require Import ZArith QArith Qround Lqa List String Ascii Bool Lia.
From Stdlib Require Import Permutation Sorted SpecFloat DecimalString.
From Stdlib Require DecimalPos DecimalZ.
Import ListNotations.
Open Scope Z_scope.

(** * Numbers *)

(** JavaScript Numbers are binary64 floats.  The operations are those of
    [SpecFloat], the executable specification of IEEE 754 arithmetic, at
    [prec = 53] and [emax = 1024]. *)
Module Number.

Definition prec : Z := 53.
Definition emax : Z := 1024.

(** The Number of a non-negative integer, such as an array length
    (rounded to nearest, ties to even; exact below [2^53]). *)
Definition of_nat (n : nat) : spec_float :=
  binary_normalize prec emax (Z.of_nat n) 0 false.

(** [x / y] and [x * y]. *)
Definition div (x y : spec_float) : spec_float := SFdiv prec emax x y.
Definition mul (x y : spec_float) : spec_float := SFmul prec emax x y.

(** [Math.round(x)]: the integer closest to [x], a tie going to the greater
    one, that is [floor (x + 1/2)] computed exactly on the value
    [(-1)^s * m * 2^e] of [x].  [Math.round] leaves NaN and the infinities
    as they are; the routes only round quotients by a non-zero length, which
    are finite ([PercentageFacts.percentage_finite] below), and the model
    maps the non-finite cases to 0. *)
Definition Math_round (x : spec_float) : Z :=
  match x with
  | S754_finite s m e =>
      let v := if s then Zneg m else Zpos m in
      match e with
      | Zneg p => (2 * v + 2 ^ Zpos p) / (2 * 2 ^ Zpos p)
      | _ => v * 2 ^ e
      end
  | _ => 0
  end.

(** The bits that a right shift has dropped so far are all zero. *)
Definition exact_rec (mrs : shr_record) : Prop :=
  loc_of_shr_record mrs = loc_Exact.

(** [between r lo hi k]: the float [r] is a positive finite number, of
    value at least [lo * 2^k] and at most [hi * 2^k]. *)
Definition between (r : spec_float) (lo hi k : Z) : Prop :=
  match r with
  | S754_finite false m e =>
      e <= k /\ lo * 2 ^ (k - e) <= Zpos m <= hi * 2 ^ (k - e)
  | _ => False
  end.

(** [le_bound r B k]: the float [r] is zero or a positive finite number, of
    value at most [B * 2^k]. *)
Definition le_bound (r : spec_float) (B k : Z) : Prop :=
  match r with
  | S754_zero false => True
  | S754_finite false m e => e <= k /\ Zpos m <= B * 2 ^ (k - e)
  | _ => False
  end.


(** [x + y], and the comparison [x >= y] (false when one side is NaN). *)
Definition add (x y : spec_float) : spec_float := SFadd prec emax x y.
Definition geb (x y : spec_float) : bool := SFleb y x.

End Number.

(** * Strings *)

Module JSString.

Open Scope string_scope.

Definition code (c : ascii) : N := N_of_ascii c.

(** The WhiteSpace and LineTerminator code units below 256, which
    [String.prototype.trim] strips: TAB, LF, VT, FF, CR, SP and NBSP. *)
Definition is_whitespace (c : ascii) : bool :=
  let n := code c in
  ((9 <=? n) && (n <=? 13) || (n =? 32) || (n =? 160))%N.

(** [toLowerCase] on one code unit: A-Z, and the Latin-1 capitals
    U+00C0-U+00DE but for the multiplication sign U+00D7. *)
Definition lower_char (c : ascii) : ascii :=
  let n := code c in
  if ((65 <=? n) && (n <=? 90) || (192 <=? n) && (n <=? 222) && negb (n =? 215))%N
  then ascii_of_N (n + 32) else c.

Fixpoint toLowerCase (s : string) : string :=
  match s with
  | EmptyString => EmptyString
  | String c s' => String (lower_char c) (toLowerCase s')
  end.

Fixpoint trimStart (s : string) : string :=
  match s with
  | EmptyString => EmptyString
  | String c s' => if is_whitespace c then trimStart s' else s
  end.

Fixpoint trimEnd (s : string) : string :=
  match s with
  | EmptyString => EmptyString
  | String c s' =>
      match trimEnd s' with
      | EmptyString => if is_whitespace c then EmptyString else String c EmptyString
      | t => String c t
      end
  end.

Definition trim (s : string) : string := trimEnd (trimStart s).

(** [hay.includes(needle)] *)
Fixpoint includes (hay needle : string) : bool :=
  prefix needle hay ||
  match hay with
  | EmptyString => false
  | String _ hay' => includes hay' needle
  end.

(** [s.split(sep)] where the separator is a one-character string or a
    regular expression that is a character class: [sep c] tells whether the
    code unit [c] separates. *)
Fixpoint split (sep : ascii -> bool) (s : string) : list string :=
  match s with
  | EmptyString => [EmptyString]
  | String c s' =>
      if sep c then EmptyString :: split sep s'
      else match split sep s' with
           | [] => [String c EmptyString]
           | p :: ps => String c p :: ps
           end
  end.

(** A string is truthy when it is not empty ([Boolean(s)], [!s], [s || d]). *)
Definition truthy (s : string) : bool := negb (s =? "").

(** [v || d] for a value [v] that is a string or null. *)
Definition or_else (v : option string) (d : string) : string :=
  match v with
  | Some s => if truthy s then s else d
  | None => d
  end.

(** [l.filter(Boolean)] for a list of values that are strings or null. *)
Fixpoint filter_truthy (l : list (option string)) : list string :=
  match l with
  | [] => []
  | Some s :: l' => if truthy s then s :: filter_truthy l' else filter_truthy l'
  | None :: l' => filter_truthy l'
  end.

(** The integers that a Number holds exactly and prints digit by digit:
    [Number.isSafeInteger(n)]. *)
Definition safe_integer (n : Z) : Prop := (- 2 ^ 53 < n < 2 ^ 53)%Z.

(** [String(n)] for a Number [n] that holds a safe integer: its decimal
    digits, with the sign of a negative one.  (Above [2^53] a Number prints
    the shortest digits that read back as the same Number, and from [10^21]
    the exponent form; the model does not cover them, and what is stated of
    an id string is stated of the safe integers.) *)
Definition of_Z (n : Z) : string := NilZero.string_of_int (Z.to_int n).

(** The code units of a string. *)
Definition units (s : string) : list ascii := list_ascii_of_string s.

Definition all_whitespace (s : string) : Prop :=
  Forall (fun c => is_whitespace c = true) (units s).

(** No code unit of [s] is a separator. *)
Definition free_of (sep : ascii -> bool) (s : string) : Prop :=
  Forall (fun c => sep c = false) (units s).

(** The separators of a string, in order. *)
Definition separators (sep : ascii -> bool) (s : string) : list ascii :=
  filter sep (units s).

(** The pieces of a split, put back around the separators. *)
Fixpoint rejoin (pieces : list string) (seps : list ascii) : string :=
  match pieces, seps with
  | p :: pieces', c :: seps' => p ++ String c (rejoin pieces' seps')
  | p :: _, [] => p
  | [], _ => EmptyString
  end.

(** What [trimStart] leaves does not start with white space. *)
Definition starts_clean (s : string) : Prop :=
  match s with
  | EmptyString => True
  | String c _ => is_whitespace c = false
  end.

End JSString.

(** * Arrays *)

Module JSArray.

Section Sort.
Context {A : Type}.
Variable comparefn : A -> A -> Z.

(** [Array.prototype.sort(comparefn)].  ECMAScript requires a stable sort:
    the result is the permutation of the array that is ordered by
    [comparefn] and keeps elements that compare equal in their original
    order.  For a consistent comparator that permutation is unique
    ([SortFacts.sort_unique] below), and insertion to the left of the
    first element that is not smaller computes it. *)
Fixpoint insert (x : A) (l : list A) : list A :=
  match l with
  | [] => [x]
  | y :: l' => if comparefn x y <=? 0 then x :: l else y :: insert x l'
  end.

Fixpoint sort (l : list A) : list A :=
  match l with
  | [] => []
  | x :: l' => insert x (sort l')
  end.
End Sort.

(** A list in the order of an integer key. *)
Definition ordered {A : Type} (key : A -> Z) : list A -> Prop :=
  StronglySorted (fun a b => key a <= key b).

(** The elements of one key: [filter (with_key key k)]. *)
Definition with_key {A : Type} (key : A -> Z) (k : Z) (a : A) : bool :=
  key a =? k.

End JSArray.

(** * JSON values *)

(** A value read from a [jsonb] column or from a request body. *)
#[local] Unset Elimination Schemes.
Inductive json : Type :=
  | JNull
  | JBool (b : bool)
  | JNum (n : Z)
  | JStr (s : string)
  | JArr (l : list json)
  | JObj (fields : list (string * json)).
#[local] Set Elimination Schemes.

(** [value.filter((skill) => typeof skill === 'string')] *)
Fixpoint strings_of (l : list json) : list string :=
  match l with
  | [] => []
  | JStr s :: l' => s :: strings_of l'
  | _ :: l' => strings_of l'
  end.

Import JSString.
Open Scope string_scope.

(** * lib/supabase.js *)

(** The character class [[,/|]] of the regular expression in
    [parseSkillsText]. *)
Definition is_skill_separator (c : ascii) : bool :=
  ((c =? ",") || (c =? "/") || (c =? "|"))%char.

Definition parseSkillsText (value : option string) : list string :=
  match value with
  | None => []
  | Some s =>
      if truthy s
      then filter truthy (map trim (split is_skill_separator s))
      else []
  end.

(** * Percentages *)

(** [Math.round((matched / total) * 100)] on two array lengths. *)
Definition percentage (matched total : nat) : Z :=
  Number.Math_round
    (Number.mul (Number.div (Number.of_nat matched) (Number.of_nat total))
                (Number.of_nat 100)).

(** The bound on the length of a JavaScript array: [2^32 - 1] elements. *)
Definition array_length_ok {A : Type} (l : list A) : Prop :=
  Z.of_nat (List.length l) < 2 ^ 32.

(** * routes/jobs.js *)

Module JobsRoute.

(** A row of the [jobs] table, as selected by the route:
    [id, company, job_title, job_function, vacancies, qualification,
    experience].  A text column holds a string or null. *)
Record JobRow : Type := {
  id : Z;
  company : option string;
  job_title : option string;
  job_function : option string;
  vacancies : option string;
  qualification : option string;
  experience : option string
}.

(** The job object sent to the client. *)
Record Job : Type := {
  job_id : string;
  title : string;
  job_company : string;
  location : string;
  salary : string;
  job_type : string;
  skills : list string;
  matchPercentage : Z;
  postedDate : string;
  description : string
}.

(** The separator of the description, a bullet (U+2022) between two spaces;
    the bullet is written as its three UTF-8 bytes. *)
Definition bullet : string :=
  String " " (String (ascii_of_N 226) (String (ascii_of_N 128)
    (String (ascii_of_N 162) (String " " EmptyString)))).

Definition mapJob (job : JobRow) : Job :=
  let skills := parseSkillsText (qualification job) in
  {| job_id := JSString.of_Z (id job);
     title := or_else (job_title job) "Untitled Role";
     job_company := or_else (company job) "Unknown Company";
     location := or_else (job_function job) "Not specified";
     salary := "Not specified";
     job_type :=
       match vacancies job with
       | Some v => if truthy v then v ++ " openings" else "Open"
       | None => "Open"
       end;
     skills := skills;
     matchPercentage := 60;
     postedDate := "Recently";
     description :=
       let d := String.concat bullet
                  (filter_truthy [qualification job; experience job]) in
       if truthy d then d else "See full job details" |}.

(** [getUserSkills]: [data] is the [extracted_skills] value of the latest
    resume of the user, or [None] when the user has no resume. *)
Definition getUserSkills (data : option json) : list string :=
  match data with
  | Some (JArr rawSkills) => strings_of rawSkills
  | _ => []
  end.

(** The query string of [GET /]: a parameter is [None] when it is absent or
    is not a string. *)
Record Query : Type := {
  q_search : option string;
  q_type : option string;
  q_skills : option string
}.

(** [p && typeof p === 'string'] *)
Definition given (p : option string) : option string :=
  match p with
  | Some s => if truthy s then Some s else None
  | None => None
  end.

Definition filterSearch (search : option string) (jobsData : list Job) : list Job :=
  match given search with
  | Some search =>
      let normalized := toLowerCase search in
      filter (fun job =>
                includes (toLowerCase (title job)) normalized ||
                includes (toLowerCase (job_company job)) normalized ||
                existsb (fun skill => includes (toLowerCase skill) normalized)
                        (skills job))
             jobsData
  | None => jobsData
  end.

Definition filterType (type : option string) (jobsData : list Job) : list Job :=
  match given type with
  | Some type =>
      let normalizedType := toLowerCase type in
      filter (fun job => includes (toLowerCase (job_type job)) normalizedType)
             jobsData
  | None => jobsData
  end.

Definition filterSkills (skills_param : option string) (jobsData : list Job) : list Job :=
  match given skills_param with
  | Some skills_param =>
      let skillList :=
        map (fun skill => toLowerCase (trim skill))
            (split (fun c => (c =? ",")%char) skills_param) in
      filter (fun job =>
                existsb (fun skill =>
                           existsb (fun jobSkill => includes (toLowerCase jobSkill) skill)
                                   (skills job))
                        skillList)
             jobsData
  | None => jobsData
  end.

(** [job.skills.filter((skill) => userSkills.some((userSkill) =>
     userSkill.toLowerCase() === skill.toLowerCase()))] *)
Definition matchingSkills (userSkills : list string) (job : Job) : list string :=
  filter (fun skill =>
            existsb (fun userSkill => toLowerCase userSkill =? toLowerCase skill)
                    userSkills)
         (skills job).

Definition dynamicMatch (userSkills : list string) (job : Job) : Z :=
  if (0 <? List.length (skills job))%nat
  then percentage (List.length (matchingSkills userSkills job))
                  (List.length (skills job))
  else 0.

(** The callback of [jobsData.map] in [GET /], and the object built by
    [GET /:id]: the job with its [matchPercentage] replaced. *)
Definition withMatchScore (userSkills : list string) (job : Job) : Job :=
  {| job_id := job_id job;
     title := title job;
     job_company := job_company job;
     location := location job;
     salary := salary job;
     job_type := job_type job;
     skills := skills job;
     matchPercentage := Z.max (dynamicMatch userSkills job) (matchPercentage job);
     postedDate := postedDate job;
     description := description job |}.

(** [(a, b) => b.matchPercentage - a.matchPercentage] *)
Definition byMatchDescending (a b : Job) : Z :=
  matchPercentage b - matchPercentage a.

Inductive Response : Type :=
  | Failure (status : Z) (message : string)
  | JobList (jobs : list Job) (total : nat)
  | JobDetail (job : Job).

(** What a query of the [jobs] table returned. *)
Record Selected (A : Type) : Type := {
  data : option A;
  error : option string
}.
Arguments data {A} _.
Arguments error {A} _.

(** The jobs of [GET /] before they are sorted. *)
Definition jobsWithMatchScore
    (query : Query) (rows : option (list JobRow)) (userSkills : list string)
    : list Job :=
  let jobsData := map mapJob (match rows with Some d => d | None => [] end) in
  let jobsData := filterSearch (q_search query) jobsData in
  let jobsData := filterType (q_type query) jobsData in
  let jobsData := filterSkills (q_skills query) jobsData in
  map (withMatchScore userSkills) jobsData.

(** [GET /] *)
Definition get_jobs
    (query : Query) (selected : Selected (list JobRow)) (resume : option json)
    : Response :=
  match error selected with
  | Some message => Failure 500 message
  | None =>
      let userSkills := getUserSkills resume in
      let jobs :=
        JSArray.sort byMatchDescending
          (jobsWithMatchScore query (data selected) userSkills) in
      JobList jobs (List.length jobs)
  end.

(** [GET /:id]; [idIsNaN] tells whether [Number(req.params.id)] is NaN. *)
Definition get_job
    (idIsNaN : bool) (selected : Selected JobRow) (resume : option json)
    : Response :=
  if idIsNaN then Failure 400 "Invalid job id"
  else match error selected with
       | Some message => Failure 500 message
       | None =>
           match data selected with
           | None => Failure 404 "Job not found"
           | Some row =>
               let job := mapJob row in
               let userSkills := getUserSkills resume in
               JobDetail (withMatchScore userSkills job)
           end
       end.

(** The jobs a response carries. *)
Definition jobs_of (r : Response) : list Job :=
  match r with
  | Failure _ _ => []
  | JobList jobs _ => jobs
  | JobDetail job => [job]
  end.

(** What the three filters of [GET /] keep. *)
Definition kept (query : Query) (job : Job) : bool :=
  match given (q_search query) with
  | Some search =>
      let normalized := toLowerCase search in
      includes (toLowerCase (title job)) normalized ||
      includes (toLowerCase (job_company job)) normalized ||
      existsb (fun skill => includes (toLowerCase skill) normalized) (skills job)
  | None => true
  end &&
  match given (q_type query) with
  | Some type => includes (toLowerCase (job_type job)) (toLowerCase type)
  | None => true
  end &&
  match given (q_skills query) with
  | Some skills_param =>
      existsb (fun skill =>
                 existsb (fun jobSkill => includes (toLowerCase jobSkill) skill)
                         (skills job))
              (map (fun skill => toLowerCase (trim skill))
                   (split (fun c => (c =? ",")%char) skills_param))
  | None => true
  end.

(** [data || []] *)
Definition rows_of (rows : option (list JobRow)) : list JobRow :=
  match rows with Some d => d | None => [] end.


(** Two values of a query parameter that differ in letter case at most. *)
Definition same_ignoring_case (a b : option string) : Prop :=
  option_map toLowerCase a = option_map toLowerCase b.

(** ** [POST /:id/apply] *)

(** A row of the [recommendations] table. *)
Record Recommendation : Type := {
  recommendation_id : Z;
  rec_user_id : string;
  rec_job_id : Z;
  match_score : Z
}.

(** [.maybeSingle()] of [supabase-js]: the row when the query selected one
    row, null when it selected none, and null (with an error, which the
    route drops) when it selected several. *)
Definition maybeSingle {A : Type} (rows : list A) : option A :=
  match rows with
  | [row] => Some row
  | _ => None
  end.

(** [.eq('user_id', userId).eq('job_id', id)] *)
Definition recommendations_of
    (recommendations : list Recommendation) (userId : string) (id : Z)
    : list Recommendation :=
  filter (fun r => (rec_user_id r =? userId) && (rec_job_id r =? id)%Z)
         recommendations.

Inductive ApplyResponse : Type :=
  | ApplyFailure (status : Z) (message : string)
  | Applied (jobId : string) (appliedAt : Z).

(** [POST /:id/apply] for a user: [id] is [Number(req.params.id)], [None]
    when it is NaN (the model covers the ids that are safe integers, see
    [JSString.of_Z]); [insertError] is the
    error of the insert, when the database refuses it; [new_id] is the id the
    database gives the new row and [now] is the clock.  The result is the
    response and the table after the request. *)
Definition post_apply
    (recommendations : list Recommendation) (userId : string) (id : option Z)
    (insertError : option string) (new_id now : Z)
    : ApplyResponse * list Recommendation :=
  match id with
  | None => (ApplyFailure 400 "Invalid job id", recommendations)
  | Some id =>
      match maybeSingle (recommendations_of recommendations userId id) with
      | Some existingRecommendation =>
          (Applied (JSString.of_Z id) now, recommendations)
      | None =>
          match insertError with
          | Some message => (ApplyFailure 500 message, recommendations)
          | None =>
              (Applied (JSString.of_Z id) now,
               (recommendations ++
                [ {| recommendation_id := new_id;
                     rec_user_id := userId;
                     rec_job_id := id;
                     match_score := 0 |} ])%list)
          end
      end
  end.

End JobsRoute.

(** * routes/skillGap *)

Module SkillGapRoute.

Record Training : Type := {
  name : string;
  provider : string;
  duration : string;
  level : string;
  url : string
}.

Definition training (name provider duration level : string) : Training :=
  {| name := name; provider := provider; duration := duration;
     level := level; url := "#" |}.

(** The own properties of the object [trainingRecommendations]. *)
Definition trainingRecommendations : list (string * list Training) :=
  [ ("Next.js",
      [ training "Next.js Complete Course" "Udemy" "12 hours" "Intermediate";
        training "Next.js Documentation" "Vercel" "Self-paced" "All Levels" ]);
    ("Tailwind CSS",
      [ training "Tailwind CSS Mastery" "Frontend Masters" "6 hours" "Beginner";
        training "Tailwind CSS From Scratch" "YouTube" "3 hours" "Beginner" ]);
    ("Jest",
      [ training "Testing with Jest" "Codecademy" "8 hours" "Intermediate" ]);
    ("Django",
      [ training "Python Django Bootcamp" "Coursera" "20 hours" "Intermediate" ]);
    ("Redis",
      [ training "Redis Fundamentals" "Redis University" "4 hours" "Beginner" ]);
    ("Kubernetes",
      [ training "Kubernetes for Developers" "Pluralsight" "15 hours" "Advanced";
        training "CKA Certification Prep" "Linux Foundation" "30 hours" "Advanced" ]);
    ("System Design",
      [ training "System Design Interview" "Educative" "25 hours" "Advanced" ]);
    ("Micro-frontends",
      [ training "Micro-frontend Architecture" "Egghead" "8 hours" "Advanced" ]);
    ("Webpack",
      [ training "Webpack 5 Fundamentals" "Frontend Masters" "5 hours" "Intermediate" ]);
    ("Performance Optimization",
      [ training "Web Performance Fundamentals" "Google" "10 hours" "Intermediate" ]) ].

(** The names of the properties of [Object.prototype], which an object
    literal inherits: a lookup [trainingRecommendations[skill]] finds them
    when the table has no own property of the name.  Each is a function,
    but for ["__proto__"], which is the prototype object itself; all are
    truthy and none is an array. *)
Definition object_prototype_members : list string :=
  [ "constructor"; "__defineGetter__"; "__defineSetter__"; "hasOwnProperty";
    "__lookupGetter__"; "__lookupSetter__"; "isPrototypeOf";
    "propertyIsEnumerable"; "toString"; "valueOf"; "__proto__";
    "toLocaleString" ].

(** The value of [trainingRecommendations[skill]]: the array of an own
    property, a member of [Object.prototype], or undefined. *)
Inductive Member : Type :=
  | Own (trainings : list Training)
  | Prototype (name : string)
  | Undefined.

Fixpoint own (table : list (string * list Training)) (skill : string)
    : option (list Training) :=
  match table with
  | [] => None
  | (key, trainings) :: table' =>
      if key =? skill then Some trainings else own table' skill
  end.

(** [table[skill]] *)
Definition get (table : list (string * list Training)) (skill : string) : Member :=
  match own table skill with
  | Some trainings => Own trainings
  | None =>
      if existsb (fun name => name =? skill) object_prototype_members
      then Prototype skill
      else Undefined
  end.

(** [table[skill] || []]: an array is truthy also when it is empty. *)
Definition get_or_empty (table : list (string * list Training)) (skill : string)
    : Member :=
  match get table skill with
  | Undefined => Own []
  | found => found
  end.

(** An element of [recommendedTrainings]: a course, or a member of
    [Object.prototype] that a lookup returned in the place of an array. *)
Inductive Recommended : Type :=
  | Course (training : Training)
  | Inherited (member : string).

(** What the callback [skill => trainingRecommendations[skill] || []] adds
    to the result of [flatMap]: the elements of an array, and a value that is
    not an array as one element. *)
Definition lookup (table : list (string * list Training)) (skill : string)
    : list Recommended :=
  match get_or_empty table skill with
  | Own trainings => map Course trainings
  | Prototype name => [Inherited name]
  | Undefined => []
  end.

(** One element of [jobAnalysis]. *)
Record Analysis : Type := {
  jobTitle : string;
  company : string;
  overallMatch : Z;
  matchingSkills : list string;
  missingSkills : list string;
  recommendedTrainings : list Recommended
}.

(** [l.includes(s)] on an array of strings. *)
Definition array_includes (l : list string) (s : string) : bool :=
  existsb (fun x => x =? s) l.

(** The callback of [jobs.map]: [userSkills] are the lower-cased skills of
    the user, [jobSkills] the skills of the job. *)
Definition analyse
    (jobTitle company : string) (jobSkills userSkills : list string)
    : Analysis :=
  let jobSkillsLower := map toLowerCase jobSkills in
  let indexed := combine jobSkills jobSkillsLower in
  let matchingSkills :=
    map fst (filter (fun p => array_includes userSkills (snd p)) indexed) in
  let missingSkills :=
    map fst (filter (fun p => negb (array_includes userSkills (snd p))) indexed) in
  let matchPercentage :=
    if (0 <? List.length jobSkills)%nat
    then percentage (List.length matchingSkills) (List.length jobSkills)
    else 0 in
  let recommendedTrainings :=
    firstn 3 (flat_map (lookup trainingRecommendations) missingSkills) in
  {| jobTitle := jobTitle;
     company := company;
     overallMatch := matchPercentage;
     matchingSkills := matchingSkills;
     missingSkills := missingSkills;
     recommendedTrainings :=
       if (0 <? List.length recommendedTrainings)%nat
       then recommendedTrainings
       else [ Course (training "General Full Stack Course" "Coursera" "40 hours"
                               "Intermediate") ] |}.

(** [(a, b) => a.overallMatch - b.overallMatch] *)
Definition byMatchAscending (a b : Analysis) : Z :=
  overallMatch a - overallMatch b.

(** [jobAnalysis.reduce((sum, job) => sum + job.missingSkills.length, 0)] *)
Definition totalGaps (jobAnalysis : list Analysis) : nat :=
  fold_left (fun sum job => (sum + List.length (missingSkills job))%nat)
            jobAnalysis 0%nat.

Inductive Response : Type :=
  | Failure (status : Z) (message : string)
  | Gaps (analysis : list Analysis) (userSkills : list string) (totalGaps : nat).

(** ** The route over the [jobs] table *)

(** A row of the [jobs] table, as selected by the route:
    [id, company, job_title, qualification]. *)
Record SupabaseJobRow : Type := {
  row_id : Z;
  row_company : option string;
  row_job_title : option string;
  row_qualification : option string
}.

Definition jobAnalysis (rows : list SupabaseJobRow) (userSkills : list string)
    : list Analysis :=
  JSArray.sort byMatchAscending
    (map (fun job =>
            analyse (or_else (row_job_title job) "Untitled Role")
                    (or_else (row_company job) "Unknown Company")
                    (parseSkillsText (row_qualification job))
                    userSkills)
         rows).

(** [getUserSkills], as in [routes/jobs.js]: [data] is the
    [extracted_skills] value of the latest resume of the user. *)
Definition getUserSkills (data : option json) : list string :=
  match data with
  | Some (JArr rawSkills) => strings_of rawSkills
  | _ => []
  end.

(** [GET /]: [resume] is what [getUserSkills] read, [selected] what the
    query of the [jobs] table returned. *)
Definition get_skill_gap
    (resume : option json) (selected : JobsRoute.Selected (list SupabaseJobRow))
    : Response :=
  let userSkills := map toLowerCase (getUserSkills resume) in
  match JobsRoute.error selected with
  | Some message => Failure 500 message
  | None =>
      let jobs := match JobsRoute.data selected with Some d => d | None => [] end in
      let analysis := jobAnalysis jobs userSkills in
      Gaps analysis userSkills (totalGaps analysis)
  end.

(** ** The route over the in-memory database *)

(** A profile of [models/database]. *)
Record Profile : Type := {
  userId : string;
  profile_name : string;
  email : string;
  phone : string;
  education : string;
  profile_experience : string;
  profile_skills : list string;
  resumeUrl : option string;
  updatedAt : Z
}.

Definition jobAnalysis_db (jobs : list JobsRoute.Job) (userSkills : list string)
    : list Analysis :=
  JSArray.sort byMatchAscending
    (map (fun job =>
            analyse (JobsRoute.title job) (JobsRoute.job_company job)
                    (JobsRoute.skills job) userSkills)
         jobs).

(** [GET /]: [profile] is [db.getProfile(req.user.id)], [jobs] is
    [db.getAllJobs()]. *)
Definition get_skill_gap_db
    (profile : option Profile) (jobs : list JobsRoute.Job) : Response :=
  let userSkills :=
    match profile with
    | Some p => map toLowerCase (profile_skills p)
    | None => []
    end in
  let analysis := jobAnalysis_db jobs userSkills in
  Gaps analysis
       (match profile with Some p => profile_skills p | None => [] end)
       (totalGaps analysis).

(** The analysis a response carries. *)
Definition analysis_of (r : Response) : list Analysis :=
  match r with
  | Failure _ _ => []
  | Gaps analysis _ _ => analysis
  end.

Definition ascending : list Analysis -> Prop :=
  StronglySorted (fun a b => (overallMatch a <= overallMatch b)%Z).


(** ** [GET /in-demand] *)

Record DemandSkill : Type := {
  skill_name : string;
  demand : string;
  category : string
}.

Definition inDemandSkills : list DemandSkill :=
  [ {| skill_name := "Next.js"; demand := "High"; category := "Frontend" |};
    {| skill_name := "Kubernetes"; demand := "High"; category := "DevOps" |};
    {| skill_name := "Terraform"; demand := "Medium"; category := "DevOps" |};
    {| skill_name := "Machine Learning"; demand := "High"; category := "AI/ML" |};
    {| skill_name := "System Design"; demand := "High"; category := "Architecture" |};
    {| skill_name := "GraphQL"; demand := "Medium"; category := "Backend" |};
    {| skill_name := "Rust"; demand := "High"; category := "Programming" |};
    {| skill_name := "WebAssembly"; demand := "Medium"; category := "Frontend" |} ].

(** [skillsWithStatus]: each in-demand skill with its [hasSkill] flag;
    [userSkills] are the skills of the user as stored. *)
Definition skillsWithStatus (userSkills : list string)
    : list (DemandSkill * bool) :=
  let userSkills := map toLowerCase userSkills in
  map (fun skill =>
         (skill, array_includes userSkills (toLowerCase (skill_name skill))))
      inDemandSkills.

(** ** [GET /training/:skill] *)

(** [trainings] is [trainingRecommendations[skill] || []]. *)
Definition get_training (skill : string) : string * Member :=
  (skill, get_or_empty trainingRecommendations skill).

(** ** [GET /stats] *)

(** The match of one job in [GET /stats], which is not rounded:
    [(matchingSkills.length / jobSkills.length) * 100], or 0 for a job
    without skills. *)
Definition matchingCount (userSkills jobSkills : list string) : nat :=
  let jobSkillsLower := map toLowerCase jobSkills in
  List.length
    (filter (fun p => array_includes (map toLowerCase userSkills) (snd p))
            (combine jobSkills jobSkillsLower)).

Definition statsMatch (userSkills jobSkills : list string) : spec_float :=
  if (0 <? List.length jobSkills)%nat
  then Number.mul
         (Number.div (Number.of_nat (matchingCount userSkills jobSkills))
                     (Number.of_nat (List.length jobSkills)))
         (Number.of_nat 100)
  else Number.of_nat 0.

(** [totalMatch] after the loop over the jobs. *)
Definition totalMatch (userSkills : list string) (jobs : list (list string))
    : spec_float :=
  fold_left (fun total jobSkills =>
               Number.add total (statsMatch userSkills jobSkills))
            jobs (Number.of_nat 0).

Definition averageMatch (userSkills : list string) (jobs : list (list string))
    : Z :=
  if (0 <? List.length jobs)%nat
  then Number.Math_round
         (Number.div (totalMatch userSkills jobs)
                     (Number.of_nat (List.length jobs)))
  else 0%Z.

(** The jobs with a match of 50 or more. *)
Definition opportunities (userSkills : list string) (jobs : list (list string))
    : nat :=
  List.length
    (filter (fun jobSkills =>
               Number.geb (statsMatch userSkills jobSkills) (Number.of_nat 50))
            jobs).

(** [userSkills.filter(s => names.includes(s.toLowerCase())).length] *)
Definition countCategory (names userSkills : list string) : nat :=
  List.length (filter (fun s => array_includes names (toLowerCase s)) userSkills).

Definition frontendSkills : list string :=
  ["react"; "vue"; "angular"; "html"; "css"; "javascript"].
Definition backendSkills : list string :=
  ["node"; "python"; "java"; "go"; "php"; "ruby"].
Definition devopsSkills : list string :=
  ["docker"; "kubernetes"; "aws"; "azure"; "gcp"; "jenkins"].
Definition databaseSkills : list string :=
  ["sql"; "mysql"; "postgresql"; "mongodb"; "redis"].

(** The [data] of the response of [GET /stats]. *)
Record Stats : Type := {
  totalSkills : nat;
  stats_averageMatch : Z;
  stats_opportunities : nat;
  frontend : nat;
  backend : nat;
  devops : nat;
  database : nat
}.

(** The statistics of a user over the skill lists of the jobs. *)
Definition stats (userSkills : list string) (jobs : list (list string)) : Stats :=
  {| totalSkills := List.length userSkills;
     stats_averageMatch := averageMatch userSkills jobs;
     stats_opportunities := opportunities userSkills jobs;
     frontend := countCategory frontendSkills userSkills;
     backend := countCategory backendSkills userSkills;
     devops := countCategory devopsSkills userSkills;
     database := countCategory databaseSkills userSkills |}.

(** [GET /stats] over the [jobs] table (of which the route selects [id] and
    [qualification]): the error of the query, or the statistics. *)
Definition get_stats
    (resume : option json) (selected : JobsRoute.Selected (list SupabaseJobRow))
    : string + Stats :=
  let userSkills := getUserSkills resume in
  match JobsRoute.error selected with
  | Some message => inl message
  | None =>
      let jobs := match JobsRoute.data selected with Some d => d | None => [] end in
      inr (stats userSkills
                 (map (fun job => parseSkillsText (row_qualification job)) jobs))
  end.

(** [GET /stats] over the in-memory database. *)
Definition get_stats_db
    (profile : option Profile) (jobs : list JobsRoute.Job) : Stats :=
  let userSkills :=
    match profile with Some p => profile_skills p | None => [] end in
  stats userSkills (map JobsRoute.skills jobs).

End SkillGapRoute.

(** * routes/profile *)

Module ProfileRoute.

(** A row of the [resumes] table. *)
Record ResumeRow : Type := {
  resume_id : string;
  user_id : string;
  file_url : option string;
  extracted_skills : json;
  parsed_role : option string;
  experience_years : option Z;
  created_at : Z
}.

Definition normalizeSkills (value : option json) : list string :=
  match value with
  | Some (JArr l) => strings_of l
  | _ => []
  end.

(** The first row of a list ordered by [created_at] descending; of two rows
    created at the same time the model takes the one that comes first in the
    table. *)
Fixpoint latest (rows : list ResumeRow) : option ResumeRow :=
  match rows with
  | [] => None
  | r :: rows' =>
      match latest rows' with
      | Some r' => if (created_at r <? created_at r')%Z then Some r' else Some r
      | None => Some r
      end
  end.

(** [getLatestResume]: [.eq('user_id', userId).order('created_at',
    { ascending: false }).limit(1).maybeSingle()] *)
Definition getLatestResume (resumes : list ResumeRow) (userId : string)
    : option ResumeRow :=
  latest (filter (fun r => user_id r =? userId) resumes).

(** [.update({ extracted_skills: nextSkills }).eq('id', id)] *)
Definition update_skills
    (resumes : list ResumeRow) (id : string) (nextSkills : list string)
    : list ResumeRow :=
  map (fun r =>
         if resume_id r =? id
         then {| resume_id := resume_id r;
                 user_id := user_id r;
                 file_url := file_url r;
                 extracted_skills := JArr (map JStr nextSkills);
                 parsed_role := parsed_role r;
                 experience_years := experience_years r;
                 created_at := created_at r |}
         else r)
      resumes.

(** The columns the database fills in when a row is inserted. *)
Record Defaults : Type := {
  new_id : string;
  now : Z
}.

(** [.insert({ user_id, file_url: '', extracted_skills: nextSkills,
     parsed_role: null, experience_years: null })] *)
Definition insert_resume
    (resumes : list ResumeRow) (defaults : Defaults) (userId : string)
    (nextSkills : list string) : list ResumeRow :=
  (resumes ++
   [ {| resume_id := new_id defaults;
        user_id := userId;
        file_url := Some "";
        extracted_skills := JArr (map JStr nextSkills);
        parsed_role := None;
        experience_years := None;
        created_at := now defaults |} ])%list.

Inductive Response : Type :=
  | Failure (status : Z) (message : string)
  | Skills (message : string) (skills : list string).

(** [POST /skills]: [skill] is [req.body.skill], [resumes] the table before
    the request; the result is the response and the table after it.  The
    route does not look at the outcome of its write and the model takes the
    write to succeed. *)
Definition post_skills
    (resumes : list ResumeRow) (defaults : Defaults) (userId : string)
    (skill : json) : Response * list ResumeRow :=
  match skill with
  | JStr skill =>
      if truthy skill then
        let latestResume := getLatestResume resumes userId in
        let currentSkills :=
          normalizeSkills (option_map extracted_skills latestResume) in
        if existsb (fun s => s =? skill) currentSkills then
          (Failure 409 "Skill already exists", resumes)
        else
          let nextSkills := (currentSkills ++ [skill])%list in
          let resumes' :=
            match latestResume with
            | Some r => update_skills resumes (resume_id r) nextSkills
            | None => insert_resume resumes defaults userId nextSkills
            end in
          (Skills "Skill added successfully" nextSkills, resumes')
      else (Failure 400 "Skill is required", resumes)
  | _ => (Failure 400 "Skill is required", resumes)
  end.

(** The skill list stored for a user: what the routes read back. *)
Definition stored_skills (resumes : list ResumeRow) (userId : string)
    : list string :=
  normalizeSkills (option_map extracted_skills (getLatestResume resumes userId)).


(** ** [DELETE /skills/:skill] *)

(** [skill] is [req.params.skill].  As in [POST /skills], the route does not
    look at the outcome of its write. *)
Definition delete_skill
    (resumes : list ResumeRow) (userId : string) (skill : string)
    : Response * list ResumeRow :=
  match getLatestResume resumes userId with
  | None => (Skills "Skill removed successfully" [], resumes)
  | Some latestResume =>
      let currentSkills := normalizeSkills (Some (extracted_skills latestResume)) in
      let nextSkills :=
        filter (fun existingSkill => negb (existingSkill =? skill)) currentSkills in
      (Skills "Skill removed successfully" nextSkills,
       update_skills resumes (resume_id latestResume) nextSkills)
  end.

(** ** [GET /completeness] *)

(** The selected columns of a row of the [profiles] table. *)
Record ProfileRow : Type := {
  full_name : option string;
  profile_email : option string
}.

(** [!!v] for a value that is a string or null. *)
Definition present (v : option string) : bool :=
  match v with
  | Some s => truthy s
  | None => false
  end.

(** The [checks] of the route: a label and whether the part is complete. *)
Definition checks
    (profile : option ProfileRow) (resumes : list ResumeRow) (userId : string)
    : list (string * bool) :=
  let latestResume := getLatestResume resumes userId in
  let skills := normalizeSkills (option_map extracted_skills latestResume) in
  [ ("Personal Info",
     match profile with
     | Some p => present (full_name p) && present (profile_email p)
     | None => false
     end);
    ("Education", false);
    ("Experience",
     match latestResume with
     | Some r => present (parsed_role r)
     | None => false
     end);
    ("Skills", (0 <? List.length skills)%nat) ].

(** [Math.round((completedCount / checks.length) * 100)] *)
Definition completeness (checks : list (string * bool)) : Z :=
  let completedCount := List.length (filter snd checks) in
  percentage completedCount (List.length checks).

(** The [data] of the response: the percentage and the checks. *)
Definition get_completeness
    (profile : option ProfileRow) (resumes : list ResumeRow) (userId : string)
    : Z * list (string * bool) :=
  let checks := checks profile resumes userId in
  (completeness checks, checks).

(** ** [PUT /], the write to the [resumes] table *)

(** A field of the request body: [None] when it is undefined. *)
Definition BodyField (A : Type) : Type := option A.

(** The block of [PUT /] that runs when [skills] or [experience] is defined.
    [experience] is a string or null and [skills] is any value ([Some] of
    it, when the body has the field); the result is the table after the
    write, or the message of the write's error [writeError]. *)
Definition put_resume
    (resumes : list ResumeRow) (defaults : Defaults) (userId : string)
    (experience : BodyField (option string)) (skills : BodyField json)
    (writeError : option string) : string + list ResumeRow :=
  match skills, experience with
  | None, None => inr resumes
  | _, _ =>
      match writeError with
      | Some message => inl message
      | None =>
          match getLatestResume resumes userId with
          | Some latestResume =>
              inr (map (fun r =>
                          if resume_id r =? resume_id latestResume
                          then {| resume_id := resume_id r;
                                  user_id := user_id r;
                                  file_url := file_url r;
                                  extracted_skills :=
                                    match skills with
                                    | Some value => value
                                    | None => extracted_skills latestResume
                                    end;
                                  parsed_role :=
                                    match experience with
                                    | Some value => value
                                    | None => parsed_role latestResume
                                    end;
                                  experience_years := experience_years r;
                                  created_at := created_at r |}
                          else r)
                       resumes)
          | None =>
              inr (resumes ++
                   [ {| resume_id := new_id defaults;
                        user_id := userId;
                        file_url := Some "";
                        extracted_skills :=
                          match skills with
                          | Some (JArr l) => JArr l
                          | _ => JArr []
                          end;
                        parsed_role :=
                          match experience with
                          | Some (Some value) => Some value
                          | _ => None
                          end;
                        experience_years := None;
                        created_at := now defaults |} ])%list
          end
      end
  end.

End ProfileRoute.



(** * models/database *)

(** The in-memory database.  A JavaScript [Map] is a list of entries in the
    order of insertion, with one entry per key. *)
Module Database.

Record User : Type := {
  user_id : string;
  user_name : string;
  user_email : string;
  password : string;
  createdAt : Z
}.

(** [m.get(k)] *)
Fixpoint map_get {V : Type} (m : list (string * V)) (k : string) : option V :=
  match m with
  | [] => None
  | (k', v) :: m' => if k' =? k then Some v else map_get m' k
  end.

(** [m.set(k, v)]: the entry of [k] is replaced where it stands, or added
    at the end. *)
Fixpoint map_set {V : Type} (m : list (string * V)) (k : string) (v : V)
    : list (string * V) :=
  match m with
  | [] => [(k, v)]
  | (k', v') :: m' =>
      if k' =? k then (k, v) :: m' else (k', v') :: map_set m' k v
  end.

Record t : Type := {
  users : list (string * User);
  profiles : list (string * SkillGapRoute.Profile);
  jobs : list JobsRoute.Job
}.

Definition job (id title company location salary type : string)
    (skills : list string) (matchPercentage : Z) (postedDate description : string)
    : JobsRoute.Job :=
  {| JobsRoute.job_id := id;
     JobsRoute.title := title;
     JobsRoute.job_company := company;
     JobsRoute.location := location;
     JobsRoute.salary := salary;
     JobsRoute.job_type := type;
     JobsRoute.skills := skills;
     JobsRoute.matchPercentage := matchPercentage;
     JobsRoute.postedDate := postedDate;
     JobsRoute.description := description |}.

(** The jobs the database starts with. *)
Definition initial_jobs : list JobsRoute.Job :=
  [ job "1" "Senior Frontend Developer" "TechCorp Inc." "San Francisco, CA"
        "$120k - $160k" "Full-time" ["React"; "TypeScript"; "Node.js"; "GraphQL"]
        95 "2 days ago" "We are looking for an experienced Frontend Developer...";
    job "2" "Full Stack Engineer" "StartupXYZ" "Remote"
        "$100k - $140k" "Full-time" ["React"; "Python"; "AWS"; "PostgreSQL"]
        88 "1 week ago" "Join our fast-growing startup as a Full Stack Engineer...";
    job "3" "React Developer" "Digital Solutions" "New York, NY"
        "$90k - $120k" "Contract" ["React"; "JavaScript"; "CSS"; "Redux"]
        92 "3 days ago" "Looking for a skilled React Developer...";
    job "4" "Software Engineer" "Innovation Labs" "Austin, TX"
        "$110k - $150k" "Full-time" ["TypeScript"; "Node.js"; "Docker"; "Kubernetes"]
        85 "5 days ago" "Join our engineering team...";
    job "5" "Frontend Architect" "Enterprise Co" "Seattle, WA"
        "$140k - $180k" "Full-time" ["React"; "TypeScript"; "System Design"; "Leadership"]
        78 "1 day ago" "Seeking an experienced Frontend Architect...";
    job "6" "Web Developer" "Creative Agency" "Los Angeles, CA"
        "$80k - $110k" "Full-time" ["React"; "Vue.js"; "HTML"; "CSS"]
        82 "4 days ago" "Join our creative team..." ].

(** [new Database()] *)
Definition empty : t :=
  {| users := []; profiles := []; jobs := initial_jobs |}.

(** [createUser]: [uuid] is [uuidv4()], [hashedPassword] is what
    [bcrypt.hash] gave and [now] is the clock. *)
Definition createUser
    (db : t) (uuid hashedPassword : string) (now : Z) (name email : string)
    : User * t :=
  let user :=
    {| user_id := uuid;
       user_name := name;
       user_email := toLowerCase email;
       password := hashedPassword;
       createdAt := now |} in
  (user,
   {| users := map_set (users db) (user_id user) user;
      profiles :=
        map_set (profiles db) (user_id user)
          {| SkillGapRoute.userId := user_id user;
             SkillGapRoute.profile_name := user_name user;
             SkillGapRoute.email := user_email user;
             SkillGapRoute.phone := "";
             SkillGapRoute.education := "";
             SkillGapRoute.profile_experience := "";
             SkillGapRoute.profile_skills := [];
             SkillGapRoute.resumeUrl := None;
             SkillGapRoute.updatedAt := now |};
      jobs := jobs db |}).

Definition findUserByEmail (db : t) (email : string) : option User :=
  let normalizedEmail := toLowerCase email in
  find (fun user => user_email user =? normalizedEmail) (map snd (users db)).

Definition findUserById (db : t) (id : string) : option User :=
  map_get (users db) id.

Definition getProfile (db : t) (userId : string) : option SkillGapRoute.Profile :=
  map_get (profiles db) userId.

(** The [updates] of [updateProfile], with the fields its callers set: a
    field is [None] when the object does not have it.  ([resumeUrl] can be
    there with the value undefined, which removes the URL.) *)
Record Updates : Type := {
  set_name : option string;
  set_phone : option string;
  set_education : option string;
  set_experience : option string;
  set_skills : option (list string);
  set_resumeUrl : option (option string)
}.

Definition no_updates : Updates :=
  {| set_name := None; set_phone := None; set_education := None;
     set_experience := None; set_skills := None; set_resumeUrl := None |}.

(** [{ ...profile, ...updates, updatedAt: new Date() }] *)
Definition merge (profile : SkillGapRoute.Profile) (updates : Updates) (now : Z)
    : SkillGapRoute.Profile :=
  let pick {A : Type} (field : option A) (old : A) : A :=
    match field with Some v => v | None => old end in
  {| SkillGapRoute.userId := SkillGapRoute.userId profile;
     SkillGapRoute.profile_name :=
       pick (set_name updates) (SkillGapRoute.profile_name profile);
     SkillGapRoute.email := SkillGapRoute.email profile;
     SkillGapRoute.phone := pick (set_phone updates) (SkillGapRoute.phone profile);
     SkillGapRoute.education :=
       pick (set_education updates) (SkillGapRoute.education profile);
     SkillGapRoute.profile_experience :=
       pick (set_experience updates) (SkillGapRoute.profile_experience profile);
     SkillGapRoute.profile_skills :=
       pick (set_skills updates) (SkillGapRoute.profile_skills profile);
     SkillGapRoute.resumeUrl :=
       pick (set_resumeUrl updates) (SkillGapRoute.resumeUrl profile);
     SkillGapRoute.updatedAt := now |}.

Definition updateProfile (db : t) (userId : string) (updates : Updates) (now : Z)
    : option SkillGapRoute.Profile * t :=
  match map_get (profiles db) userId with
  | None => (None, db)
  | Some profile =>
      let updatedProfile := merge profile updates now in
      (Some updatedProfile,
       {| users := users db;
          profiles := map_set (profiles db) userId updatedProfile;
          jobs := jobs db |})
  end.

Definition getAllJobs (db : t) : list JobsRoute.Job := jobs db.

Definition getJobById (db : t) (id : string) : option JobsRoute.Job :=
  find (fun job => JobsRoute.job_id job =? id) (jobs db).

Definition searchJobs (db : t) (query : string) : list JobsRoute.Job :=
  let lowerQuery := toLowerCase query in
  filter (fun job =>
            includes (toLowerCase (JobsRoute.title job)) lowerQuery ||
            includes (toLowerCase (JobsRoute.job_company job)) lowerQuery ||
            existsb (fun skill => includes (toLowerCase skill) lowerQuery)
                    (JobsRoute.skills job))
         (jobs db).

(** [filterJobs]: [type] and [skills] are the optional fields of the
    filters. *)
Definition filterJobs (db : t) (type : option string) (skills : option (list string))
    : list JobsRoute.Job :=
  filter (fun job =>
            match JobsRoute.given type with
            | Some type => JobsRoute.job_type job =? type
            | None => true
            end &&
            match skills with
            | Some (skill :: skills') =>
                existsb (fun skill =>
                           existsb (fun jobSkill =>
                                      includes (toLowerCase jobSkill)
                                               (toLowerCase skill))
                                   (JobsRoute.skills job))
                        (skill :: skills')
            | _ => true
            end)
         (jobs db).

End Database.

(** * routes/profile over the in-memory database *)

Module ProfileDbRoute.

Import SkillGapRoute.

Inductive Response : Type :=
  | Failure (status : Z) (message : string)
  | ProfileData (profile : Profile)
  | Skills (message : string) (skills : list string)
  | Completeness (percentage : Z) (checks : list (string * bool)).

(** [GET /] *)
Definition get_profile (db : Database.t) (userId : string) : Response :=
  match Database.getProfile db userId with
  | None => Failure 404 "Profile not found"
  | Some profile => ProfileData profile
  end.

(** The body of [PUT /]: a field is [None] when it is undefined.  (The model
    covers the bodies whose fields have the types of a profile.) *)
Record Body : Type := {
  body_name : option string;
  body_phone : option string;
  body_education : option string;
  body_experience : option string;
  body_skills : option (list string)
}.

(** [PUT /] *)
Definition put_profile (db : Database.t) (userId : string) (body : Body) (now : Z)
    : Response * Database.t :=
  let updates :=
    {| Database.set_name := body_name body;
       Database.set_phone := body_phone body;
       Database.set_education := body_education body;
       Database.set_experience := body_experience body;
       Database.set_skills := body_skills body;
       Database.set_resumeUrl := None |} in
  match Database.updateProfile db userId updates now with
  | (None, db') => (Failure 404 "Profile not found", db')
  | (Some profile, db') => (ProfileData profile, db')
  end.

Definition skills_update (skills : list string) : Database.Updates :=
  {| Database.set_name := None;
     Database.set_phone := None;
     Database.set_education := None;
     Database.set_experience := None;
     Database.set_skills := Some skills;
     Database.set_resumeUrl := None |}.

(** [updatedProfile?.skills], which is undefined without a profile. *)
Definition skills_of (updatedProfile : option Profile) : list string :=
  match updatedProfile with
  | Some p => profile_skills p
  | None => []
  end.

(** [POST /skills]: [skill] is [req.body.skill]. *)
Definition post_skills (db : Database.t) (userId : string) (skill : json) (now : Z)
    : Response * Database.t :=
  match skill with
  | JStr skill =>
      if truthy skill then
        match Database.getProfile db userId with
        | None => (Failure 404 "Profile not found", db)
        | Some profile =>
            if array_includes (profile_skills profile) skill then
              (Failure 409 "Skill already exists", db)
            else
              let (updatedProfile, db') :=
                Database.updateProfile db userId
                  (skills_update (profile_skills profile ++ [skill])%list) now in
              (Skills "Skill added successfully" (skills_of updatedProfile), db')
        end
      else (Failure 400 "Skill is required", db)
  | _ => (Failure 400 "Skill is required", db)
  end.

(** [DELETE /skills/:skill] *)
Definition delete_skill (db : Database.t) (userId : string) (skill : string) (now : Z)
    : Response * Database.t :=
  match Database.getProfile db userId with
  | None => (Failure 404 "Profile not found", db)
  | Some profile =>
      let (updatedProfile, db') :=
        Database.updateProfile db userId
          (skills_update (filter (fun s => negb (s =? skill)) (profile_skills profile)))
          now in
      (Skills "Skill removed successfully" (skills_of updatedProfile), db')
  end.

(** The [checks] of [GET /completeness]. *)
Definition checks (profile : Profile) : list (string * bool) :=
  [ ("Personal Info", truthy (profile_name profile) && truthy (email profile));
    ("Education", truthy (education profile));
    ("Experience", truthy (profile_experience profile));
    ("Skills", (0 <? List.length (profile_skills profile))%nat) ].

(** [GET /completeness] *)
Definition get_completeness (db : Database.t) (userId : string) : Response :=
  match Database.getProfile db userId with
  | None => Failure 404 "Profile not found"
  | Some profile =>
      let checks := checks profile in
      Completeness
        (percentage (List.length (filter snd checks)) (List.length checks))
        checks
  end.

End ProfileDbRoute.

(** * middleware/auth *)

Module AuthMiddleware.

(** The user that [supabase.auth.getUser] returns: [meta_full_name] and
    [meta_name] are [user_metadata?.full_name] and [user_metadata?.name],
    [JNull] when they are missing. *)
Record SupabaseUser : Type := {
  supabase_id : string;
  supabase_email : option string;
  meta_full_name : json;
  meta_name : json
}.

(** What [supabase.auth.getUser(token)] did: it threw, or it returned
    [{ data, error }]. *)
Inductive GetUser : Type :=
  | Threw
  | Returned (error : bool) (user : option SupabaseUser).

(** [req.user] *)
Record RequestUser : Type := {
  user_id : string;
  user_email : string;
  user_name : string
}.

Inductive Outcome : Type :=
  | Rejected (status : Z) (message : string)
  | Next (user : RequestUser) (accessToken : string).

(** The separator [' '] of the split. *)
Definition space (c : ascii) : bool := (c =? " ")%char.

(** [authHeader && authHeader.split(' ')[1]]: [None] is undefined. *)
Definition token_of (authHeader : option string) : option string :=
  match authHeader with
  | None => None
  | Some h =>
      if truthy h
      then nth_error (split space h) 1
      else Some h
  end.

(** [typeof v === 'string' && v], as a truthy string or nothing. *)
Definition string_value (v : json) : option string :=
  match v with
  | JStr s => if truthy s then Some s else None
  | _ => None
  end.

Definition fullName (user : SupabaseUser) : string :=
  match string_value (meta_full_name user) with
  | Some s => s
  | None =>
      match string_value (meta_name user) with
      | Some s => s
      | None => or_else (supabase_email user) "User"
      end
  end.

(** [authenticateToken]: [getUser] is the Supabase service. *)
Definition authenticateToken
    (authHeader : option string) (getUser : string -> GetUser) : Outcome :=
  match token_of authHeader with
  | None => Rejected 401 "Access token required"
  | Some token =>
      if truthy token then
        match getUser token with
        | Threw => Rejected 403 "Invalid or expired token"
        | Returned error data_user =>
            match error, data_user with
            | false, Some user =>
                Next {| user_id := supabase_id user;
                        user_email := or_else (supabase_email user) "";
                        user_name := fullName user |}
                     token
            | _, _ => Rejected 403 "Invalid or expired token"
            end
        end
      else Rejected 401 "Access token required"
  end.

End AuthMiddleware.

(** * middleware/auth over JSON web tokens *)

Module JwtMiddleware.

(** The claims of a token: what [generateToken] signs. *)
Record Payload : Type := {
  payload_id : string;
  payload_email : string;
  payload_name : string
}.

Inductive Outcome : Type :=
  | Rejected (status : Z) (message : string)
  | Next (user : Payload).

(** [generateToken]: [sign] is [jwt.sign(_, JWT_SECRET, { expiresIn: '7d' })]. *)
Definition generateToken (sign : Payload -> string) (user : Payload) : string :=
  sign user.

(** [authenticateToken]: [verify] is [jwt.verify(_, JWT_SECRET)], [None]
    when it throws. *)
Definition authenticateToken
    (verify : string -> option Payload) (authHeader : option string) : Outcome :=
  match AuthMiddleware.token_of authHeader with
  | None => Rejected 401 "Access token required"
  | Some token =>
      if truthy token then
        match verify token with
        | Some decoded => Next decoded
        | None => Rejected 403 "Invalid or expired token"
        end
      else Rejected 401 "Access token required"
  end.

End JwtMiddleware.

(** * routes/auth over the in-memory database *)

Module AuthRoute.

Record PublicUser : Type := {
  id : string;
  name : string;
  email : string
}.

Inductive Response : Type :=
  | Failure (status : Z) (message : string)
  | Authenticated (status : Z) (message : string) (token : string) (user : PublicUser)
  | CurrentUser (user : PublicUser).

Definition public (user : Database.User) : PublicUser :=
  {| id := Database.user_id user;
     name := Database.user_name user;
     email := Database.user_email user |}.

Definition payload (user : Database.User) : JwtMiddleware.Payload :=
  {| JwtMiddleware.payload_id := Database.user_id user;
     JwtMiddleware.payload_email := Database.user_email user;
     JwtMiddleware.payload_name := Database.user_name user |}.

(** [POST /register]: [name], [email] and [password] are the fields of the
    body, the empty string for a field that is missing; [uuid],
    [hashedPassword] and [now] are what [uuidv4()], [bcrypt.hash] and the
    clock give to [createUser]. *)
Definition post_register
    (sign : JwtMiddleware.Payload -> string) (db : Database.t)
    (uuid hashedPassword : string) (now : Z) (name email password : string)
    : Response * Database.t :=
  if negb (truthy name) || negb (truthy email) || negb (truthy password) then
    (Failure 400 "Name, email, and password are required", db)
  else if (String.length password <? 6)%nat then
    (Failure 400 "Password must be at least 6 characters", db)
  else
    match Database.findUserByEmail db email with
    | Some existingUser => (Failure 409 "User with this email already exists", db)
    | None =>
        let (user, db') :=
          Database.createUser db uuid hashedPassword now name email in
        (Authenticated 201 "User registered successfully"
           (JwtMiddleware.generateToken sign (payload user)) (public user),
         db')
    end.

(** [POST /login]: [verifyPassword] is [bcrypt.compare]. *)
Definition post_login
    (sign : JwtMiddleware.Payload -> string)
    (verifyPassword : string -> string -> bool) (db : Database.t)
    (email password : string) : Response :=
  if negb (truthy email) || negb (truthy password) then
    Failure 400 "Email and password are required"
  else
    match Database.findUserByEmail db email with
    | None => Failure 401 "Invalid email or password"
    | Some user =>
        if verifyPassword password (Database.password user) then
          Authenticated 200 "Login successful"
            (JwtMiddleware.generateToken sign (payload user)) (public user)
        else Failure 401 "Invalid email or password"
    end.

(** [GET /me]: [userId] is [req.user.id]. *)
Definition get_me (db : Database.t) (userId : string) : Response :=
  match Database.findUserById db userId with
  | None => Failure 404 "User not found"
  | Some user => CurrentUser (public user)
  end.

(** What the routes keep true of the database: the key of a user is its
    id, no two users have the same email, and every user has a profile,
    with its id and its email. *)
Definition consistent (db : Database.t) : Prop :=
  NoDup (map (fun entry => Database.user_email (snd entry)) (Database.users db)) /\
  forall userId user,
    Database.findUserById db userId = Some user ->
    Database.user_id user = userId /\
    exists profile,
      Database.getProfile db userId = Some profile /\
      SkillGapRoute.userId profile = userId /\
      SkillGapRoute.email profile = Database.user_email user.

End AuthRoute.

(** * routes/upload *)

Module UploadRoute.

Import ProfileRoute.

(** The skills the route takes to be extracted from every resume. *)
Definition extractedSkills : list string :=
  ["React"; "TypeScript"; "Node.js"; "Python"; "AWS"].

Inductive Response : Type :=
  | Failure (status : Z) (message : string)
  | Uploaded (url : string) (skills : list string)
  | Deleted.

(** [POST /]: [file] is [req.file.filename], [None] without a file;
    [insertError] is the error of the insert, when the database refuses it.
    The result is the response and the [resumes] table after the request. *)
Definition post_upload
    (resumes : list ResumeRow) (defaults : Defaults) (userId : string)
    (file : option string) (insertError : option string)
    : Response * list ResumeRow :=
  match file with
  | None => (Failure 400 "No file uploaded", resumes)
  | Some filename =>
      let fileUrl := "/uploads/" ++ filename in
      match insertError with
      | Some message => (Failure 500 message, resumes)
      | None =>
          (Uploaded fileUrl extractedSkills,
           (resumes ++
            [ {| resume_id := new_id defaults;
                 user_id := userId;
                 file_url := Some fileUrl;
                 extracted_skills := JArr (map JStr extractedSkills);
                 parsed_role := None;
                 experience_years := None;
                 created_at := now defaults |} ])%list)
      end
  end.

(** [GET /status]: [hasResume] and [resumeUrl] ([None] is null). *)
Definition get_status (resumes : list ResumeRow) (userId : string)
    : bool * option string :=
  let file_url :=
    match getLatestResume resumes userId with
    | Some data => file_url data
    | None => None
    end in
  (present file_url, if present file_url then file_url else None).

(** [DELETE /]: [.delete().eq('user_id', userId)] *)
Definition delete_resume
    (resumes : list ResumeRow) (userId : string) (deleteError : option string)
    : Response * list ResumeRow :=
  match deleteError with
  | Some message => (Failure 500 message, resumes)
  | None => (Deleted, filter (fun r => negb (user_id r =? userId)) resumes)
  end.

End UploadRoute.

(** * routes/upload over the in-memory database *)

Module UploadDbRoute.

Definition resume_update (resumeUrl : option string) : Database.Updates :=
  {| Database.set_name := None;
     Database.set_phone := None;
     Database.set_education := None;
     Database.set_experience := None;
     Database.set_skills := None;
     Database.set_resumeUrl := Some resumeUrl |}.

(** [POST /]: the URL of the file and the skills of the response, or
    [None] for the answer 400 without a file; the database after the
    request. *)
Definition post_upload
    (db : Database.t) (userId : string) (file : option string) (now : Z)
    : option (string * list string) * Database.t :=
  match file with
  | None => (None, db)
  | Some filename =>
      let fileUrl := "/uploads/" ++ filename in
      (Some (fileUrl, UploadRoute.extractedSkills),
       snd (Database.updateProfile db userId (resume_update (Some fileUrl)) now))
  end.

(** [GET /status] *)
Definition get_status (db : Database.t) (userId : string) : bool * option string :=
  let resumeUrl :=
    match Database.getProfile db userId with
    | Some profile => SkillGapRoute.resumeUrl profile
    | None => None
    end in
  (ProfileRoute.present resumeUrl, resumeUrl).

(** [DELETE /] *)
Definition delete_resume (db : Database.t) (userId : string) (now : Z) : Database.t :=
  match Database.getProfile db userId with
  | Some profile => snd (Database.updateProfile db userId (resume_update None) now)
  | None => db
  end.

End UploadDbRoute.

(** * routes/jobs over the in-memory database *)

Module JobsDbRoute.

Import JobsRoute.

(** A job of the response: [{ ...job, matchPercentage }].  The new
    [matchPercentage] is [Math.max(matchScore, job.matchPercentage * 0.5)],
    a multiple of 0.5 for the whole base scores of the database, for which
    the product with 0.5 is exact; [twice] holds its double. *)
Record ScoredJob : Type := {
  base : Job;
  twice : Z
}.

(** [Math.max(matchScore, job.matchPercentage * 0.5)], doubled. *)
Definition withMatchScore (userSkills : list string) (job : Job) : ScoredJob :=
  let matchScore := dynamicMatch userSkills job in
  {| base := job; twice := Z.max (2 * matchScore) (matchPercentage job) |}.

(** [(a, b) => b.matchPercentage - a.matchPercentage], doubled. *)
Definition byMatchDescending (a b : ScoredJob) : Z := twice b - twice a.

(** [jobs.filter(job => job.type.toLowerCase() === type.toLowerCase())] *)
Definition filterType (type : option string) (jobs : list Job) : list Job :=
  match given type with
  | Some type =>
      filter (fun job => toLowerCase (job_type job) =? toLowerCase type) jobs
  | None => jobs
  end.

(** [profile?.skills || []] *)
Definition userSkills_of (profile : option SkillGapRoute.Profile) : list string :=
  match profile with
  | Some p => SkillGapRoute.profile_skills p
  | None => []
  end.

(** [GET /]: the jobs of the response. *)
Definition get_jobs (db : Database.t) (query : Query) (userId : string)
    : list ScoredJob :=
  let jobs := Database.getAllJobs db in
  let jobs :=
    match given (q_search query) with
    | Some search => Database.searchJobs db search
    | None => jobs
    end in
  let jobs := filterType (q_type query) jobs in
  let jobs := filterSkills (q_skills query) jobs in
  let userSkills := userSkills_of (Database.getProfile db userId) in
  JSArray.sort byMatchDescending (map (withMatchScore userSkills) jobs).

(** [GET /:id]: the job of the response, [None] for the answer 404. *)
Definition get_job (db : Database.t) (id userId : string) : option ScoredJob :=
  match Database.getJobById db id with
  | None => None
  | Some job =>
      Some (withMatchScore (userSkills_of (Database.getProfile db userId)) job)
  end.

(** [POST /:id/apply]: [jobId] and [appliedAt], [None] for the answer 404. *)
Definition post_apply (db : Database.t) (id : string) (now : Z) : option (string * Z) :=
  match Database.getJobById db id with
  | None => None
  | Some job => Some (id, now)
  end.

(** What the filters of [GET /] keep. *)
Definition kept (query : Query) (job : Job) : bool :=
  match given (q_search query) with
  | Some search =>
      let lowerQuery := toLowerCase search in
      includes (toLowerCase (title job)) lowerQuery ||
      includes (toLowerCase (job_company job)) lowerQuery ||
      existsb (fun skill => includes (toLowerCase skill) lowerQuery) (skills job)
  | None => true
  end &&
  match given (q_type query) with
  | Some type => toLowerCase (job_type job) =? toLowerCase type
  | None => true
  end &&
  match given (q_skills query) with
  | Some skills_param =>
      existsb (fun skill =>
                 existsb (fun jobSkill => includes (toLowerCase jobSkill) skill)
                         (skills job))
              (map (fun skill => toLowerCase (trim skill))
                   (split (fun c => (c =? ",")%char) skills_param))
  | None => true
  end.

End JobsDbRoute.

(** * The client *)

(** components/ui-custom/JobCard *)
Module JobCard.

(** [getMatchColor] on a whole percentage. *)
Definition getMatchColor (percentage : Z) : string :=
  if (90 <=? percentage)%Z then "bg-emerald-500 text-white"
  else if (75 <=? percentage)%Z then "bg-blue-500 text-white"
  else if (60 <=? percentage)%Z then "bg-amber-500 text-white"
  else "bg-slate-500 text-white".

End JobCard.

(** components/ui-custom/PreviewForm: the state is the text of the input
    [newSkill] and the skills of the form. *)
Module PreviewForm.

Definition handleAddSkill (newSkill : string) (skills : list string)
    : string * list string :=
  if truthy (trim newSkill) &&
     negb (SkillGapRoute.array_includes skills (trim newSkill))
  then ("", (skills ++ [trim newSkill])%list)
  else (newSkill, skills).

Definition handleRemoveSkill (skillToRemove : string) (skills : list string)
    : list string :=
  filter (fun skill => negb (skill =? skillToRemove)) skills.

End PreviewForm.

(** pages/Recommendations *)
Module Recommendations.

Definition toggleFilter (filter : string) (prev : list string) : list string :=
  if SkillGapRoute.array_includes prev filter
  then List.filter (fun f => negb (f =? filter)) prev
  else (prev ++ [filter])%list.

End Recommendations.

(** * The definitions of the specification *)

(** The matching engine as the specification words it, for comparison with
    the routes above. *)
Module Spec.

Open Scope Q_scope.

(** Section 4.2: "[tokenizeCsv(text)] -> sequence of trimmed, non-empty
    tokens splitting on commas". *)
Definition tokenizeCsv (text : option string) : list string :=
  match text with
  | None => []
  | Some s => filter truthy (map trim (split (fun c => (c =? ",")%char) s))
  end.

(** Section 4.4, step 1: "for each token, case-insensitively check
    membership (exact or substring) against the candidate's skill set";
    a substring either way counts. *)
Definition token_matches (skillSet : list string) (token : string) : bool :=
  existsb (fun entry =>
             let e := toLowerCase entry in
             let t := toLowerCase token in
             (e =? t)%string || includes e t || includes t e)
          skillSet.

Definition matchedTokenCount (skillSet tokens : list string) : nat :=
  List.length (filter (token_matches skillSet) tokens).

(** "[skillScore = matchedTokenCount / totalTokenCount]", and 0 when there
    is no token. *)
Definition skillScore (skillSet tokens : list string) : Q :=
  match tokens with
  | [] => 0
  | _ :: _ =>
      Z.of_nat (matchedTokenCount skillSet tokens)
        # Pos.of_nat (List.length tokens)
  end.

(** [round(x, 2)]: the nearest multiple of 1/100. *)
Definition round2 (x : Q) : Q := Qfloor (x * 100 + (1 # 2)) # 100.

(** Section 4.4, step 4: "[final = skillScore*0.50 + roleScore*0.30 +
    experienceScore*0.20]; [finalScorePercent = round(final*100, 2)]". *)
Definition final (skillScore roleScore experienceScore : Q) : Q :=
  skillScore * (50 # 100) + roleScore * (30 # 100) + experienceScore * (20 # 100).

Definition finalScorePercent (skillScore roleScore experienceScore : Q) : Q :=
  round2 (final skillScore roleScore experienceScore * 100).

(** Two job postings that are the same but for their [qualification]. *)
Definition same_but_qualification (a b : JobsRoute.JobRow) : Prop :=
  JobsRoute.id a = JobsRoute.id b /\
  JobsRoute.company a = JobsRoute.company b /\
  JobsRoute.job_title a = JobsRoute.job_title b /\
  JobsRoute.job_function a = JobsRoute.job_function b /\
  JobsRoute.vacancies a = JobsRoute.vacancies b /\
  JobsRoute.experience a = JobsRoute.experience b.

End Spec.

(** * Sample data *)

Module Samples.

Import JobsRoute.

(** A posting of the [jobs] table with a given [qualification]. *)
Definition posting (qualification : option string) : JobRow :=
  {| id := 1;
     company := Some "TechCorp";
     job_title := Some "Python Backend Engineer";
     job_function := Some "Python, Django, SQL, REST API";
     vacancies := Some "2";
     qualification := qualification;
     experience := Some "2-4 years" |}.

(** Another posting, with the same [qualification] column and nothing else
    in common. *)
Definition other_posting (qualification : option string) : JobRow :=
  {| id := 2;
     company := Some "DataWorks";
     job_title := Some "Frontend Developer";
     job_function := Some "React, CSS";
     vacancies := None;
     qualification := qualification;
     experience := Some "5+ years" |}.

(** A posting whose columns are all null. *)
Definition bare_posting : JobRow :=
  {| id := 3;
     company := None;
     job_title := None;
     job_function := None;
     vacancies := None;
     qualification := None;
     experience := None |}.

(** A posting with an empty [job_function] and one qualification. *)
Definition empty_function_posting : JobRow :=
  {| id := 4;
     company := Some "TechCorp";
     job_title := Some "Engineer";
     job_function := Some "";
     vacancies := Some "1";
     qualification := Some "Python";
     experience := None |}.

Definition no_query : Query :=
  {| q_search := None; q_type := None; q_skills := None |}.

(** A query that returned [d] and no error. *)
Definition found {A : Type} (d : A) : Selected A :=
  {| data := Some d; error := None |}.

(** The [extracted_skills] column holding the given skills. *)
Definition resume_of (skills : list string) : option json :=
  Some (JArr (map JStr skills)).

(** The [resumes] table with one resume of user ["u1"]. *)
Definition one_resume (skills : list string) : list ProfileRoute.ResumeRow :=
  [ {| ProfileRoute.resume_id := "r1";
       ProfileRoute.user_id := "u1";
       ProfileRoute.file_url := Some "/uploads/cv.pdf";
       ProfileRoute.extracted_skills := JArr (map JStr skills);
       ProfileRoute.parsed_role := Some "Backend Developer";
       ProfileRoute.experience_years := Some 3%Z;
       ProfileRoute.created_at := 10%Z |} ].

Definition defaults : ProfileRoute.Defaults :=
  {| ProfileRoute.new_id := "r2"; ProfileRoute.now := 20%Z |}.

End Samples.

(** * Facts on binary64 arithmetic *)

Module NumberFacts.

Import Number.
#[local] Open Scope Z_scope.

Lemma digits2_pos_size p : digits2_pos p = Pos.size p.
Proof. induction p; simpl; congruence. Qed.

Lemma Zdigits2_bound m n : 0 <= m -> 0 <= n -> m < 2 ^ n -> Zdigits2 m <= n.
Proof.
  intros Hm Hn Hlt. destruct m as [|p|p]; simpl; try lia.
  rewrite digits2_pos_size.
  destruct (Z_lt_le_dec n (Zpos (Pos.size p))) as [Hc|Hc]; [|exact Hc].
  exfalso.
  pose proof (Pos.size_le p) as Hs.
  assert (H2 : 2 ^ Zpos (Pos.size p) <= 2 * Zpos p).
  { change (2 * Zpos p) with (Zpos (p~0)). rewrite <- Pos2Z.inj_pow. exact Hs. }
  assert (H3 : 2 ^ (n + 1) <= 2 ^ Zpos (Pos.size p)) by (apply Z.pow_le_mono_r; lia).
  rewrite Z.pow_add_r in H3 by lia. lia.
Qed.

Lemma Zdigits2_pos_lower p : 2 ^ (Zpos (digits2_pos p) - 1) <= Zpos p < 2 ^ Zpos (digits2_pos p).
Proof.
  rewrite digits2_pos_size. split.
  - pose proof (Pos.size_le p) as Hs.
    assert (H2 : 2 ^ Zpos (Pos.size p) <= 2 * Zpos p).
    { change (2 * Zpos p) with (Zpos (p~0)). rewrite <- Pos2Z.inj_pow. exact Hs. }
    replace (Zpos (Pos.size p)) with ((Zpos (Pos.size p) - 1) + 1) in H2 by lia.
    rewrite Z.pow_add_r in H2 by lia. lia.
  - pose proof (Pos.size_gt p) as Hs. rewrite <- Pos2Z.inj_pow. exact Hs.
Qed.

Lemma iter_pos_nat {A} (f : A -> A) n x :
  iter_pos f n x = Nat.iter (Pos.to_nat n) f x.
Proof.
  revert x. induction n as [n IH|n IH|]; intros x; cbn [iter_pos].
  - rewrite !IH. rewrite Pos2Nat.inj_xI.
    replace (S (2 * Pos.to_nat n))%nat with (Pos.to_nat n + (Pos.to_nat n + 1))%nat by lia.
    rewrite !Nat.iter_add. simpl. reflexivity.
  - rewrite !IH. rewrite Pos2Nat.inj_xO.
    replace (2 * Pos.to_nat n)%nat with (Pos.to_nat n + Pos.to_nat n)%nat by lia.
    rewrite Nat.iter_add. reflexivity.
  - reflexivity.
Qed.

Lemma shr_1_spec mrs :
  0 <= shr_m mrs ->
  0 <= shr_m (shr_1 mrs) /\
  shr_m (shr_1 mrs) = shr_m mrs / 2 /\
  (exact_rec (shr_1 mrs) <-> exact_rec mrs /\ shr_m mrs = 2 * shr_m (shr_1 mrs)).
Proof.
  destruct mrs as [m r s]. unfold exact_rec. cbn [shr_m]. intros Hm.
  assert (Hd : shr_m (shr_1 (Build_shr_record m r s)) = Z.div2 m).
  { destruct m as [|[p|p|]|p]; try reflexivity; lia. }
  rewrite Hd, <- Z.div2_div. split; [apply Z.div2_nonneg; exact Hm|].
  split; [reflexivity|].
  destruct m as [|[p|p|]|p]; try lia; destruct r, s; cbn;
    split; try (intros [H1 H2]); try intros H; try discriminate; try lia; auto.
Qed.

Lemma shr_iter_spec n mrs :
  0 <= shr_m mrs ->
  0 <= shr_m (Nat.iter n shr_1 mrs) /\
  shr_m (Nat.iter n shr_1 mrs) = shr_m mrs / 2 ^ Z.of_nat n /\
  (exact_rec (Nat.iter n shr_1 mrs) <->
   exact_rec mrs /\ shr_m mrs = shr_m (Nat.iter n shr_1 mrs) * 2 ^ Z.of_nat n).
Proof.
  intros Hm. induction n as [|n IH].
  - cbn [Nat.iter Z.of_nat]. rewrite Z.pow_0_r, Z.div_1_r, Z.mul_1_r. tauto.
  - destruct IH as (IH0 & IH1 & IH2).
    rewrite Nat2Z.inj_succ, Z.pow_succ_r by lia.
    change (Nat.iter (S n) shr_1 mrs) with (shr_1 (Nat.iter n shr_1 mrs)).
    set (prev := Nat.iter n shr_1 mrs) in *.
    destruct (shr_1_spec prev IH0) as (S0 & S1 & S2).
    split; [exact S0|]. split.
    + rewrite S1, IH1, Z.div_div by lia. f_equal. lia.
    + rewrite S2, IH2. split.
      * intros [[He Hq] Hh]. split; [exact He|]. rewrite Hq, Hh. ring.
      * intros [He Hq].
        assert (Hx : shr_m prev = 2 * shr_m (shr_1 prev)).
        { rewrite IH1, Hq.
          replace (shr_m (shr_1 prev) * (2 * 2 ^ Z.of_nat n))
            with ((2 * shr_m (shr_1 prev)) * 2 ^ Z.of_nat n) by ring.
          apply Z.div_mul. apply Z.pow_nonzero; lia. }
        split; [split; [exact He|]|exact Hx].
        rewrite Hq at 1. rewrite Hx. ring.
Qed.


Lemma shr_spec mrs e n mrs' e' :
  0 <= shr_m mrs ->
  shr mrs e n = (mrs', e') ->
  e' = e + Z.max 0 n /\
  0 <= shr_m mrs' /\
  shr_m mrs' = shr_m mrs / 2 ^ (e' - e) /\
  (exact_rec mrs' <-> exact_rec mrs /\ shr_m mrs = shr_m mrs' * 2 ^ (e' - e)).
Proof.
  intros Hm Hs. unfold shr in Hs.
  destruct n as [|p|p]; inversion Hs; subst; clear Hs.
  1,3: replace (e' - e') with 0 by lia;
       rewrite Z.pow_0_r, Z.div_1_r, Z.mul_1_r; repeat split; try lia; tauto.
  rewrite iter_pos_nat.
  replace (e + Zpos p - e) with (Z.of_nat (Pos.to_nat p)) by lia.
  destruct (shr_iter_spec (Pos.to_nat p) mrs Hm) as (H0 & H1 & H2).
  repeat split; try lia; try tauto; apply H2; assumption.
Qed.

Lemma shr_record_of_loc_m m l : shr_m (shr_record_of_loc m l) = m.
Proof. destruct l as [|[]]; reflexivity. Qed.

Lemma shr_record_of_loc_exact m l :
  exact_rec (shr_record_of_loc m l) <-> l = loc_Exact.
Proof. unfold exact_rec. destruct l as [|[]]; simpl; split; congruence. Qed.

Lemma shr_fexp_spec m e l mrs' e' :
  0 <= m ->
  shr_fexp prec emax m e l = (mrs', e') ->
  e' = Z.max e (fexp prec emax (Zdigits2 m + e)) /\
  0 <= shr_m mrs' /\
  shr_m mrs' = m / 2 ^ (e' - e) /\
  (exact_rec mrs' <-> l = loc_Exact /\ m = shr_m mrs' * 2 ^ (e' - e)).
Proof.
  intros Hm Hs. unfold shr_fexp in Hs.
  apply shr_spec in Hs; rewrite shr_record_of_loc_m in *; [|exact Hm].
  rewrite shr_record_of_loc_exact in Hs.
  destruct Hs as (He & H0 & H1 & H2). repeat split; try tauto; try lia; apply H2; assumption.
Qed.

Lemma fexp_le_bound m e B k :
  0 <= m -> 0 < B < 2 ^ prec -> emin prec emax <= k -> e <= k ->
  m <= B * 2 ^ (k - e) ->
  Z.max e (fexp prec emax (Zdigits2 m + e)) <= k.
Proof.
  intros Hm HB Hk He Hle.
  assert (Hd : Zdigits2 m <= prec + (k - e)).
  { apply Zdigits2_bound; [exact Hm|unfold prec; lia|].
    rewrite Z.pow_add_r by (unfold prec; lia).
    assert (0 < 2 ^ (k - e)) by (apply Z.pow_pos_nonneg; lia). nia. }
  unfold fexp. lia.
Qed.

Lemma div_pow_le m B a b :
  0 <= m -> 0 <= a -> 0 <= b -> 0 <= B ->
  m <= B * 2 ^ (a + b) -> m / 2 ^ b <= B * 2 ^ a.
Proof.
  intros Hm Ha Hb HB Hle. rewrite Z.pow_add_r in Hle by lia.
  assert (0 < 2 ^ b) by (apply Z.pow_pos_nonneg; lia).
  apply Z.div_le_upper_bound; [lia|]. lia.
Qed.

Lemma binary_round_aux_le mx ex lx B k :
  0 <= mx -> 0 < B < 2 ^ prec ->
  emin prec emax <= k -> k <= emax - prec -> ex <= k ->
  mx <= B * 2 ^ (k - ex) ->
  (lx <> loc_Exact -> mx < B * 2 ^ (k - ex)) ->
  le_bound (binary_round_aux prec emax false mx ex lx) B k.
Proof.
  intros Hm HB Hk1 Hk2 He Hle Hlt.
  unfold binary_round_aux.
  destruct (shr_fexp prec emax mx ex lx) as [mrs1 e1] eqn:E1.
  destruct (shr_fexp_spec _ _ _ _ _ Hm E1) as (He1 & H10 & H11 & H12).
  assert (He1k : e1 <= k) by (rewrite He1; apply fexp_le_bound with (B := B); assumption).
  assert (He1e : ex <= e1) by lia.
  assert (Hm1 : shr_m mrs1 <= B * 2 ^ (k - e1)).
  { rewrite H11. apply div_pow_le; try lia.
    replace (k - e1 + (e1 - ex)) with (k - ex) by lia. exact Hle. }
  set (m2 := round_nearest_even (shr_m mrs1) (loc_of_shr_record mrs1)).
  assert (Hm2 : 0 <= m2 <= B * 2 ^ (k - e1)).
  { assert (Hcase : m2 = shr_m mrs1 \/ (m2 = shr_m mrs1 + 1 /\ ~ exact_rec mrs1)).
    { unfold m2, exact_rec, round_nearest_even.
      destruct (loc_of_shr_record mrs1) as [|[]]; auto.
      - destruct (Z.even (shr_m mrs1)); [auto|right; split; [reflexivity|discriminate]].
      - right; split; [reflexivity|discriminate]. }
    destruct Hcase as [->|[-> Hne]]; [lia|]. split; [lia|].
    destruct (Z_lt_le_dec (shr_m mrs1) (B * 2 ^ (k - e1))) as [Hs|Hs]; [lia|].
    exfalso. apply Hne. apply H12.
    assert (Heq : shr_m mrs1 = B * 2 ^ (k - e1)) by lia.
    assert (Hp : 0 < 2 ^ (e1 - ex)) by (apply Z.pow_pos_nonneg; lia).
    assert (Hmx : mx = B * 2 ^ (k - ex)).
    { assert (Hge : shr_m mrs1 * 2 ^ (e1 - ex) <= mx).
      { rewrite H11. rewrite Z.mul_comm. apply Z.mul_div_le. exact Hp. }
      rewrite Heq in Hge. rewrite <- Z.mul_assoc, <- Z.pow_add_r in Hge by lia.
      replace (k - e1 + (e1 - ex)) with (k - ex) in Hge by lia. lia. }
    split.
    - destruct lx as [|c]; [reflexivity|]. exfalso.
      assert (mx < B * 2 ^ (k - ex)) by (apply Hlt; discriminate). lia.
    - rewrite Heq, Hmx, <- Z.mul_assoc, <- Z.pow_add_r by lia. do 2 f_equal. lia. }
  destruct (shr_fexp prec emax m2 e1 loc_Exact) as [mrs2 e2] eqn:E2.
  destruct (shr_fexp_spec _ _ _ _ _ (proj1 Hm2) E2) as (He2 & H20 & H21 & _).
  assert (He2k : e2 <= k) by (rewrite He2; apply fexp_le_bound with (B := B); try assumption; lia).
  assert (Hm3 : shr_m mrs2 <= B * 2 ^ (k - e2)).
  { rewrite H21. apply div_pow_le; try lia.
    replace (k - e2 + (e2 - e1)) with (k - e1) by lia. lia. }
  destruct (shr_m mrs2) as [|p|p] eqn:E3; [exact I| |lia].
  replace (e2 <=? emax - prec) with true by (symmetry; apply Z.leb_le; lia).
  simpl. split; assumption.
Qed.


Lemma iter_xO_spec p n : Zpos (Pos.iter xO p n) = Zpos p * 2 ^ Zpos n.
Proof.
  induction n as [|n IH] using Pos.peano_ind.
  - cbn [Pos.iter]. rewrite Pos2Z.inj_xO. change (2 ^ 1) with 2. ring.
  - rewrite Pos.iter_succ, Pos2Z.inj_xO, IH, Pos2Z.inj_succ, Z.pow_succ_r by lia. ring.
Qed.

Lemma iter_xO_digits p n :
  Zpos (digits2_pos (Pos.iter xO p n)) = Zpos (digits2_pos p) + Zpos n.
Proof.
  induction n as [|n IH] using Pos.peano_ind.
  - simpl. lia.
  - rewrite Pos.iter_succ. cbn [digits2_pos]. rewrite Pos2Z.inj_succ, IH. lia.
Qed.

Lemma binary_round_aux_canonical m e :
  Zpos (digits2_pos m) = prec -> emin prec emax <= e <= emax - prec ->
  binary_round_aux prec emax false (Zpos m) e loc_Exact = S754_finite false m e.
Proof.
  intros Hd He. unfold binary_round_aux.
  assert (Hf : Z.max e (fexp prec emax (Zdigits2 (Zpos m) + e)) = e).
  { cbn [Zdigits2]. rewrite Hd. unfold fexp. lia. }
  destruct (shr_fexp prec emax (Zpos m) e loc_Exact) as [mrs1 e1] eqn:E1.
  destruct (shr_fexp_spec _ _ _ _ _ (Pos2Z.is_nonneg m) E1) as (He1 & _ & H11 & H12).
  rewrite Hf in He1. subst e1.
  replace (e - e) with 0 in * by lia. rewrite Z.pow_0_r, ?Z.div_1_r, ?Z.mul_1_r in *.
  assert (Hx : exact_rec mrs1) by (apply H12; split; [reflexivity|congruence]).
  unfold exact_rec in Hx. rewrite Hx, H11. cbn [round_nearest_even].
  rewrite E1. rewrite H11. rewrite (proj2 (Z.leb_le _ _)) by lia. reflexivity.
Qed.

Lemma of_nat_pos n :
  (0 < n)%nat -> Z.of_nat n < 2 ^ prec ->
  exists m e, of_nat n = S754_finite false m e /\
              e = Z.log2 (Z.of_nat n) + 1 - prec /\ e <= 0 /\
              Zpos m = Z.of_nat n * 2 ^ (- e).
Proof.
  intros Hn Hlt. unfold of_nat, binary_normalize.
  destruct (Z.of_nat n) as [|p|p] eqn:Ep; try lia.
  pose proof (Zdigits2_pos_lower p) as [Hlo Hhi].
  assert (Hsz : Zpos (digits2_pos p) <= prec).
  { apply (Zdigits2_bound (Zpos p)); unfold prec in *; lia. }
  assert (Hlog : Z.log2 (Zpos p) + 1 = Zpos (digits2_pos p)).
  { rewrite digits2_pos_size. simpl. destruct p; simpl; lia. }
  unfold binary_round.
  assert (Hfe : fexp prec emax (Zpos (digits2_pos p) + 0) = Zpos (digits2_pos p) - prec).
  { unfold fexp, emin, emax, prec in *. lia. }
  rewrite Hfe. unfold shl_align.
  destruct (Zpos (digits2_pos p) - prec - 0) as [|d|d] eqn:Ed; try lia.
  - exists p, 0. rewrite binary_round_aux_canonical by (unfold emin, emax, prec in *; lia).
    repeat split; try lia.
  - exists (Pos.iter xO p d), (Zpos (digits2_pos p) - prec).
    rewrite binary_round_aux_canonical.
    + repeat split; try lia. rewrite iter_xO_spec. f_equal. f_equal. lia.
    + rewrite iter_xO_digits. lia.
    + unfold emin, emax, prec in *. lia.
Qed.

Lemma of_nat_zero : of_nat 0 = S754_zero false.
Proof. reflexivity. Qed.


Lemma new_location_exact n k :
  new_location n k = loc_Exact <-> k = 0.
Proof.
  unfold new_location, new_location_even, new_location_odd.
  destruct (Z.even n); destruct (Z.eqb_spec k 0); split; intros H; try reflexivity;
    try discriminate; try contradiction; auto.
Qed.

Lemma shift_case m s :
  0 <= s ->
  match s with Zpos _ => Z.shiftl m s | Z0 => m | Zneg _ => 0 end = m * 2 ^ s.
Proof.
  intros Hs. destruct s as [|q|q].
  - rewrite Z.pow_0_r. ring.
  - rewrite Z.shiftl_mul_pow2 by lia. reflexivity.
  - lia.
Qed.

Lemma div_le_one m t :
  (0 < t)%nat -> (m <= t)%nat -> Z.of_nat t < 2 ^ prec ->
  le_bound (div (of_nat m) (of_nat t)) 1 0.
Proof.
  intros Ht Hmt Hlt.
  destruct (of_nat_pos t Ht Hlt) as (pt & et & Et & Hte & Het & Hpt).
  destruct m as [|m'].
  { rewrite of_nat_zero, Et. exact I. }
  set (m := S m') in *.
  assert (Hm : (0 < m)%nat) by (unfold m; lia).
  assert (Hmlt : Z.of_nat m < 2 ^ prec) by lia.
  destruct (of_nat_pos m Hm Hmlt) as (pm & em & Em & Hme & Hem & Hpm).
  rewrite Em, Et. unfold div, SFdiv, SFdiv_core_binary.
  assert (Hee : em <= et).
  { subst em et. assert (Z.log2 (Z.of_nat m) <= Z.log2 (Z.of_nat t)) by (apply Z.log2_le_mono; lia). lia. }
  set (e' := Z.min (fexp prec emax (Zdigits2 (Zpos pm) + em - (Zdigits2 (Zpos pt) + et))) (em - et)).
  assert (He' : e' <= em - et) by (unfold e'; lia).
  set (s := em - et - e').
  set (M := match s with Zpos _ => Z.shiftl (Zpos pm) s | Z0 => Zpos pm | Zneg _ => 0 end).
  assert (Hs : 0 <= s) by (unfold s; lia).
  assert (HM : M = Zpos pm * 2 ^ s) by (apply shift_case; exact Hs).
  assert (HMle : M <= Zpos pt * 2 ^ (- e')).
  { rewrite HM, Hpm, Hpt, <- !Z.mul_assoc, <- !Z.pow_add_r by lia.
    replace (- em + s) with (- et + - e') by (unfold s; lia).
    apply Z.mul_le_mono_nonneg_r; [apply Z.pow_nonneg; lia|lia]. }
  pose proof (Z_div_mod M (Zpos pt) eq_refl) as Hdm.
  unfold Z.div_eucl at 1 in Hdm. fold (Z.div_eucl M (Zpos pt)) in Hdm.
  destruct (Z.div_eucl M (Zpos pt)) as [q r] eqn:Eqr.
  destruct Hdm as [Hq Hr].
  assert (HM0 : 0 <= M) by (rewrite HM; apply Z.mul_nonneg_nonneg; [lia|apply Z.pow_nonneg; lia]).
  assert (Hq0 : 0 <= q) by nia.
  assert (Hp : 0 < 2 ^ (- e')) by (apply Z.pow_pos_nonneg; lia).
  cbn [xorb].
  apply binary_round_aux_le; try (unfold emin, emax, prec; lia); try lia.
  - rewrite Z.sub_0_l. nia.
  - intros Hne. rewrite Z.sub_0_l.
    assert (r <> 0) by (intros ->; apply Hne; apply new_location_exact; reflexivity).
    nia.
Qed.

Lemma div_eucl_exact b q : 0 < b -> Z.div_eucl (b * q) b = (q, 0).
Proof.
  intros Hb. pose proof (Z_div_mod (b * q) b (Z.lt_gt _ _ Hb)) as H.
  destruct (Z.div_eucl (b * q) b) as [q' r']. destruct H as [Hq Hr].
  assert (q' = q) by nia. subst q'. f_equal. lia.
Qed.

(** A length divided by itself is exactly 1. *)
Lemma div_self n :
  (0 < n)%nat -> Z.of_nat n < 2 ^ prec ->
  div (of_nat n) (of_nat n) = S754_finite false 4503599627370496 (-52).
Proof.
  intros Hn Hlt. destruct (of_nat_pos n Hn Hlt) as (m & e & -> & _).
  unfold div, SFdiv, SFdiv_core_binary. rewrite !Z.sub_diag.
  change (Z.min (fexp prec emax 0) 0) with (-53).
  change (0 - -53) with 53. cbv iota.
  rewrite Z.shiftl_mul_pow2 by lia. rewrite (Z.mul_comm (Zpos m)).
  rewrite Z.mul_comm, div_eucl_exact by lia.
  replace (new_location (Zpos m) 0) with loc_Exact
    by (symmetry; apply new_location_exact; reflexivity).
  vm_compute. reflexivity.
Qed.

Lemma of_nat_100 : of_nat 100 = S754_finite false 7036874417766400 (-46).
Proof. vm_compute. reflexivity. Qed.

Lemma mul_100_le d :
  le_bound d 1 0 -> le_bound (mul d (of_nat 100)) 100 0.
Proof.
  rewrite of_nat_100. destruct d as [[]|[]| |[] md ed]; cbn [le_bound];
    try contradiction; [intros _; exact I|].
  intros [He Hm]. unfold mul, SFmul. cbn [xorb].
  assert (Hp : 0 < 2 ^ (- ed)) by (apply Z.pow_pos_nonneg; lia).
  apply binary_round_aux_le; try (unfold emin, emax, prec; lia); try lia; [|congruence].
  rewrite Pos2Z.inj_mul. rewrite Z.sub_0_l in *.
  replace (- (ed + -46)) with (- ed + 46) by lia. rewrite Z.pow_add_r by lia.
  change (2 ^ 46) with 70368744177664.
  assert (H1 : Zpos md * 70368744177664 <= 2 ^ (- ed) * 70368744177664)
    by (apply Z.mul_le_mono_nonneg_r; lia).
  lia.
Qed.

Lemma Math_round_le r : le_bound r 100 0 -> 0 <= Math_round r <= 100.
Proof.
  destruct r as [[]|[]| |[] m e]; cbn [le_bound Math_round]; try contradiction; try lia.
  intros [He Hm]. destruct e as [|p|p]; [lia|lia|].
  rewrite Z.sub_0_l in Hm. cbn [Z.opp] in Hm.
  assert (Hp : 0 < 2 ^ Zpos p) by (apply Z.pow_pos_nonneg; lia).
  split.
  - apply Z.div_pos; lia.
  - apply Z.lt_succ_r. apply Z.div_lt_upper_bound; lia.
Qed.

End NumberFacts.

Module PercentageFacts.

Import Number NumberFacts.
#[local] Open Scope Z_scope.

(** The rounded operand of [percentage] is zero or a positive finite number,
    at most 100. *)
Lemma percentage_finite matched total :
  (0 < total)%nat -> (matched <= total)%nat -> Z.of_nat total < 2 ^ 53 ->
  le_bound (mul (div (of_nat matched) (of_nat total)) (of_nat 100)) 100 0.
Proof.
  intros Ht Hm Hlt. apply mul_100_le, div_le_one; assumption.
Qed.

Lemma percentage_range matched total :
  (0 < total)%nat -> (matched <= total)%nat -> Z.of_nat total < 2 ^ 53 ->
  0 <= percentage matched total <= 100.
Proof.
  intros Ht Hm Hlt. unfold percentage.
  apply Math_round_le, percentage_finite; assumption.
Qed.

(** No match makes 0 percent, a match of every token 100. *)
Lemma percentage_none total :
  (0 < total)%nat -> Z.of_nat total < 2 ^ 53 -> percentage 0 total = 0.
Proof.
  intros Ht Hlt. unfold percentage.
  destruct (of_nat_pos total Ht Hlt) as (m & e & -> & _).
  rewrite of_nat_zero, of_nat_100. reflexivity.
Qed.

Lemma percentage_all total :
  (0 < total)%nat -> Z.of_nat total < 2 ^ 53 -> percentage total total = 100.
Proof.
  intros Ht Hlt. unfold percentage. rewrite (div_self total Ht Hlt).
  vm_compute. reflexivity.
Qed.

(** Three of four tokens make 75 percent, two of three 67. *)
Example percentage_three_of_four : percentage 3 4 = 75.
Proof. vm_compute. reflexivity. Qed.

Example percentage_two_of_three : percentage 2 3 = 67.
Proof. vm_compute. reflexivity. Qed.

(** The arithmetic is that of binary64: [23 / 40 * 100] is
    [57.49999999999999] and rounds to 57, where the exact 57.5 would round
    to 58. *)
Example percentage_23_of_40 : percentage 23 40 = 57.
Proof. vm_compute. reflexivity. Qed.

Lemma array_length_below_2_53 {A} (l : list A) :
  array_length_ok l -> Z.of_nat (List.length l) < 2 ^ 53.
Proof.
  unfold array_length_ok. intros H.
  apply Z.lt_trans with (1 := H). reflexivity.
Qed.

End PercentageFacts.

(** * Facts on [Array.prototype.sort] *)

Module SortFacts.

Import JSArray.
#[local] Open Scope Z_scope.

Lemma StronglySorted_weaken {A} (R R' : A -> A -> Prop) l :
  (forall a b, R a b -> R' a b) -> StronglySorted R l -> StronglySorted R' l.
Proof.
  intros HR. induction 1 as [|x l Hs IH Hx]; constructor; [exact IH|].
  apply Forall_impl with (2 := Hx). apply HR.
Qed.

Section Keyed.
Context {A : Type}.
Variable comparefn : A -> A -> Z.

Lemma insert_perm x l : Permutation (insert comparefn x l) (x :: l).
Proof.
  induction l as [|y l IH]; cbn [insert].
  - apply Permutation_refl.
  - destruct (comparefn x y <=? 0).
    + apply Permutation_refl.
    + apply perm_trans with (y :: x :: l);
        [apply perm_skip, IH | apply perm_swap].
Qed.

Lemma sort_perm l : Permutation (sort comparefn l) l.
Proof.
  induction l as [|x l IH]; cbn [sort].
  - apply perm_nil.
  - apply perm_trans with (x :: sort comparefn l);
      [apply insert_perm | apply perm_skip, IH].
Qed.

Lemma sort_length l : List.length (sort comparefn l) = List.length l.
Proof. apply Permutation_length, sort_perm. Qed.

Lemma sort_In x l : In x (sort comparefn l) <-> In x l.
Proof.
  split; apply Permutation_in;
    [apply sort_perm | apply Permutation_sym, sort_perm].
Qed.

Lemma sort_Forall (P : A -> Prop) l : Forall P l -> Forall P (sort comparefn l).
Proof.
  rewrite !Forall_forall. intros H x Hx. apply H, sort_In, Hx.
Qed.

(** The comparator orders the elements by an integer key. *)
Variable key : A -> Z.
Hypothesis comparefn_key : forall a b, comparefn a b <= 0 <-> key a <= key b.

Lemma insert_ordered x l : ordered key l -> ordered key (insert comparefn x l).
Proof.
  unfold ordered. induction 1 as [|y l Hs IH Hy]; cbn [insert].
  - constructor; constructor.
  - destruct (Z.leb_spec (comparefn x y) 0) as [Hc|Hc].
    + constructor; [constructor; assumption|].
      apply comparefn_key in Hc. constructor; [exact Hc|].
      rewrite Forall_forall in *. intros z Hz. specialize (Hy z Hz). lia.
    + constructor; [exact IH|].
      assert (Hyx : key y <= key x).
      { destruct (Z_le_gt_dec (key x) (key y)) as [Hle|Hgt]; [|lia].
        apply comparefn_key in Hle. lia. }
      apply (Permutation_Forall (Permutation_sym (insert_perm x l))).
      constructor; assumption.
Qed.

Lemma sort_ordered l : ordered key (sort comparefn l).
Proof.
  induction l as [|x l IH]; cbn [sort].
  - constructor.
  - apply insert_ordered, IH.
Qed.

Lemma insert_filter k x l :
  filter (with_key key k) (insert comparefn x l) =
  if with_key key k x then x :: filter (with_key key k) l else filter (with_key key k) l.
Proof.
  induction l as [|y l IH]; cbn [insert].
  - reflexivity.
  - destruct (Z.leb_spec (comparefn x y) 0) as [Hc|Hc].
    + reflexivity.
    + cbn [filter]. rewrite IH.
      destruct (with_key key k x) eqn:Ex; [|reflexivity].
      assert (Hy : with_key key k y = false).
      { unfold with_key in *. apply Z.eqb_eq in Ex. apply Z.eqb_neq.
        intros Ey. assert (Hle : key x <= key y) by lia.
        apply comparefn_key in Hle. lia. }
      rewrite Hy. reflexivity.
Qed.

(** The sort is stable: the elements of one key keep their order. *)
Lemma sort_stable k l :
  filter (with_key key k) (sort comparefn l) = filter (with_key key k) l.
Proof.
  induction l as [|x l IH]; cbn [sort].
  - reflexivity.
  - rewrite insert_filter, IH. reflexivity.
Qed.

Lemma with_key_refl a : with_key key (key a) a = true.
Proof. apply Z.eqb_refl. Qed.

Lemma ordered_stable_unique l1 :
  forall l2,
    ordered key l1 -> ordered key l2 ->
    (forall k, filter (with_key key k) l1 = filter (with_key key k) l2) ->
    l1 = l2.
Proof.
  unfold ordered.
  induction l1 as [|x l1 IH]; intros l2 H1 H2 Hf.
  - destruct l2 as [|y l2]; [reflexivity|].
    specialize (Hf (key y)). cbn [filter] in Hf.
    rewrite with_key_refl in Hf. discriminate.
  - destruct l2 as [|y l2].
    { specialize (Hf (key x)). cbn [filter] in Hf.
      rewrite with_key_refl in Hf. discriminate. }
    inversion H1 as [|? ? H1s H1h]; subst.
    inversion H2 as [|? ? H2s H2h]; subst.
    rewrite Forall_forall in H1h, H2h.
    assert (Hxy : key y <= key x).
    { pose proof (Hf (key x)) as Hk. cbn [filter] in Hk.
      rewrite with_key_refl in Hk.
      assert (Hin : In x (filter (with_key key (key x)) (y :: l2))).
      { cbn [filter]. rewrite <- Hk. left. reflexivity. }
      apply filter_In in Hin. destruct Hin as [[->|Hin] _]; [lia|].
      apply H2h, Hin. }
    assert (Hyx : key x <= key y).
    { pose proof (Hf (key y)) as Hk. cbn [filter] in Hk.
      rewrite with_key_refl in Hk.
      assert (Hin : In y (filter (with_key key (key y)) (x :: l1))).
      { cbn [filter]. rewrite Hk. left. reflexivity. }
      apply filter_In in Hin. destruct Hin as [[->|Hin] _]; [lia|].
      apply H1h, Hin. }
    assert (Hk : key x = key y) by lia.
    pose proof (Hf (key x)) as Hh. cbn [filter] in Hh.
    rewrite with_key_refl in Hh. rewrite Hk, with_key_refl in Hh.
    injection Hh as -> Hh'. f_equal.
    apply IH; try assumption.
    intros k. specialize (Hf k). cbn [filter] in Hf.
    destruct (with_key key k y); [injection Hf as Hf|]; exact Hf.
Qed.

(** A stable sort has one possible result: [sort] computes it. *)
Lemma sort_unique l l' :
  ordered key l' ->
  (forall k, filter (with_key key k) l' = filter (with_key key k) l) ->
  l' = sort comparefn l.
Proof.
  intros Ho Hf. apply ordered_stable_unique.
  - exact Ho.
  - apply sort_ordered.
  - intros k. rewrite sort_stable. apply Hf.
Qed.
End Keyed.

End SortFacts.

(** * Facts on strings *)

Module StringFacts.

Import JSString.
#[local] Open Scope string_scope.

Lemma truthy_spec s : truthy s = true <-> s <> "".
Proof.
  unfold truthy. destruct (String.eqb_spec s ""); split; intros H;
    try reflexivity; try discriminate; try congruence.
Qed.

Lemma split_not_nil sep s : split sep s <> [].
Proof.
  destruct s as [|c s]; cbn [split]; [discriminate|].
  destruct (sep c); [discriminate|].
  destruct (split sep s); discriminate.
Qed.

Lemma split_rejoin sep s : rejoin (split sep s) (separators sep s) = s.
Proof.
  induction s as [|c s IH]; [reflexivity|].
  unfold separators in *. cbn [split units list_ascii_of_string filter].
  fold (units s). destruct (sep c) eqn:Ec.
  - cbn [rejoin append]. rewrite IH. reflexivity.
  - pose proof (split_not_nil sep s) as Hn.
    destruct (split sep s) as [|p ps]; [contradiction|].
    cbn [rejoin] in *. destruct (filter sep (units s)) as [|d ds].
    + rewrite IH. reflexivity.
    + cbn [append]. rewrite IH. reflexivity.
Qed.

Lemma split_length sep s :
  List.length (split sep s) = S (List.length (separators sep s)).
Proof.
  induction s as [|c s IH]; [reflexivity|].
  unfold separators in *. cbn [split units list_ascii_of_string filter].
  fold (units s). destruct (sep c) eqn:Ec.
  - cbn [List.length]. rewrite IH. reflexivity.
  - pose proof (split_not_nil sep s) as Hn.
    destruct (split sep s) as [|p ps]; [contradiction|]. exact IH.
Qed.

Lemma split_free sep s : Forall (free_of sep) (split sep s).
Proof.
  induction s as [|c s IH]; cbn [split].
  - constructor; constructor.
  - destruct (sep c) eqn:Ec.
    + constructor; [constructor|exact IH].
    + destruct (split sep s) as [|p ps].
      * constructor; [|constructor]. constructor; [exact Ec|constructor].
      * inversion IH as [|? ? Hp Hps]; subst.
        constructor; [|exact Hps]. constructor; [exact Ec|exact Hp].
Qed.

(** Two character classes that agree on the code units of [s] split it
    alike. *)
Lemma split_ext sep sep' s :
  Forall (fun c => sep c = sep' c) (units s) -> split sep s = split sep' s.
Proof.
  induction s as [|c s IH]; intros H; [reflexivity|].
  inversion H as [|? ? Hc Hs]; subst. cbn [split].
  rewrite Hc, (IH Hs). reflexivity.
Qed.

Lemma trimStart_units s c : In c (units (trimStart s)) -> In c (units s).
Proof.
  induction s as [|d s IH]; cbn [trimStart]; [tauto|].
  destruct (is_whitespace d); [|tauto].
  intros H. right. apply IH, H.
Qed.

Lemma trimEnd_units s c : In c (units (trimEnd s)) -> In c (units s).
Proof.
  induction s as [|d s IH]; cbn [trimEnd]; [tauto|].
  destruct (trimEnd s) as [|e t] eqn:Et.
  - destruct (is_whitespace d); cbn; tauto.
  - cbn [units list_ascii_of_string In] in *. intros [H|H]; [left; exact H|right].
    apply IH. exact H.
Qed.

Lemma trim_free sep s : free_of sep s -> free_of sep (trim s).
Proof.
  unfold free_of. rewrite !Forall_forall. intros H c Hc.
  apply H, trimStart_units, trimEnd_units, Hc.
Qed.

Lemma trimStart_clean s : starts_clean (trimStart s).
Proof.
  induction s as [|c s IH]; cbn [trimStart]; [exact I|].
  destruct (is_whitespace c) eqn:Ec; [exact IH|exact Ec].
Qed.

Lemma trimStart_of_clean s : starts_clean s -> trimStart s = s.
Proof.
  destruct s as [|c s]; cbn; [reflexivity|]. intros ->. reflexivity.
Qed.

Lemma trimEnd_clean s : starts_clean s -> starts_clean (trimEnd s).
Proof.
  destruct s as [|c s]; cbn [starts_clean trimEnd]; [tauto|].
  intros Hc. destruct (trimEnd s); [rewrite Hc|]; exact Hc.
Qed.

Lemma trimEnd_idempotent s : trimEnd (trimEnd s) = trimEnd s.
Proof.
  induction s as [|c s IH]; [reflexivity|]. cbn [trimEnd].
  destruct (trimEnd s) as [|d t] eqn:Et.
  - destruct (is_whitespace c) eqn:Ec; [reflexivity|].
    cbn [trimEnd]. rewrite Ec. reflexivity.
  - change (trimEnd (String c (String d t)))
      with (match trimEnd (String d t) with
            | EmptyString =>
                if is_whitespace c then EmptyString else String c EmptyString
            | t' => String c t'
            end).
    rewrite IH. reflexivity.
Qed.

Lemma trim_idempotent s : trim (trim s) = trim s.
Proof.
  unfold trim.
  rewrite (trimStart_of_clean (trimEnd (trimStart s)))
    by apply trimEnd_clean, trimStart_clean.
  apply trimEnd_idempotent.
Qed.

(** [trimStart] removes a prefix of white space, [trimEnd] a suffix. *)
Lemma trimStart_decompose s :
  exists l, s = l ++ trimStart s /\ all_whitespace l.
Proof.
  induction s as [|c s (l & Hl & Hw)].
  - exists "". split; [reflexivity|constructor].
  - cbn [trimStart]. destruct (is_whitespace c) eqn:Ec.
    + exists (String c l). split.
      * cbn [append]. rewrite <- Hl. reflexivity.
      * constructor; assumption.
    + exists "". split; [reflexivity|constructor].
Qed.

Lemma trimEnd_decompose s :
  exists r, s = trimEnd s ++ r /\ all_whitespace r.
Proof.
  induction s as [|c s (r & Hr & Hw)].
  - exists "". split; [reflexivity|constructor].
  - cbn [trimEnd]. destruct (trimEnd s) as [|d t] eqn:Et.
    + destruct (is_whitespace c) eqn:Ec.
      * exists (String c r). split.
        -- cbn [append] in *. rewrite <- Hr. reflexivity.
        -- constructor; assumption.
      * exists r. split; [|exact Hw].
        cbn [append] in *. rewrite <- Hr. reflexivity.
    + exists r. split; [|exact Hw].
      cbn [append] in *. rewrite <- Hr. reflexivity.
Qed.

Lemma trim_decompose s :
  exists l r, s = l ++ trim s ++ r /\ all_whitespace l /\ all_whitespace r.
Proof.
  destruct (trimStart_decompose s) as (l & Hl & Hwl).
  destruct (trimEnd_decompose (trimStart s)) as (r & Hr & Hwr).
  exists l, r. unfold trim. rewrite <- Hr. auto.
Qed.

(** The last code unit of what [trimEnd] leaves is not white space. *)
Lemma trimEnd_last s t c :
  trimEnd s = t ++ String c "" -> is_whitespace c = false.
Proof.
  revert t. induction s as [|d s IH]; intros t; cbn [trimEnd].
  - destruct t; discriminate.
  - destruct (trimEnd s) as [|e u] eqn:Eu.
    + destruct (is_whitespace d) eqn:Ed.
      * destruct t; discriminate.
      * destruct t as [|x t]; cbn [append]; intros H.
        -- injection H as <-. exact Ed.
        -- injection H as _ H. destruct t; discriminate.
    + destruct t as [|x t]; cbn [append]; intros H; [discriminate|].
      injection H as _ H. apply (IH t). exact H.
Qed.

End StringFacts.


(** * Facts on the jobs routes *)

Module JobsFacts.

Import JSString JobsRoute.
#[local] Open Scope Z_scope.

Lemma filter_all {A} (l : list A) : filter (fun _ => true) l = l.
Proof. induction l as [|x l IH]; cbn; [|rewrite IH]; reflexivity. Qed.

Lemma filter_twice {A} (f g : A -> bool) l :
  filter g (filter f l) = filter (fun x => f x && g x) l.
Proof.
  induction l as [|x l IH]; [reflexivity|]. cbn [filter].
  destruct (f x); cbn [filter andb]; [destruct (g x)|]; rewrite IH; reflexivity.
Qed.

Lemma filter_of_map {A B} (f : A -> B) (g : B -> bool) l :
  filter g (map f l) = map f (filter (fun x => g (f x)) l).
Proof.
  induction l as [|x l IH]; [reflexivity|]. cbn [filter map].
  destruct (g (f x)); cbn [map]; rewrite IH; reflexivity.
Qed.

Lemma filter_optional {A B} (o : option B) (f : B -> A -> bool) l :
  match o with Some v => filter (f v) l | None => l end =
  filter (fun x => match o with Some v => f v x | None => true end) l.
Proof. destruct o; [reflexivity|symmetry; apply filter_all]. Qed.

Lemma filters_kept query jobsData :
  filterSkills (q_skills query)
    (filterType (q_type query) (filterSearch (q_search query) jobsData)) =
  filter (kept query) jobsData.
Proof.
  unfold filterSkills, filterType, filterSearch.
  rewrite (filter_optional (given (q_search query))).
  rewrite (filter_optional (given (q_type query))).
  rewrite (filter_optional (given (q_skills query))).
  rewrite !filter_twice. apply filter_ext. intros job. unfold kept.
  destruct (given (q_search query)), (given (q_type query)),
    (given (q_skills query));
    rewrite <- ?andb_assoc, ?andb_true_r, ?andb_true_l; reflexivity.
Qed.

(** The jobs before the sort are the kept rows, in the order of the rows. *)
Lemma jobsWithMatchScore_rows query rows userSkills :
  jobsWithMatchScore query rows userSkills =
  map (fun row => withMatchScore userSkills (mapJob row))
      (filter (fun row => kept query (mapJob row)) (rows_of rows)).
Proof.
  unfold jobsWithMatchScore. fold (rows_of rows).
  rewrite filters_kept, filter_of_map, map_map. reflexivity.
Qed.

Lemma byMatchDescending_key a b :
  byMatchDescending a b <= 0 <-> - matchPercentage a <= - matchPercentage b.
Proof. unfold byMatchDescending. lia. Qed.

Lemma matchingSkills_length userSkills job :
  (List.length (matchingSkills userSkills job) <= List.length (skills job))%nat.
Proof. apply filter_length_le. Qed.

Lemma matchingSkills_In userSkills job token :
  In token (matchingSkills userSkills job) <->
  In token (skills job) /\
  exists entry, In entry userSkills /\ toLowerCase entry = toLowerCase token.
Proof.
  unfold matchingSkills. rewrite filter_In, existsb_exists.
  split; intros [Hin (entry & He & Heq)]; (split; [exact Hin|]);
    exists entry; (split; [exact He|]); apply String.eqb_eq; exact Heq.
Qed.

Lemma dynamicMatch_range userSkills job :
  array_length_ok (skills job) -> 0 <= dynamicMatch userSkills job <= 100.
Proof.
  intros Hlen. unfold dynamicMatch.
  destruct (Nat.ltb_spec 0 (List.length (skills job))) as [Hpos|Hz]; [|lia].
  apply PercentageFacts.percentage_range.
  - exact Hpos.
  - apply matchingSkills_length.
  - apply PercentageFacts.array_length_below_2_53, Hlen.
Qed.

Lemma dynamicMatch_none userSkills job :
  array_length_ok (skills job) ->
  matchingSkills userSkills job = [] -> dynamicMatch userSkills job = 0.
Proof.
  intros Hlen Hnone. unfold dynamicMatch. rewrite Hnone.
  destruct (Nat.ltb_spec 0 (List.length (skills job))) as [Hpos|Hz]; [|reflexivity].
  apply PercentageFacts.percentage_none; [exact Hpos|].
  apply PercentageFacts.array_length_below_2_53, Hlen.
Qed.

Lemma dynamicMatch_all userSkills job :
  skills job <> [] -> array_length_ok (skills job) ->
  matchingSkills userSkills job = skills job ->
  dynamicMatch userSkills job = 100.
Proof.
  intros Hne Hlen Hall. unfold dynamicMatch. rewrite Hall.
  destruct (Nat.ltb_spec 0 (List.length (skills job))) as [Hpos|Hz].
  - apply PercentageFacts.percentage_all; [exact Hpos|].
    apply PercentageFacts.array_length_below_2_53, Hlen.
  - destruct (skills job); [contradiction|cbn in Hz; lia].
Qed.

Lemma withMatchScore_base userSkills job :
  matchPercentage job <= matchPercentage (withMatchScore userSkills job).
Proof. cbn [withMatchScore matchPercentage]. lia. Qed.

Lemma get_jobs_jobs query selected resume :
  jobs_of (get_jobs query selected resume) =
  match error selected with
  | Some _ => []
  | None =>
      JSArray.sort byMatchDescending
        (jobsWithMatchScore query (data selected) (getUserSkills resume))
  end.
Proof. unfold get_jobs. destruct (error selected); reflexivity. Qed.

Lemma get_jobs_descending query selected resume :
  StronglySorted (fun a b => matchPercentage a >= matchPercentage b)
                 (jobs_of (get_jobs query selected resume)).
Proof.
  rewrite get_jobs_jobs. destruct (error selected); [constructor|].
  pose proof (SortFacts.sort_ordered byMatchDescending
                (fun job => - matchPercentage job) byMatchDescending_key
                (jobsWithMatchScore query (data selected) (getUserSkills resume)))
    as Hs.
  apply SortFacts.StronglySorted_weaken with (2 := Hs).
  intros a b Hab. cbv beta in Hab. lia.
Qed.

Lemma get_jobs_In query selected resume job :
  In job (jobs_of (get_jobs query selected resume)) ->
  exists row,
    In row (rows_of (data selected)) /\
    job = withMatchScore (getUserSkills resume) (mapJob row).
Proof.
  rewrite get_jobs_jobs. destruct (error selected); [intros []|].
  rewrite SortFacts.sort_In, jobsWithMatchScore_rows, in_map_iff.
  intros (row & <- & Hin). apply filter_In in Hin.
  exists row. split; [apply Hin|reflexivity].
Qed.

Lemma get_job_In idIsNaN selected resume job :
  In job (jobs_of (get_job idIsNaN selected resume)) ->
  exists row,
    data selected = Some row /\
    job = withMatchScore (getUserSkills resume) (mapJob row).
Proof.
  unfold get_job. destruct idIsNaN; [intros []|].
  destruct (error selected); [intros []|].
  destruct (data selected) as [row|]; [|intros []].
  intros [<-|[]]. exists row. split; reflexivity.
Qed.

End JobsFacts.

(** * Facts on the skill-gap routes *)

Module SkillGapFacts.

Import SkillGapRoute.
#[local] Open Scope Z_scope.

Lemma byMatchAscending_key a b :
  byMatchAscending a b <= 0 <-> overallMatch a <= overallMatch b.
Proof. unfold byMatchAscending. lia. Qed.

Lemma sort_ascending l : ascending (JSArray.sort byMatchAscending l).
Proof.
  apply (SortFacts.sort_ordered byMatchAscending overallMatch byMatchAscending_key).
Qed.

End SkillGapFacts.

(** * Facts on the profile route *)

Module ProfileFacts.

Import ProfileRoute.
#[local] Open Scope Z_scope.

Lemma includes_In (l : list string) (skill : string) :
  existsb (fun s => (s =? skill)%string) l = true <-> In skill l.
Proof.
  rewrite existsb_exists. split.
  - intros (s & Hin & Heq). apply String.eqb_eq in Heq. subst. exact Hin.
  - intros Hin. exists skill. split; [exact Hin|apply String.eqb_refl].
Qed.

Lemma strings_of_strings (l : list string) : strings_of (map JStr l) = l.
Proof. induction l as [|s l IH]; cbn; [|rewrite IH]; reflexivity. Qed.

Lemma latest_In rows r : latest rows = Some r -> In r rows.
Proof.
  revert r. induction rows as [|x rows IH]; intros r; cbn [latest]; [discriminate|].
  destruct (latest rows) as [r'|].
  - destruct (created_at x <? created_at r'); intros H; injection H as <-.
    + right. apply IH. reflexivity.
    + left. reflexivity.
  - intros H; injection H as <-. left. reflexivity.
Qed.

Lemma latest_none rows : latest rows = None -> rows = [].
Proof.
  destruct rows as [|x rows]; [reflexivity|]. cbn [latest].
  destruct (latest rows) as [r'|]; [destruct (created_at x <? created_at r')|];
    discriminate.
Qed.

(** An update that keeps the creation times keeps the latest row. *)
Lemma latest_map (f : ResumeRow -> ResumeRow) rows :
  (forall r, created_at (f r) = created_at r) ->
  latest (map f rows) = option_map f (latest rows).
Proof.
  intros Hf. induction rows as [|x rows IH]; [reflexivity|].
  cbn [map latest]. rewrite IH. destruct (latest rows) as [r'|]; cbn [option_map].
  - rewrite !Hf. destruct (created_at x <? created_at r'); reflexivity.
  - reflexivity.
Qed.

Lemma filter_map_user (f : ResumeRow -> ResumeRow) userId rows :
  (forall r, user_id (f r) = user_id r) ->
  filter (fun r => (user_id r =? userId)%string) (map f rows) =
  map f (filter (fun r => (user_id r =? userId)%string) rows).
Proof.
  intros Hf. induction rows as [|x rows IH]; [reflexivity|].
  cbn [map filter]. rewrite Hf.
  destruct (user_id x =? userId)%string; cbn [map]; rewrite IH; reflexivity.
Qed.

Lemma stored_after_update resumes userId r nextSkills :
  getLatestResume resumes userId = Some r ->
  stored_skills (update_skills resumes (resume_id r) nextSkills) userId =
  nextSkills.
Proof.
  intros Hl. unfold stored_skills, getLatestResume, update_skills in *.
  rewrite filter_map_user
    by (intros x; destruct (resume_id x =? resume_id r)%string; reflexivity).
  rewrite latest_map
    by (intros x; destruct (resume_id x =? resume_id r)%string; reflexivity).
  rewrite Hl. cbn [option_map]. rewrite String.eqb_refl.
  cbn [extracted_skills normalizeSkills]. apply strings_of_strings.
Qed.

Lemma stored_after_insert resumes defaults userId nextSkills :
  getLatestResume resumes userId = None ->
  stored_skills (insert_resume resumes defaults userId nextSkills) userId =
  nextSkills.
Proof.
  intros Hl. unfold stored_skills, getLatestResume, insert_resume in *.
  apply latest_none in Hl. rewrite filter_app, Hl. cbn [filter user_id app].
  rewrite String.eqb_refl. cbn [latest option_map extracted_skills normalizeSkills].
  apply strings_of_strings.
Qed.


End ProfileFacts.

(** * Facts on the rounding of a percentage *)

(** The percentage [Math.round((m / t) * 100)] is a whole number nearest to
    the exact [100 * m / t]: the two roundings of binary64 before
    [Math.round] move the value by less than [100 * 2^-40], and a fraction
    with a denominator below [2^32] is either a half-integer or further
    than that from every half-integer. *)
Module RoundingFacts.

Import Number NumberFacts.
#[local] Open Scope Z_scope.

(** The quotient that [Z.div_eucl] returns is that of [Z.div]. *)
Lemma div_eucl_div a b q r : Z.div_eucl a b = (q, r) -> a / b = q.
Proof. intros H. unfold Z.div. rewrite H. reflexivity. Qed.

(** The bounds of [binary_round_aux_le], on both sides. *)
Lemma binary_round_aux_between mx ex lx lo hi k :
  0 <= mx -> 0 < lo -> 0 < hi < 2 ^ prec ->
  emin prec emax <= k -> k <= emax - prec -> ex <= k ->
  lo * 2 ^ (k - ex) <= mx <= hi * 2 ^ (k - ex) ->
  (lx <> loc_Exact -> mx < hi * 2 ^ (k - ex)) ->
  between (binary_round_aux prec emax false mx ex lx) lo hi k.
Proof.
  intros Hm Hlo HB Hk1 Hk2 He [Hlb Hle] Hlt.
  unfold binary_round_aux.
  destruct (shr_fexp prec emax mx ex lx) as [mrs1 e1] eqn:E1.
  destruct (shr_fexp_spec _ _ _ _ _ Hm E1) as (He1 & H10 & H11 & H12).
  assert (He1k : e1 <= k) by (rewrite He1; apply fexp_le_bound with (B := hi); assumption).
  assert (He1e : ex <= e1) by lia.
  assert (Hm1 : shr_m mrs1 <= hi * 2 ^ (k - e1)).
  { rewrite H11. apply div_pow_le; try lia.
    replace (k - e1 + (e1 - ex)) with (k - ex) by lia. exact Hle. }
  assert (Hl1 : lo * 2 ^ (k - e1) <= shr_m mrs1).
  { rewrite H11.
    assert (Hp : 0 < 2 ^ (e1 - ex)) by (apply Z.pow_pos_nonneg; lia).
    apply Z.div_le_lower_bound; [exact Hp|].
    replace (k - ex) with (k - e1 + (e1 - ex)) in Hlb by lia.
    rewrite Z.pow_add_r in Hlb by lia. lia. }
  set (m2 := round_nearest_even (shr_m mrs1) (loc_of_shr_record mrs1)).
  assert (Hm2 : shr_m mrs1 <= m2 <= hi * 2 ^ (k - e1)).
  { assert (Hcase : m2 = shr_m mrs1 \/ (m2 = shr_m mrs1 + 1 /\ ~ exact_rec mrs1)).
    { unfold m2, exact_rec, round_nearest_even.
      destruct (loc_of_shr_record mrs1) as [|[]]; auto.
      - destruct (Z.even (shr_m mrs1)); [auto|right; split; [reflexivity|discriminate]].
      - right; split; [reflexivity|discriminate]. }
    destruct Hcase as [->|[-> Hne]]; [lia|]. split; [lia|].
    destruct (Z_lt_le_dec (shr_m mrs1) (hi * 2 ^ (k - e1))) as [Hs|Hs]; [lia|].
    exfalso. apply Hne. apply H12.
    assert (Heq : shr_m mrs1 = hi * 2 ^ (k - e1)) by lia.
    assert (Hp : 0 < 2 ^ (e1 - ex)) by (apply Z.pow_pos_nonneg; lia).
    assert (Hmx : mx = hi * 2 ^ (k - ex)).
    { assert (Hge : shr_m mrs1 * 2 ^ (e1 - ex) <= mx).
      { rewrite H11. rewrite Z.mul_comm. apply Z.mul_div_le. exact Hp. }
      rewrite Heq in Hge. rewrite <- Z.mul_assoc, <- Z.pow_add_r in Hge by lia.
      replace (k - e1 + (e1 - ex)) with (k - ex) in Hge by lia. lia. }
    split.
    - destruct lx as [|c]; [reflexivity|]. exfalso.
      assert (mx < hi * 2 ^ (k - ex)) by (apply Hlt; discriminate). lia.
    - rewrite Heq, Hmx, <- Z.mul_assoc, <- Z.pow_add_r by lia. do 2 f_equal. lia. }
  assert (Hm20 : 0 <= m2) by lia.
  destruct (shr_fexp prec emax m2 e1 loc_Exact) as [mrs2 e2] eqn:E2.
  destruct (shr_fexp_spec _ _ _ _ _ Hm20 E2) as (He2 & H20 & H21 & _).
  assert (He2k : e2 <= k)
    by (rewrite He2; apply fexp_le_bound with (B := hi); try assumption; lia).
  assert (He12 : e1 <= e2) by lia.
  assert (Hm3 : shr_m mrs2 <= hi * 2 ^ (k - e2)).
  { rewrite H21. apply div_pow_le; try lia.
    replace (k - e2 + (e2 - e1)) with (k - e1) by lia. lia. }
  assert (Hl3 : lo * 2 ^ (k - e2) <= shr_m mrs2).
  { rewrite H21.
    assert (Hp : 0 < 2 ^ (e2 - e1)) by (apply Z.pow_pos_nonneg; lia).
    apply Z.div_le_lower_bound; [exact Hp|].
    assert (Hsplit : 2 ^ (k - e1) = 2 ^ (k - e2) * 2 ^ (e2 - e1)).
    { rewrite <- Z.pow_add_r by lia. f_equal. lia. }
    rewrite Hsplit in Hl1. lia. }
  assert (Hpos : 0 < lo * 2 ^ (k - e2)).
  { apply Z.mul_pos_pos; [exact Hlo|apply Z.pow_pos_nonneg; lia]. }
  destruct (shr_m mrs2) as [|p|p] eqn:E3; [lia| |lia].
  replace (e2 <=? emax - prec) with true by (symmetry; apply Z.leb_le; lia).
  simpl. split; [exact He2k|]. split; assumption.
Qed.

(** The mantissa of the Number of a length has 53 digits. *)
Lemma of_nat_digits n m e :
  (0 < n)%nat -> Z.of_nat n < 2 ^ prec ->
  e = Z.log2 (Z.of_nat n) + 1 - prec -> Zpos m = Z.of_nat n * 2 ^ (- e) ->
  Zdigits2 (Zpos m) = prec.
Proof.
  intros Hn Hlt He Hm.
  assert (Hn0 : 0 < Z.of_nat n) by lia.
  destruct (Z.log2_spec (Z.of_nat n) Hn0) as [Hlo Hhi].
  assert (Hl0 : 0 <= Z.log2 (Z.of_nat n)) by apply Z.log2_nonneg.
  assert (Hl53 : Z.log2 (Z.of_nat n) < prec).
  { apply Z.log2_lt_pow2; [exact Hn0|exact Hlt]. }
  assert (He0 : 0 <= - e) by lia.
  assert (Hp : 0 < 2 ^ (- e)) by (apply Z.pow_pos_nonneg; lia).
  assert (Hmlo : 2 ^ (prec - 1) <= Zpos m).
  { assert (Hsplit : 2 ^ (prec - 1) = 2 ^ Z.log2 (Z.of_nat n) * 2 ^ (- e)).
    { rewrite <- Z.pow_add_r by lia. f_equal. lia. }
    rewrite Hm, Hsplit. apply Z.mul_le_mono_nonneg_r; lia. }
  assert (Hmhi : Zpos m < 2 ^ prec).
  { assert (Hsplit : 2 ^ prec = 2 ^ Z.succ (Z.log2 (Z.of_nat n)) * 2 ^ (- e)).
    { rewrite <- Z.pow_add_r by lia. f_equal. lia. }
    rewrite Hm, Hsplit. apply Z.mul_lt_mono_pos_r; lia. }
  pose proof (Zdigits2_pos_lower m) as [Hdlo Hdhi].
  change (Zdigits2 (Zpos m)) with (Zpos (digits2_pos m)).
  set (d := Zpos (digits2_pos m)) in *.
  assert (Hd1 : d <= prec).
  { destruct (Z_le_gt_dec d prec) as [H|H]; [exact H|exfalso].
    assert (2 ^ prec <= 2 ^ (d - 1)) by (apply Z.pow_le_mono_r; lia). lia. }
  assert (Hd2 : prec <= d).
  { destruct (Z_le_gt_dec prec d) as [H|H]; [exact H|exfalso].
    assert (2 ^ d <= 2 ^ (prec - 1)) by (apply Z.pow_le_mono_r; unfold d; lia). lia. }
  lia.
Qed.

(** The quotient of two lengths lies between the two multiples of [2^-40]
    around the exact quotient. *)
Lemma div_between m t A :
  (0 < m)%nat -> (m <= t)%nat -> Z.of_nat t < 2 ^ 32 ->
  A * Z.of_nat t <= Z.of_nat m * 2 ^ 40 < (A + 1) * Z.of_nat t ->
  between (div (of_nat m) (of_nat t)) A (A + 1) (-40).
Proof.
  intros Hm Hmt Hlt [HA1 HA2].
  assert (Ht : (0 < t)%nat) by lia.
  assert (Hlt53 : Z.of_nat t < 2 ^ prec).
  { apply Z.lt_trans with (1 := Hlt). reflexivity. }
  assert (Hmlt53 : Z.of_nat m < 2 ^ prec) by lia.
  destruct (of_nat_pos t Ht Hlt53) as (pt & et & Et & Hte & Het & Hpt).
  destruct (of_nat_pos m Hm Hmlt53) as (pm & em & Em & Hme & Hem & Hpm).
  pose proof (of_nat_digits t pt et Ht Hlt53 Hte Hpt) as Hdt.
  pose proof (of_nat_digits m pm em Hm Hmlt53 Hme Hpm) as Hdm.
  assert (HA0 : 0 < A).
  { destruct (Z_lt_le_dec 0 A) as [H|H]; [exact H|exfalso].
    change (2 ^ 40) with 1099511627776 in HA2.
    change (2 ^ 32) with 4294967296 in Hlt. nia. }
  assert (HA40 : A <= 2 ^ 40).
  { change (2 ^ 40) with 1099511627776 in *. nia. }
  rewrite Em, Et. unfold div, SFdiv, SFdiv_core_binary. rewrite Hdt, Hdm.
  assert (Hee : em <= et).
  { subst em et.
    assert (Z.log2 (Z.of_nat m) <= Z.log2 (Z.of_nat t)) by (apply Z.log2_le_mono; lia).
    lia. }
  set (e' := Z.min (fexp prec emax (prec + em - (prec + et))) (em - et)).
  assert (He' : e' <= em - et) by (unfold e'; lia).
  assert (He40 : e' <= -53).
  { unfold e', fexp, emin, emax, prec. lia. }
  set (s := em - et - e').
  set (M := match s with Zpos _ => Z.shiftl (Zpos pm) s | Z0 => Zpos pm | Zneg _ => 0 end).
  assert (Hs : 0 <= s) by (unfold s; lia).
  assert (HM : M = Zpos pm * 2 ^ s) by (apply shift_case; exact Hs).
  set (E := 2 ^ (- et)) in *.
  set (W := 2 ^ (-40 - e')).
  assert (HE : 0 < E) by (apply Z.pow_pos_nonneg; lia).
  assert (HW : 0 < W) by (apply Z.pow_pos_nonneg; lia).
  assert (HMv : M = Z.of_nat m * (E * (W * 2 ^ 40))).
  { rewrite HM, Hpm, <- Z.mul_assoc. f_equal.
    unfold E, W. rewrite <- !Z.pow_add_r by lia. f_equal. unfold s. lia. }
  assert (HEW : 0 < E * W) by (apply Z.mul_pos_pos; assumption).
  assert (Hlow : Zpos pt * (A * W) <= M).
  { rewrite HMv, Hpt.
    replace (Z.of_nat t * E * (A * W)) with (A * Z.of_nat t * (E * W)) by ring.
    replace (Z.of_nat m * (E * (W * 2 ^ 40)))
      with (Z.of_nat m * 2 ^ 40 * (E * W)) by ring.
    apply Z.mul_le_mono_nonneg_r; lia. }
  assert (Hupp : M < Zpos pt * ((A + 1) * W)).
  { rewrite HMv, Hpt.
    replace (Z.of_nat t * E * ((A + 1) * W)) with ((A + 1) * Z.of_nat t * (E * W)) by ring.
    replace (Z.of_nat m * (E * (W * 2 ^ 40)))
      with (Z.of_nat m * 2 ^ 40 * (E * W)) by ring.
    apply Z.mul_lt_mono_pos_r; lia. }
  destruct (Z.div_eucl M (Zpos pt)) as [q r] eqn:Eqr.
  pose proof (div_eucl_div _ _ _ _ Eqr) as Hq.
  assert (HM0 : 0 <= M) by (rewrite HM; apply Z.mul_nonneg_nonneg; [lia|apply Z.pow_nonneg; lia]).
  assert (Hqlo : A * W <= q).
  { rewrite <- Hq. apply Z.div_le_lower_bound; lia. }
  assert (Hqhi : q < (A + 1) * W).
  { rewrite <- Hq. apply Z.div_lt_upper_bound; lia. }
  cbn [xorb].
  assert (Hq0 : 0 <= q).
  { assert (0 <= A * W) by (apply Z.mul_nonneg_nonneg; lia). lia. }
  assert (HA53 : 0 < A + 1 < 2 ^ prec).
  { change (2 ^ prec) with 9007199254740992.
    change (2 ^ 40) with 1099511627776 in HA40. lia. }
  apply binary_round_aux_between;
    [exact Hq0 | exact HA0 | exact HA53
    | unfold emin, emax, prec; lia | unfold emax, prec; lia | lia
    | fold W; lia | intros _; fold W; exact Hqhi].
Qed.

(** The product with 100 of a Number between two multiples of [2^-40]. *)
Lemma mul_100_between d A :
  0 < A -> A <= 2 ^ 40 ->
  between d A (A + 1) (-40) ->
  between (mul d (of_nat 100)) (100 * A) (100 * (A + 1)) (-40).
Proof.
  intros HA0 HA40. rewrite of_nat_100.
  destruct d as [[]|[]| |[] md ed]; cbn [between]; try contradiction.
  intros [He [Hlo Hhi]]. unfold mul, SFmul. cbn [xorb].
  set (W := 2 ^ (-40 - ed)) in *.
  assert (HW : 0 < W) by (apply Z.pow_pos_nonneg; lia).
  assert (Hexp : 2 ^ (-40 - (ed + -46)) = W * 70368744177664).
  { replace (-40 - (ed + -46)) with (-40 - ed + 46) by lia.
    rewrite Z.pow_add_r by lia. reflexivity. }
  change (2 ^ 40) with 1099511627776 in HA40.
  assert (HB : 0 < 100 * (A + 1) < 2 ^ prec).
  { change (2 ^ prec) with 9007199254740992. lia. }
  assert (Hbounds : 100 * A * 2 ^ (-40 - (ed + -46)) <=
                    Zpos (md * 7036874417766400) <=
                    100 * (A + 1) * 2 ^ (-40 - (ed + -46))).
  { rewrite Hexp, Pos2Z.inj_mul. split.
    - replace (100 * A * (W * 70368744177664))
        with (A * W * 7036874417766400) by ring.
      apply Z.mul_le_mono_nonneg_r; lia.
    - replace (100 * (A + 1) * (W * 70368744177664))
        with ((A + 1) * W * 7036874417766400) by ring.
      apply Z.mul_le_mono_nonneg_r; lia. }
  apply binary_round_aux_between;
    [lia | lia | exact HB
    | unfold emin, emax, prec; lia | unfold emax, prec; lia | lia
    | exact Hbounds | intros H; contradiction H; reflexivity].
Qed.

(** [Math.round] of a Number that near the exact percentage is a whole
    number nearest to it. *)
Lemma Math_round_nearest p A m t :
  0 < t < 2 ^ 32 -> 0 <= m ->
  A * t <= m * 2 ^ 40 < (A + 1) * t ->
  between p (100 * A) (100 * (A + 1)) (-40) ->
  - t <= 2 * (Math_round p * t - 100 * m) <= t.
Proof.
  intros [Ht0 Ht] Hm [HA1 HA2].
  destruct p as [[]|[]| |[] mp ep]; cbn [between]; try contradiction.
  intros [He [Hlo Hhi]].
  destruct ep as [|pp|pp]; try lia.
  cbn [Math_round].
  set (P := 2 ^ Zpos pp).
  set (W := 2 ^ (-40 - Zneg pp)) in *.
  assert (HW : 0 < W) by (apply Z.pow_pos_nonneg; lia).
  assert (HP : P = W * 2 ^ 40).
  { unfold P, W. rewrite <- Z.pow_add_r by lia. f_equal. lia. }
  assert (HP0 : 0 < P) by (apply Z.pow_pos_nonneg; lia).
  set (r := (2 * Zpos mp + P) / (2 * P)).
  assert (Hr1 : 2 * P * r <= 2 * Zpos mp + P).
  { unfold r. apply Z.mul_div_le. lia. }
  assert (Hr2 : 2 * Zpos mp + P < 2 * P * (r + 1)).
  { unfold r. replace (r + 1) with (Z.succ r) by lia. unfold r.
    apply Z.mul_succ_div_gt. lia. }
  change (2 ^ 40) with 1099511627776 in *.
  change (2 ^ 32) with 4294967296 in Ht.
  assert (Hsmall : 200 * t * W < P) by (rewrite HP; nia).
  (* the products with [t] *)
  assert (H1 : 2 * P * r * t <= (2 * Zpos mp + P) * t)
    by (apply Z.mul_le_mono_nonneg_r; lia).
  assert (H2 : (2 * Zpos mp + P) * t < 2 * P * (r + 1) * t)
    by (apply Z.mul_lt_mono_pos_r; lia).
  assert (H3 : Zpos mp * t <= 100 * (A + 1) * W * t)
    by (apply Z.mul_le_mono_nonneg_r; lia).
  assert (H4 : 100 * A * W * t <= Zpos mp * t)
    by (apply Z.mul_le_mono_nonneg_r; lia).
  assert (H5 : A * t * (200 * W) <= m * 1099511627776 * (200 * W))
    by (apply Z.mul_le_mono_nonneg_r; lia).
  assert (H6 : m * 1099511627776 * (200 * W) < (A + 1) * t * (200 * W))
    by (apply Z.mul_lt_mono_pos_r; lia).
  split.
  - (* 200 m - 2 r t <= t *)
    destruct (Z_le_gt_dec (2 * (100 * m) - 2 * (r * t)) t) as [H|H]; [lia|exfalso].
    assert (Hc : P * 1 <= P * (2 * (100 * m) - 2 * (r * t) - t))
      by (apply Z.mul_le_mono_nonneg_l; lia).
    assert (HmP : m * 1099511627776 * (200 * W) = 200 * m * P) by (rewrite HP; ring).
    nia.
  - (* 2 r t - 200 m <= t *)
    destruct (Z_le_gt_dec (2 * (r * t) - 2 * (100 * m)) t) as [H|H]; [lia|exfalso].
    assert (Hc : P * 1 <= P * (2 * (r * t) - 2 * (100 * m) - t))
      by (apply Z.mul_le_mono_nonneg_l; lia).
    assert (HmP : m * 1099511627776 * (200 * W) = 200 * m * P) by (rewrite HP; ring).
    nia.
Qed.

(** The percentage of [m] out of [t] is a whole number nearest to
    [100 * m / t]. *)
Lemma percentage_nearest m t :
  (0 < t)%nat -> (m <= t)%nat -> Z.of_nat t < 2 ^ 32 ->
  - Z.of_nat t <= 2 * (percentage m t * Z.of_nat t - 100 * Z.of_nat m) <= Z.of_nat t.
Proof.
  intros Ht Hmt Hlt.
  destruct m as [|m'].
  { rewrite PercentageFacts.percentage_none; [lia|exact Ht|].
    apply Z.lt_trans with (1 := Hlt). reflexivity. }
  set (m := S m') in *.
  assert (Hm : (0 < m)%nat) by (unfold m; lia).
  set (A := Z.of_nat m * 2 ^ 40 / Z.of_nat t).
  assert (HA : A * Z.of_nat t <= Z.of_nat m * 2 ^ 40 < (A + 1) * Z.of_nat t).
  { pose proof (Z.div_mod (Z.of_nat m * 2 ^ 40) (Z.of_nat t)) as Hdiv.
    pose proof (Z.mod_pos_bound (Z.of_nat m * 2 ^ 40) (Z.of_nat t)) as Hmod.
    fold A in Hdiv. lia. }
  pose proof (div_between m t A Hm Hmt Hlt HA) as Hd.
  assert (HA0 : 0 < A).
  { destruct (Z_lt_le_dec 0 A) as [H|H]; [exact H|exfalso].
    change (2 ^ 40) with 1099511627776 in HA.
    change (2 ^ 32) with 4294967296 in Hlt. nia. }
  assert (HA40 : A <= 2 ^ 40).
  { change (2 ^ 40) with 1099511627776 in *. nia. }
  unfold percentage.
  apply (Math_round_nearest _ A); [lia|lia|exact HA|].
  apply mul_100_between; assumption.
Qed.

End RoundingFacts.

(** * The claims *)

Import JSString JobsRoute JobsFacts Samples.

(** C1, as stated, fails: two postings that differ in nothing but their
    [qualification] get different match scores from both endpoints, 100 and
    60 for a user whose one skill is Python. *)
Lemma qualification_changes_score :
  Spec.same_but_qualification (posting (Some "Python")) (posting (Some "Java")) /\
  map matchPercentage
    (jobs_of (get_job false (found (posting (Some "Python"))) (resume_of ["Python"])))
  = [100%Z] /\
  map matchPercentage
    (jobs_of (get_job false (found (posting (Some "Java"))) (resume_of ["Python"])))
  = [60%Z] /\
  map matchPercentage
    (jobs_of (get_jobs no_query (found [posting (Some "Python")]) (resume_of ["Python"])))
  = [100%Z] /\
  map matchPercentage
    (jobs_of (get_jobs no_query (found [posting (Some "Java")]) (resume_of ["Python"])))
  = [60%Z].
Proof.
  split; [repeat split|]. repeat split; vm_compute; reflexivity.
Qed.

(** C1, amended: the match score of a posting depends on the posting through
    its [qualification] alone.  Two postings with the same [qualification]
    get the same score for every user, whatever their other columns
    ([job_function] among them) hold, from the scoring step and from
    [GET /:id]. *)
Theorem score_depends_on_qualification_only :
  forall (userSkills : list string) (a b : JobRow),
    qualification a = qualification b ->
    matchPercentage (withMatchScore userSkills (mapJob a)) =
    matchPercentage (withMatchScore userSkills (mapJob b)) /\
    forall idIsNaN failure resume,
      map matchPercentage
        (jobs_of (get_job idIsNaN {| data := Some a; error := failure |} resume)) =
      map matchPercentage
        (jobs_of (get_job idIsNaN {| data := Some b; error := failure |} resume)).
Proof.
  intros userSkills a b Hq.
  assert (Hs : forall us,
             matchPercentage (withMatchScore us (mapJob a)) =
             matchPercentage (withMatchScore us (mapJob b))).
  { intros us. unfold withMatchScore, dynamicMatch, matchingSkills.
    cbn [mapJob skills matchPercentage]. rewrite Hq. reflexivity. }
  split; [apply Hs|].
  intros idIsNaN failure resume. unfold get_job. cbn [data error].
  destruct idIsNaN; [reflexivity|]. destruct failure; [reflexivity|].
  cbn [jobs_of map]. rewrite Hs. reflexivity.
Qed.

Lemma score_depends_on_qualification_only_witness :
  qualification (posting (Some "Python, SQL")) =
  qualification (other_posting (Some "Python, SQL")) /\
  matchPercentage (withMatchScore ["python"] (mapJob (posting (Some "Python, SQL")))) =
  matchPercentage (withMatchScore ["python"] (mapJob (other_posting (Some "Python, SQL")))).
Proof.
  split; [reflexivity|].
  exact (proj1 (score_depends_on_qualification_only
                  ["python"] (posting (Some "Python, SQL"))
                  (other_posting (Some "Python, SQL")) eq_refl)).
Defined.

(** C2, as stated, fails: a posting without any skill token is reported
    with 60, and no role score and experience score between 0 and 1 make
    the weighted formula give 60 when the skill score is 0. *)
Lemma weighted_formula_misses_the_base_score :
  Spec.tokenizeCsv (job_function bare_posting) = [] /\
  skills (mapJob bare_posting) = [] /\
  (Spec.skillScore ["Python"] (skills (mapJob bare_posting)) == 0)%Q /\
  map matchPercentage
    (jobs_of (get_job false (found bare_posting) (resume_of ["Python"]))) = [60%Z] /\
  forall roleScore experienceScore : Q,
    (0 <= roleScore <= 1)%Q -> (0 <= experienceScore <= 1)%Q ->
    ~ (inject_Z 60 ==
       Spec.finalScorePercent
         (Spec.skillScore ["Python"] (skills (mapJob bare_posting)))
         roleScore experienceScore)%Q.
Proof.
  split; [reflexivity|]. split; [reflexivity|]. split; [reflexivity|].
  split; [reflexivity|].
  intros r e Hr He.
  change (Spec.skillScore ["Python"] (skills (mapJob bare_posting))) with 0%Q.
  unfold Spec.finalScorePercent, Spec.round2, Spec.final.
  set (x := (((0 * (50 # 100) + r * (30 # 100) + e * (20 # 100)) * 100) * 100
             + (1 # 2))%Q).
  assert (Hx : (x <= 5000 + (1 # 2))%Q) by (unfold x; lra).
  apply Qfloor_resp_le in Hx.
  change (Qfloor (5000 + (1 # 2))) with 5000%Z in Hx.
  unfold Qeq. cbn [Qnum Qden inject_Z]. lia.
Qed.

(** C2, amended: the score reported for a job is the greater of the skill
    overlap, [Math.round((matching / total) * 100)] over the tokens of the
    posting's [qualification] (0 when there is none), and the base score 60,
    in [GET /] and in [GET /:id]; a role score and an experience score do
    not exist. *)
Theorem reported_score_is_overlap_or_base :
  forall (resume : option json) (job : Job),
    (forall query selected,
        In job (jobs_of (get_jobs query selected resume)) ->
        exists row,
          In row (rows_of (data selected)) /\
          job = withMatchScore (getUserSkills resume) (mapJob row) /\
          matchPercentage job =
          Z.max (dynamicMatch (getUserSkills resume) (mapJob row)) 60) /\
    (forall idIsNaN selected,
        In job (jobs_of (get_job idIsNaN selected resume)) ->
        exists row,
          data selected = Some row /\
          job = withMatchScore (getUserSkills resume) (mapJob row) /\
          matchPercentage job =
          Z.max (dynamicMatch (getUserSkills resume) (mapJob row)) 60).
Proof.
  intros resume job. split.
  - intros query selected Hin.
    destruct (get_jobs_In _ _ _ _ Hin) as (row & Hrow & ->).
    exists row. repeat split. exact Hrow.
  - intros idIsNaN selected Hin.
    destruct (get_job_In _ _ _ _ Hin) as (row & Hrow & ->).
    exists row. repeat split. exact Hrow.
Qed.

Lemma reported_score_is_overlap_or_base_witness :
  exists row,
    data (found (posting (Some "Python, SQL, Go"))) = Some row /\
    withMatchScore ["python"; "go"] (mapJob (posting (Some "Python, SQL, Go"))) =
    withMatchScore (getUserSkills (resume_of ["python"; "go"])) (mapJob row) /\
    matchPercentage
      (withMatchScore ["python"; "go"] (mapJob (posting (Some "Python, SQL, Go")))) =
    Z.max (dynamicMatch (getUserSkills (resume_of ["python"; "go"])) (mapJob row)) 60.
Proof.
  apply (proj2 (reported_score_is_overlap_or_base
                  (resume_of ["python"; "go"])
                  (withMatchScore ["python"; "go"]
                     (mapJob (posting (Some "Python, SQL, Go")))))
               false (found (posting (Some "Python, SQL, Go")))).
  left. reflexivity.
Defined.

(** C3, as stated, fails: the token "Java" is a substring of the user's
    skill "JavaScript", so the specification counts it as matched and the
    skill score is 1, but the route counts no match and scores 0. *)
Lemma substring_is_not_a_match :
  skills (mapJob (posting (Some "Java"))) = ["Java"] /\
  Spec.token_matches ["JavaScript"] "Java" = true /\
  (Spec.skillScore ["JavaScript"] (skills (mapJob (posting (Some "Java")))) == 1)%Q /\
  matchingSkills ["JavaScript"] (mapJob (posting (Some "Java"))) = [] /\
  dynamicMatch ["JavaScript"] (mapJob (posting (Some "Java"))) = 0%Z.
Proof.
  repeat split; vm_compute; reflexivity.
Qed.

(** C3, amended: for a job with at least one skill token, the skill score is
    [Math.round((matched / total) * 100)], where a token counts as matched
    exactly when it equals some skill of the user once both are lower-cased
    (a substring does not count); [matched] is at most [total] and the score
    lies between 0 and 100, being 0 when no token is matched and 100 when
    every token is. *)
Theorem skill_score_counts_case_insensitive_equals :
  forall (userSkills : list string) (job : Job),
    skills job <> [] ->
    array_length_ok (skills job) ->
    dynamicMatch userSkills job =
    percentage (List.length (matchingSkills userSkills job))
               (List.length (skills job)) /\
    (forall token,
        In token (matchingSkills userSkills job) <->
        In token (skills job) /\
        exists entry, In entry userSkills /\
                      toLowerCase entry = toLowerCase token) /\
    (List.length (matchingSkills userSkills job) <= List.length (skills job))%nat /\
    (0 <= dynamicMatch userSkills job <= 100)%Z /\
    (matchingSkills userSkills job = [] -> dynamicMatch userSkills job = 0%Z) /\
    (matchingSkills userSkills job = skills job ->
     dynamicMatch userSkills job = 100%Z).
Proof.
  intros userSkills job Hne Hlen.
  split; [|split; [|split; [|split; [|split]]]].
  - unfold dynamicMatch. destruct (skills job); [contradiction|reflexivity].
  - intros token. apply matchingSkills_In.
  - apply matchingSkills_length.
  - apply dynamicMatch_range, Hlen.
  - apply dynamicMatch_none, Hlen.
  - apply dynamicMatch_all; assumption.
Qed.

Lemma skill_score_counts_case_insensitive_equals_witness :
  skills (mapJob (posting (Some "Python, Django, SQL, REST API"))) <> [] /\
  array_length_ok (skills (mapJob (posting (Some "Python, Django, SQL, REST API")))) /\
  (0 <= dynamicMatch ["python"; "SQL"; "django"]
          (mapJob (posting (Some "Python, Django, SQL, REST API"))) <= 100)%Z.
Proof.
  assert (Hne : skills (mapJob (posting (Some "Python, Django, SQL, REST API"))) <> [])
    by (vm_compute; discriminate).
  assert (Hlen : array_length_ok
                   (skills (mapJob (posting (Some "Python, Django, SQL, REST API")))))
    by (vm_compute; reflexivity).
  split; [exact Hne|]. split; [exact Hlen|].
  exact (proj1 (proj2 (proj2 (proj2 (skill_score_counts_case_insensitive_equals
                                        ["python"; "SQL"; "django"]
                                        (mapJob (posting (Some "Python, Django, SQL, REST API")))
                                        Hne Hlen))))).
Defined.

(** C4, as stated, fails: a posting whose [job_function] is empty, and so
    has no required-skill token in the sense of the specification, gets the
    skill score 100 when the user has the one skill of its
    [qualification]. *)
Lemma empty_job_function_can_score :
  job_function empty_function_posting = Some "" /\
  Spec.tokenizeCsv (job_function empty_function_posting) = [] /\
  dynamicMatch ["python"] (mapJob empty_function_posting) = 100%Z /\
  map matchPercentage
    (jobs_of (get_job false (found empty_function_posting) (resume_of ["python"])))
  = [100%Z].
Proof.
  repeat split; vm_compute; reflexivity.
Qed.

(** C4, amended: a posting without skill tokens, which in the routes means
    that its [qualification] (not its [job_function]) is null, empty or
    made of separators and white space, gets the skill score 0 for every
    user, and that is a normal result: [GET /:id] answers with the job and
    [GET /] lists it, both with the base score 60. *)
Theorem no_skill_token_scores_zero :
  forall (resume : option json) (row : JobRow),
    (qualification row = None \/ qualification row = Some "" ->
     parseSkillsText (qualification row) = []) /\
    (parseSkillsText (qualification row) = [] ->
     let job := withMatchScore (getUserSkills resume) (mapJob row) in
     dynamicMatch (getUserSkills resume) (mapJob row) = 0%Z /\
     matchPercentage job = 60%Z /\
     get_job false (found row) resume = JobDetail job /\
     forall rows,
       In row rows ->
       In job (jobs_of (get_jobs no_query (found rows) resume))).
Proof.
  intros resume row. split.
  - intros [->| ->]; reflexivity.
  - intros Hno. cbv zeta.
    assert (Hd : dynamicMatch (getUserSkills resume) (mapJob row) = 0%Z).
    { unfold dynamicMatch. cbn [mapJob skills]. rewrite Hno. reflexivity. }
    split; [exact Hd|]. split; [|split].
    + cbn [withMatchScore matchPercentage]. rewrite Hd. reflexivity.
    + reflexivity.
    + intros rows Hin. rewrite get_jobs_jobs. cbn [found error data].
      apply SortFacts.sort_In. rewrite jobsWithMatchScore_rows.
      apply in_map_iff. exists row. split; [reflexivity|].
      apply filter_In. split; [exact Hin|reflexivity].
Qed.

Lemma no_skill_token_scores_zero_witness :
  parseSkillsText (qualification (posting (Some " , / "))) = [] /\
  dynamicMatch (getUserSkills (resume_of ["Python"]))
    (mapJob (posting (Some " , / "))) = 0%Z.
Proof.
  split; [reflexivity|].
  exact (proj1 (proj2 (no_skill_token_scores_zero
                         (resume_of ["Python"]) (posting (Some " , / ")))
                      eq_refl)).
Defined.

(** C5: the jobs that [GET /] returns are sorted by [matchPercentage]
    descending, and jobs with equal scores keep the relative order of their
    rows in the input: the returned jobs of any one score are the kept rows
    of that score, in the order of the rows. *)
Theorem listing_sorted_descending_stable :
  forall (query : Query) (selected : Selected (list JobRow)) (resume : option json),
    let jobs := jobs_of (get_jobs query selected resume) in
    let scored :=
      fun row => withMatchScore (getUserSkills resume) (mapJob row) in
    StronglySorted (fun a b => (matchPercentage a >= matchPercentage b)%Z) jobs /\
    (error selected = None ->
     get_jobs query selected resume = JobList jobs (List.length jobs) /\
     Permutation jobs
       (map scored
            (filter (fun row => kept query (mapJob row)) (rows_of (data selected)))) /\
     forall score : Z,
       filter (fun job => (matchPercentage job =? score)%Z) jobs =
       map scored
           (filter (fun row =>
                      kept query (mapJob row) &&
                      (matchPercentage (scored row) =? score)%Z)
                   (rows_of (data selected)))).
Proof.
  intros query selected resume. cbv zeta.
  split; [apply get_jobs_descending|].
  rewrite get_jobs_jobs.
  unfold get_jobs. destruct (error selected) as [message|].
  - discriminate.
  - rewrite jobsWithMatchScore_rows.
    set (scored := fun row => withMatchScore (getUserSkills resume) (mapJob row)).
    set (unsorted := map scored _).
    intros _; split; [reflexivity|split].
    + apply SortFacts.sort_perm.
    + intros score.
      pose proof (SortFacts.sort_stable byMatchDescending
                    (fun job => (- matchPercentage job)%Z)
                    byMatchDescending_key (- score)%Z unsorted) as Hst.
      assert (Hk : forall l,
                 filter (fun job => (matchPercentage job =? score)%Z) l =
                 filter (JSArray.with_key (fun job => (- matchPercentage job)%Z)
                                            (- score)%Z) l).
      { intros l. apply filter_ext. intros job. unfold JSArray.with_key.
        destruct (Z.eqb_spec (matchPercentage job) score),
          (Z.eqb_spec (- matchPercentage job) (- score)); try reflexivity; lia. }
      rewrite Hk, Hst, <- Hk. unfold unsorted.
      rewrite filter_of_map, filter_twice. reflexivity.
Qed.

Lemma listing_sorted_descending_stable_witness :
  error (found [bare_posting; posting (Some "Python"); other_posting (Some "Python")])
  = None /\
  Permutation
    (jobs_of (get_jobs no_query
                (found [bare_posting; posting (Some "Python");
                        other_posting (Some "Python")])
                (resume_of ["python"])))
    (map (fun row => withMatchScore (getUserSkills (resume_of ["python"])) (mapJob row))
         (filter (fun row => kept no_query (mapJob row))
                 (rows_of (data (found [bare_posting; posting (Some "Python");
                                        other_posting (Some "Python")]))))).
Proof.
  split; [reflexivity|].
  exact (proj1 (proj2 (proj2 (listing_sorted_descending_stable
                                no_query
                                (found [bare_posting; posting (Some "Python");
                                        other_posting (Some "Python")])
                                (resume_of ["python"]))
                             eq_refl))).
Defined.

(** C6, as stated, fails: the scoring step does not round to two
    decimals.  For a posting with three skill tokens of which the
    candidate has two, the exact percentage is 66.666..., which rounded to
    two decimals is 66.67; the routes report 67, rounded to a whole
    percent by [Math.round]. *)
Lemma two_of_three_is_not_two_decimals :
  List.length (skills (mapJob (posting (Some "Python, SQL, Go")))) = 3%nat /\
  List.length (matchingSkills ["go"; "sql"]
                 (mapJob (posting (Some "Python, SQL, Go")))) = 2%nat /\
  matchPercentage
    (withMatchScore ["go"; "sql"] (mapJob (posting (Some "Python, SQL, Go")))) = 67%Z /\
  (Spec.round2 ((2 # 3) * 100) == 6667 # 100)%Q /\
  ~ (inject_Z
       (matchPercentage
          (withMatchScore ["go"; "sql"] (mapJob (posting (Some "Python, SQL, Go")))))
     == Spec.round2 ((2 # 3) * 100))%Q.
Proof.
  split; [reflexivity|]. split; [reflexivity|].
  split; [vm_compute; reflexivity|]. split; [reflexivity|].
  assert (Hp : matchPercentage
                 (withMatchScore ["go"; "sql"]
                    (mapJob (posting (Some "Python, SQL, Go")))) = 67%Z)
    by (vm_compute; reflexivity).
  rewrite Hp. intros H. vm_compute in H. discriminate H.
Qed.

(** C6, amended: the percentage that the scoring step reports for a posting
    is a whole number between 60 and 100, hence in [0, 100]: it is the
    greater of 60 and the skill score, and the skill score is the exact
    percentage [100 * matched / total] rounded to a whole number, that is a
    whole number in [0, 100] at a distance of at most 1/2 from it (written
    without fractions: [2 * |score * total - 100 * matched| <= total]); for
    a posting without skill tokens the skill score is 0.  (The bound on the
    number of skill tokens is the bound on the length of a JavaScript
    array.) *)
Theorem match_percentage_is_whole_percent :
  forall (userSkills : list string) (row : JobRow),
    array_length_ok (skills (mapJob row)) ->
    let job := mapJob row in
    let matched := Z.of_nat (List.length (matchingSkills userSkills job)) in
    let total := Z.of_nat (List.length (skills job)) in
    let score := dynamicMatch userSkills job in
    let percent := matchPercentage (withMatchScore userSkills job) in
    percent = Z.max score 60 /\
    (60 <= percent <= 100)%Z /\
    (0 <= percent <= 100)%Z /\
    (0 <= score <= 100)%Z /\
    (0 <= matched <= total)%Z /\
    (total = 0%Z -> score = 0%Z /\ percent = 60%Z) /\
    (Z.abs (2 * (score * total - 100 * matched)) <= total)%Z /\
    (matched = total -> (0 < total)%Z -> percent = 100%Z) /\
    ((2 * (100 * matched) < 119 * total)%Z -> percent = 60%Z).
Proof.
  intros userSkills row Hlen job matched total score percent.
  pose proof (dynamicMatch_range userSkills job Hlen) as Hd. fold score in Hd.
  assert (Hp : percent = Z.max score 60) by reflexivity.
  assert (Hm : (0 <= matched <= total)%Z).
  { subst matched total. pose proof (matchingSkills_length userSkills job). lia. }
  assert (Hnear : (Z.abs (2 * (score * total - 100 * matched)) <= total)%Z).
  { subst score. unfold dynamicMatch.
    destruct (Nat.ltb_spec 0 (List.length (skills job))) as [Hpos|Hz].
    - pose proof (RoundingFacts.percentage_nearest
                    (List.length (matchingSkills userSkills job))
                    (List.length (skills job)) Hpos
                    (matchingSkills_length userSkills job) Hlen) as Hn.
      fold matched total in Hn. lia.
    - assert (total = 0%Z) by (subst total; lia). lia. }
  split; [exact Hp|]. split; [lia|]. split; [lia|]. split; [exact Hd|].
  split; [exact Hm|]. split; [|split; [exact Hnear|split]].
  - intros Hz. assert (Hs : score = 0%Z).
    { subst score. unfold dynamicMatch.
      destruct (Nat.ltb_spec 0 (List.length (skills job))) as [Hpos|_];
        [subst total; lia|reflexivity]. }
    split; [exact Hs|]. lia.
  - intros Hall Hpos. assert (score = 100%Z) by nia. lia.
  - intros Hlow. assert (score <= 60)%Z by nia. lia.
Qed.

Lemma match_percentage_is_whole_percent_witness :
  array_length_ok (skills (mapJob (posting (Some "Python, SQL, Go")))) /\
  (60 <= matchPercentage
           (withMatchScore ["go"; "sql"] (mapJob (posting (Some "Python, SQL, Go"))))
      <= 100)%Z.
Proof.
  assert (Hlen : array_length_ok (skills (mapJob (posting (Some "Python, SQL, Go")))))
    by (vm_compute; reflexivity).
  split; [exact Hlen|].
  exact (proj1 (proj2 (match_percentage_is_whole_percent
                         ["go"; "sql"] (posting (Some "Python, SQL, Go")) Hlen))).
Defined.

(** C7, as stated, fails: [parseSkillsText] does not split on commas alone;
    it cuts "C/C++" in two at the slash, where the comma tokenization of
    the specification keeps it whole. *)
Lemma slash_splits_a_skill :
  parseSkillsText (Some "C/C++") = ["C"; "C++"] /\
  Spec.tokenizeCsv (Some "C/C++") = ["C/C++"] /\
  parseSkillsText (Some "C/C++") <> Spec.tokenizeCsv (Some "C/C++").
Proof.
  split; [reflexivity|]. split; [reflexivity|]. discriminate.
Qed.

(** C7, amended: [parseSkillsText] returns the trimmed, non-empty tokens
    obtained by splitting the input at every comma, slash and vertical bar:
    the pieces contain no separator and, put back around the separators of
    the input, give the input; a token is a piece without the white space
    around it, and every token is non-empty, trimmed and free of
    separators.  On an input with no slash and no vertical bar that is the
    comma tokenization of the specification.  A null or empty input gives
    the empty sequence. *)
Theorem parseSkillsText_tokens :
  forall value : option string,
    (value = None \/ value = Some "" -> parseSkillsText value = []) /\
    (forall s,
        value = Some s ->
        let pieces := split is_skill_separator s in
        rejoin pieces (separators is_skill_separator s) = s /\
        List.length pieces = S (List.length (separators is_skill_separator s)) /\
        Forall (free_of is_skill_separator) pieces /\
        Forall (fun piece =>
                  exists l r, piece = l ++ trim piece ++ r /\
                              all_whitespace l /\ all_whitespace r)
               pieces /\
        parseSkillsText value = filter truthy (map trim pieces) /\
        (Forall (fun c => c <> "/"%char /\ c <> "|"%char) (units s) ->
         parseSkillsText value = Spec.tokenizeCsv value)) /\
    Forall (fun token =>
              token <> "" /\ trim token = token /\ starts_clean token /\
              free_of is_skill_separator token)
           (parseSkillsText value).
Proof.
  intros value.
  assert (Hparse : forall s,
             parseSkillsText (Some s) =
             filter truthy (map trim (split is_skill_separator s))).
  { intros s. unfold parseSkillsText. destruct (truthy s) eqn:Et; [reflexivity|].
    apply negb_false_iff, String.eqb_eq in Et. subst s. reflexivity. }
  split; [|split].
  - intros [->| ->]; reflexivity.
  - intros s ->. cbv zeta.
    split; [apply StringFacts.split_rejoin|].
    split; [apply StringFacts.split_length|].
    split; [apply StringFacts.split_free|].
    split; [apply Forall_forall; intros piece _; apply StringFacts.trim_decompose|].
    split; [apply Hparse|].
    intros Hs. rewrite Hparse. unfold Spec.tokenizeCsv.
    rewrite (StringFacts.split_ext is_skill_separator (fun c => (c =? ",")%char));
      [reflexivity|].
    apply Forall_impl with (2 := Hs). intros c [Hslash Hbar].
    unfold is_skill_separator.
    destruct (Ascii.eqb_spec c "/"); [contradiction|].
    destruct (Ascii.eqb_spec c "|"); [contradiction|].
    rewrite !orb_false_r. reflexivity.
  - destruct value as [s|]; [|constructor]. rewrite Hparse.
    apply Forall_forall. intros token Hin.
    apply filter_In in Hin. destruct Hin as [Hin Ht].
    apply in_map_iff in Hin. destruct Hin as (piece & <- & Hpiece).
    split; [apply StringFacts.truthy_spec, Ht|].
    split; [apply StringFacts.trim_idempotent|].
    split; [apply StringFacts.trimEnd_clean, StringFacts.trimStart_clean|].
    apply StringFacts.trim_free.
    pose proof (StringFacts.split_free is_skill_separator s) as Hfree.
    rewrite Forall_forall in Hfree. apply Hfree, Hpiece.
Qed.

Lemma parseSkillsText_tokens_witness :
  Forall (fun c => c <> "/"%char /\ c <> "|"%char)
         (units " Python , SQL,, Django ") /\
  parseSkillsText (Some " Python , SQL,, Django ") = ["Python"; "SQL"; "Django"] /\
  parseSkillsText (Some " Python , SQL,, Django ") =
  Spec.tokenizeCsv (Some " Python , SQL,, Django ").
Proof.
  assert (Hs : Forall (fun c => c <> "/"%char /\ c <> "|"%char)
                      (units " Python , SQL,, Django "))
    by (repeat constructor; discriminate).
  split; [exact Hs|]. split; [reflexivity|].
  exact (proj2 (proj2 (proj2 (proj2 (proj2
           (proj1 (proj2 (parseSkillsText_tokens (Some " Python , SQL,, Django ")))
                  " Python , SQL,, Django " eq_refl))))) Hs).
Defined.

(** C8: every job that [GET /] and [GET /:id] return carries a
    [matchPercentage] of at least 60, whatever the skills of the user:
    [mapJob] gives every job the base 60 and the reported value is the
    maximum of the skill overlap and that base. *)
Theorem match_percentage_at_least_base :
  (forall row, matchPercentage (mapJob row) = 60%Z) /\
  (forall userSkills job,
      matchPercentage (withMatchScore userSkills job) =
      Z.max (dynamicMatch userSkills job) (matchPercentage job)) /\
  (forall query selected resume,
      Forall (fun job => (60 <= matchPercentage job)%Z)
             (jobs_of (get_jobs query selected resume))) /\
  (forall idIsNaN selected resume,
      Forall (fun job => (60 <= matchPercentage job)%Z)
             (jobs_of (get_job idIsNaN selected resume))).
Proof.
  assert (Hbase : forall userSkills row,
             (60 <= matchPercentage (withMatchScore userSkills (mapJob row)))%Z).
  { intros userSkills row.
    apply (withMatchScore_base userSkills (mapJob row)). }
  split; [reflexivity|]. split; [reflexivity|]. split.
  - intros query selected resume. apply Forall_forall. intros job Hin.
    destruct (get_jobs_In _ _ _ _ Hin) as (row & _ & ->). apply Hbase.
  - intros idIsNaN selected resume. apply Forall_forall. intros job Hin.
    destruct (get_job_In _ _ _ _ Hin) as (row & _ & ->). apply Hbase.
Qed.


(** C9: the skill-gap analysis is returned sorted by [overallMatch]
    ascending, lowest match first, by the route over the [jobs] table and by
    the route over the in-memory database, each analysis list being a
    rearrangement of the analyses of the jobs; the job listing is sorted the
    other way, by [matchPercentage] descending. *)
Theorem skill_gap_sorted_ascending :
  (forall resume selected,
      SkillGapRoute.ascending
        (SkillGapRoute.analysis_of (SkillGapRoute.get_skill_gap resume selected))) /\
  (forall resume rows,
      Permutation
        (SkillGapRoute.analysis_of (SkillGapRoute.get_skill_gap resume (found rows)))
        (map (fun job =>
                SkillGapRoute.analyse
                  (or_else (SkillGapRoute.row_job_title job) "Untitled Role")
                  (or_else (SkillGapRoute.row_company job) "Unknown Company")
                  (parseSkillsText (SkillGapRoute.row_qualification job))
                  (map toLowerCase (SkillGapRoute.getUserSkills resume)))
             rows)) /\
  (forall profile jobs,
      SkillGapRoute.ascending
        (SkillGapRoute.analysis_of (SkillGapRoute.get_skill_gap_db profile jobs)) /\
      List.length
        (SkillGapRoute.analysis_of (SkillGapRoute.get_skill_gap_db profile jobs)) =
      List.length jobs /\
      Permutation
        (SkillGapRoute.analysis_of (SkillGapRoute.get_skill_gap_db profile jobs))
        (map (fun job =>
                SkillGapRoute.analyse (title job) (job_company job) (skills job)
                  match profile with
                  | Some p => map toLowerCase (SkillGapRoute.profile_skills p)
                  | None => []
                  end)
             jobs)) /\
  (forall query selected resume,
      StronglySorted (fun a b => (matchPercentage a >= matchPercentage b)%Z)
                     (jobs_of (get_jobs query selected resume))).
Proof.
  split; [|split; [|split]].
  - intros resume selected. unfold SkillGapRoute.get_skill_gap.
    destruct (error selected); cbn [SkillGapRoute.analysis_of].
    + constructor.
    + apply SkillGapFacts.sort_ascending.
  - intros resume rows. unfold SkillGapRoute.get_skill_gap, found.
    cbn [error data SkillGapRoute.analysis_of]. apply SortFacts.sort_perm.
  - intros profile jobs. unfold SkillGapRoute.get_skill_gap_db.
    cbn [SkillGapRoute.analysis_of]. split; [|split].
    + apply SkillGapFacts.sort_ascending.
    + unfold SkillGapRoute.jobAnalysis_db.
      rewrite SortFacts.sort_length, length_map. reflexivity.
    + unfold SkillGapRoute.jobAnalysis_db. apply SortFacts.sort_perm.
  - apply get_jobs_descending.
Qed.



(** * Further facts on the jobs routes *)

Module ListingFacts.

Import JSArray JSString JobsRoute JobsFacts.
#[local] Open Scope Z_scope.

Lemma ordered_filter {A} (key : A -> Z) (f : A -> bool) l :
  ordered key l -> ordered key (filter f l).
Proof.
  unfold ordered. induction 1 as [|x l Hs IH Hx]; cbn [filter]; [constructor|].
  destruct (f x); [|exact IH]. constructor; [exact IH|].
  rewrite Forall_forall in *. intros y Hy. apply Hx.
  apply filter_In in Hy. apply Hy.
Qed.

Lemma filter_swap {A} (f g : A -> bool) l :
  filter f (filter g l) = filter g (filter f l).
Proof.
  rewrite !filter_twice. apply filter_ext. intros x. apply andb_comm.
Qed.

(** Sorting and filtering commute: a stable sort keeps the order of the
    elements that the filter leaves. *)
Lemma sort_filter {A} (comparefn : A -> A -> Z) (key : A -> Z) (f : A -> bool) l :
  (forall a b, comparefn a b <= 0 <-> key a <= key b) ->
  filter f (sort comparefn l) = sort comparefn (filter f l).
Proof.
  intros Hkey. apply (SortFacts.sort_unique comparefn key Hkey).
  - apply ordered_filter, (SortFacts.sort_ordered comparefn key Hkey).
  - intros k. rewrite filter_swap, (SortFacts.sort_stable comparefn key Hkey).
    apply filter_swap.
Qed.

Lemma kept_withMatchScore query userSkills job :
  kept query (withMatchScore userSkills job) = kept query job.
Proof. reflexivity. Qed.

Lemma toLowerCase_empty s : toLowerCase s = ""%string <-> s = ""%string.
Proof. destruct s; cbn; split; intros H; try reflexivity; discriminate. Qed.

Lemma given_lower a b :
  toLowerCase a = toLowerCase b ->
  option_map toLowerCase (given (Some a)) = option_map toLowerCase (given (Some b)).
Proof.
  intros H. unfold given, truthy.
  destruct (String.eqb_spec a ""), (String.eqb_spec b ""); cbn [negb option_map];
    subst; try reflexivity.
  - symmetry in H. apply (proj1 (toLowerCase_empty b)) in H. contradiction.
  - apply (proj1 (toLowerCase_empty a)) in H. contradiction.
  - rewrite H. reflexivity.
Qed.

Lemma or_else_nonempty v d : d <> ""%string -> or_else v d <> ""%string.
Proof.
  intros Hd. unfold or_else. destruct v as [s|]; [|exact Hd].
  destruct (truthy s) eqn:Et; [|exact Hd]. apply StringFacts.truthy_spec, Et.
Qed.

Lemma of_Z_inj a b : JSString.of_Z a = JSString.of_Z b -> a = b.
Proof.
  unfold JSString.of_Z. intros H.
  assert (Hn : forall z, Z.to_int z <> Decimal.Pos Decimal.Nil /\
                         Z.to_int z <> Decimal.Neg Decimal.Nil).
  { intros [|p|p]; cbn; split; try discriminate; intros [= E];
      apply (DecimalPos.Unsigned.to_uint_nonnil p E). }
  apply DecimalZ.to_int_inj.
  assert (E : Some (Z.to_int a) = Some (Z.to_int b)).
  { rewrite <- (NilZero.isi (Z.to_int a)), <- (NilZero.isi (Z.to_int b)), H;
      try apply Hn. reflexivity. }
  injection E as E. exact E.
Qed.

Lemma recommendations_of_app recs more userId id :
  recommendations_of (recs ++ more) userId id =
  (recommendations_of recs userId id ++ recommendations_of more userId id)%list.
Proof. apply filter_app. Qed.

Lemma is_whitespace_lower c : is_whitespace (lower_char c) = is_whitespace c.
Proof. destruct c as [[] [] [] [] [] [] [] []]; reflexivity. Qed.

Lemma comma_lower c : (lower_char c =? ",")%char = (c =? ",")%char.
Proof. destruct c as [[] [] [] [] [] [] [] []]; reflexivity. Qed.

Lemma split_lower sep s :
  (forall c, sep (lower_char c) = sep c) ->
  split sep (toLowerCase s) = map toLowerCase (split sep s).
Proof.
  intros Hsep. induction s as [|c s IH]; [reflexivity|].
  cbn [toLowerCase split]. rewrite Hsep, IH.
  destruct (sep c); [reflexivity|].
  destruct (split sep s); reflexivity.
Qed.

Lemma trimStart_lower s : trimStart (toLowerCase s) = toLowerCase (trimStart s).
Proof.
  induction s as [|c s IH]; [reflexivity|].
  cbn [toLowerCase trimStart]. rewrite is_whitespace_lower.
  destruct (is_whitespace c); [exact IH|reflexivity].
Qed.

Lemma trimEnd_lower s : trimEnd (toLowerCase s) = toLowerCase (trimEnd s).
Proof.
  induction s as [|c s IH]; [reflexivity|].
  cbn [toLowerCase trimEnd]. rewrite IH, is_whitespace_lower.
  destruct (trimEnd s); [destruct (is_whitespace c)|]; reflexivity.
Qed.

Lemma trim_lower s : trim (toLowerCase s) = toLowerCase (trim s).
Proof. unfold trim. rewrite trimStart_lower, trimEnd_lower. reflexivity. Qed.

(** The skill list of the [skills] parameter is that of its lower-cased
    value. *)
Lemma skillList_lower s :
  map (fun skill => toLowerCase (trim skill)) (split (fun c => (c =? ",")%char) s) =
  map trim (split (fun c => (c =? ",")%char) (toLowerCase s)).
Proof.
  rewrite split_lower by apply comma_lower. rewrite map_map.
  apply map_ext. intros p. symmetry. apply trim_lower.
Qed.

Lemma same_ignoring_case_given a b :
  same_ignoring_case a b ->
  option_map toLowerCase (given a) = option_map toLowerCase (given b).
Proof.
  unfold same_ignoring_case. destruct a as [a|], b as [b|]; cbn [option_map];
    intros H; try discriminate; [|reflexivity].
  injection H as H. apply given_lower, H.
Qed.

Lemma kept_ignores_case q1 q2 job :
  same_ignoring_case (q_search q1) (q_search q2) ->
  same_ignoring_case (q_type q1) (q_type q2) ->
  same_ignoring_case (q_skills q1) (q_skills q2) ->
  kept q1 job = kept q2 job.
Proof.
  intros Hs Ht Hk. unfold kept.
  apply same_ignoring_case_given in Hs, Ht, Hk.
  f_equal; [f_equal|].
  - destruct (given (q_search q1)), (given (q_search q2)); cbn [option_map] in Hs;
      try discriminate; [|reflexivity]. injection Hs as ->. reflexivity.
  - destruct (given (q_type q1)), (given (q_type q2)); cbn [option_map] in Ht;
      try discriminate; [|reflexivity]. injection Ht as ->. reflexivity.
  - destruct (given (q_skills q1)), (given (q_skills q2)); cbn [option_map] in Hk;
      try discriminate; [|reflexivity]. injection Hk as Hk.
    rewrite !skillList_lower, Hk. reflexivity.
Qed.

Lemma append_nonempty a b : b <> ""%string -> (a ++ b)%string <> ""%string.
Proof.
  intros Hb. destruct a; cbn; [exact Hb|discriminate].
Qed.

End ListingFacts.

(** * Further properties of the routes *)

(** X1: [mapJob] leaves no display field of a job empty: a column that
    holds text is shown as it is (the vacancies as "<vacancies> openings"),
    and a null or empty column is replaced by its default text: "Untitled
    Role" for the title, "Unknown Company" for the company, "Not specified"
    for the location and "Open" for the type; the description is the
    qualification or the experience when only one of them holds text, and
    "See full job details" when neither does.  The salary is always "Not
    specified", the posting date "Recently" and the base score 60, and the
    skills are the tokens of the qualification.  For ids that are safe
    integers, different ids give different id strings. *)
Theorem mapJob_fills_every_field :
  forall row : JobRow,
    let absent := fun column : option string => column = None \/ column = Some "" in
    (title (mapJob row) <> "" /\ job_company (mapJob row) <> "" /\
     location (mapJob row) <> "" /\ job_type (mapJob row) <> "" /\
     description (mapJob row) <> "") /\
    (forall text, text <> "" ->
       (job_title row = Some text -> title (mapJob row) = text) /\
       (company row = Some text -> job_company (mapJob row) = text) /\
       (job_function row = Some text -> location (mapJob row) = text) /\
       (vacancies row = Some text ->
        job_type (mapJob row) = (text ++ " openings")%string) /\
       (qualification row = Some text -> absent (experience row) ->
        description (mapJob row) = text) /\
       (experience row = Some text -> absent (qualification row) ->
        description (mapJob row) = text)) /\
    (absent (job_title row) -> title (mapJob row) = "Untitled Role") /\
    (absent (company row) -> job_company (mapJob row) = "Unknown Company") /\
    (absent (job_function row) -> location (mapJob row) = "Not specified") /\
    (absent (vacancies row) -> job_type (mapJob row) = "Open") /\
    (absent (qualification row) -> absent (experience row) ->
     description (mapJob row) = "See full job details") /\
    (salary (mapJob row) = "Not specified" /\
     postedDate (mapJob row) = "Recently" /\
     matchPercentage (mapJob row) = 60%Z /\
     skills (mapJob row) = parseSkillsText (qualification row)) /\
    (forall other : JobRow,
        safe_integer (id row) -> safe_integer (id other) ->
        job_id (mapJob row) = job_id (mapJob other) -> id row = id other).
Proof.
  intros row absent.
  split; [|split; [|split; [|split; [|split; [|split; [|split; [|split]]]]]]].
  - cbn [mapJob title job_company location job_type description].
    repeat split; try (apply ListingFacts.or_else_nonempty; discriminate).
    + destruct (vacancies row) as [v|]; [|discriminate].
      destruct (truthy v); [|discriminate].
      apply ListingFacts.append_nonempty. discriminate.
    + destruct (truthy (String.concat bullet
                          (filter_truthy [qualification row; experience row])))
        eqn:Ed; [|discriminate].
      apply StringFacts.truthy_spec, Ed.
  - intros text Htext. apply StringFacts.truthy_spec in Htext.
    cbn [mapJob title job_company location job_type description].
    split; [|split; [|split; [|split; [|split]]]].
    + intros ->. unfold or_else. rewrite Htext. reflexivity.
    + intros ->. unfold or_else. rewrite Htext. reflexivity.
    + intros ->. unfold or_else. rewrite Htext. reflexivity.
    + intros ->. rewrite Htext. reflexivity.
    + intros -> [->| ->]; cbn [filter_truthy truthy String.eqb negb];
        rewrite Htext; cbn [String.concat]; rewrite Htext; reflexivity.
    + intros -> [->| ->]; cbn [filter_truthy truthy String.eqb negb];
        rewrite Htext; cbn [String.concat]; rewrite Htext; reflexivity.
  - intros [H|H]; cbn [mapJob title]; rewrite H; reflexivity.
  - intros [H|H]; cbn [mapJob job_company]; rewrite H; reflexivity.
  - intros [H|H]; cbn [mapJob location]; rewrite H; reflexivity.
  - intros [H|H]; cbn [mapJob job_type]; rewrite H; reflexivity.
  - intros [Hq|Hq] [He|He]; cbn [mapJob description]; rewrite Hq, He; reflexivity.
  - repeat split.
  - intros other _ _ H. cbn [mapJob job_id] in H. apply ListingFacts.of_Z_inj, H.
Qed.

Lemma mapJob_fills_every_field_witness :
  job_company (mapJob bare_posting) = "Unknown Company" /\
  location (mapJob bare_posting) = "Not specified" /\
  description (mapJob bare_posting) = "See full job details".
Proof.
  assert (Hc : company bare_posting = None \/ company bare_posting = Some "")
    by (left; reflexivity).
  assert (Hf : job_function bare_posting = None \/ job_function bare_posting = Some "")
    by (left; reflexivity).
  assert (Hq : qualification bare_posting = None \/ qualification bare_posting = Some "")
    by (left; reflexivity).
  assert (He : experience bare_posting = None \/ experience bare_posting = Some "")
    by (left; reflexivity).
  pose proof (mapJob_fills_every_field bare_posting) as H.
  cbv zeta in H.
  destruct H as (_ & _ & _ & Hcompany & Hlocation & _ & Hdescription & _).
  split; [exact (Hcompany Hc)|]. split; [exact (Hlocation Hf)|].
  exact (Hdescription Hq He).
Defined.

(** X2: the three query parameters of [GET /] only narrow the listing: the
    jobs returned for a query are the jobs returned without a query that
    pass the filters, with the same scores and in the same order.  Without
    a query the listing is a rearrangement of the scored rows of the table:
    every row is listed once; the response carries the jobs and their
    number.  An error of the query is answered with 500 and its message,
    whatever the parameters, and no job. *)
Theorem listing_query_narrows :
  forall (query : Query) (selected : Selected (list JobRow)) (resume : option json),
    jobs_of (get_jobs query selected resume) =
    filter (kept query) (jobs_of (get_jobs no_query selected resume)) /\
    (List.length (jobs_of (get_jobs query selected resume)) <=
     List.length (jobs_of (get_jobs no_query selected resume)))%nat /\
    (error selected = None ->
     Permutation
       (jobs_of (get_jobs no_query selected resume))
       (map (fun row => withMatchScore (getUserSkills resume) (mapJob row))
            (rows_of (data selected))) /\
     List.length (jobs_of (get_jobs no_query selected resume)) =
       List.length (rows_of (data selected)) /\
     get_jobs query selected resume =
       JobList (jobs_of (get_jobs query selected resume))
               (List.length (jobs_of (get_jobs query selected resume)))) /\
    (forall message,
        error selected = Some message ->
        get_jobs query selected resume = Failure 500 message /\
        jobs_of (get_jobs query selected resume) = []).
Proof.
  intros query selected resume.
  assert (Hnone : forall job, kept no_query job = true) by reflexivity.
  assert (Hall : jobs_of (get_jobs no_query selected resume) =
                 match error selected with
                 | Some _ => []
                 | None =>
                     JSArray.sort byMatchDescending
                       (map (fun row => withMatchScore (getUserSkills resume) (mapJob row))
                            (rows_of (data selected)))
                 end).
  { rewrite get_jobs_jobs. destruct (error selected); [reflexivity|].
    rewrite jobsWithMatchScore_rows.
    rewrite (filter_ext (fun row => kept no_query (mapJob row)) (fun _ => true))
      by (intros row; apply Hnone).
    rewrite filter_all. reflexivity. }
  assert (Heq : jobs_of (get_jobs query selected resume) =
                filter (kept query) (jobs_of (get_jobs no_query selected resume))).
  { rewrite Hall, get_jobs_jobs. destruct (error selected); [reflexivity|].
    rewrite jobsWithMatchScore_rows.
    rewrite (ListingFacts.sort_filter byMatchDescending
               (fun job => (- matchPercentage job)%Z) (kept query))
      by apply byMatchDescending_key.
    rewrite filter_of_map. reflexivity. }
  split; [exact Heq|]. split; [|split].
  - rewrite Heq. apply filter_length_le.
  - intros He. rewrite Hall, He. split; [|split].
    + apply SortFacts.sort_perm.
    + rewrite SortFacts.sort_length, length_map. reflexivity.
    + unfold get_jobs. rewrite He. reflexivity.
  - intros message He. unfold get_jobs. rewrite He. split; reflexivity.
Qed.

(** X3: the search, type and skills parameters of [GET /] are compared
    case-insensitively: two queries whose parameters differ in letter case
    only get the same response. *)
Theorem listing_query_ignores_case :
  forall (q1 q2 : Query) (selected : Selected (list JobRow)) (resume : option json),
    same_ignoring_case (q_search q1) (q_search q2) ->
    same_ignoring_case (q_type q1) (q_type q2) ->
    same_ignoring_case (q_skills q1) (q_skills q2) ->
    get_jobs q1 selected resume = get_jobs q2 selected resume.
Proof.
  intros q1 q2 selected resume Hs Ht Hk. unfold get_jobs.
  destruct (error selected); [reflexivity|].
  rewrite !jobsWithMatchScore_rows.
  rewrite (filter_ext (fun row => kept q1 (mapJob row))
                      (fun row => kept q2 (mapJob row)))
    by (intros row; apply ListingFacts.kept_ignores_case; assumption).
  reflexivity.
Qed.

Lemma listing_query_ignores_case_witness :
  get_jobs {| q_search := Some "PYTHON"; q_type := None; q_skills := Some "Sql, GO" |}
           (found [posting (Some "Python, SQL"); other_posting (Some "Go")])
           (resume_of ["python"]) =
  get_jobs {| q_search := Some "python"; q_type := None; q_skills := Some "sql, go" |}
           (found [posting (Some "Python, SQL"); other_posting (Some "Go")])
           (resume_of ["python"]).
Proof.
  apply listing_query_ignores_case; reflexivity.
Defined.

(** X4: [POST /:id/apply] records an application once: for an id that is a
    safe integer, when the table holds at most one recommendation of the
    user for the job and the insert is accepted, the answer carries the id
    in decimal digits and the table holds exactly one recommendation of the
    user for the job afterwards, with the match score of an existing row
    untouched and 0 for a new one; a second application changes nothing, and
    the recommendations of other users and jobs are never touched.  A
    refused insert and an id that is NaN leave the table as it was. *)
Theorem apply_records_once :
  forall (recommendations : list Recommendation) (userId : string) (id : Z)
         (new_id now : Z),
    safe_integer id ->
    (List.length (recommendations_of recommendations userId id) <= 1)%nat ->
    let after :=
      snd (post_apply recommendations userId (Some id) None new_id now) in
    fst (post_apply recommendations userId (Some id) None new_id now) =
      Applied (JSString.of_Z id) now /\
    (exists row,
        recommendations_of after userId id = [row] /\
        (recommendations_of recommendations userId id = [row] \/
         (recommendations_of recommendations userId id = [] /\
          match_score row = 0%Z /\ recommendation_id row = new_id))) /\
    (forall insertError new_id' now',
        post_apply after userId (Some id) insertError new_id' now' =
        (Applied (JSString.of_Z id) now', after)) /\
    (forall otherUser otherJob,
        (otherUser <> userId \/ otherJob <> id) ->
        recommendations_of after otherUser otherJob =
        recommendations_of recommendations otherUser otherJob) /\
    (forall message,
        post_apply recommendations userId (Some id) (Some message) new_id now =
        (ApplyFailure 500 message, recommendations) \/
        post_apply recommendations userId (Some id) (Some message) new_id now =
        (Applied (JSString.of_Z id) now, recommendations)) /\
    (forall insertError,
        post_apply recommendations userId None insertError new_id now =
        (ApplyFailure 400 "Invalid job id", recommendations)).
Proof.
  intros recs userId id new_id now _ Hle. cbv zeta.
  unfold post_apply.
  destruct (recommendations_of recs userId id) as [|row [|row' rest]] eqn:Er;
    cbn [List.length] in Hle; [| |lia]; cbn [maybeSingle fst snd].
  - assert (Hnew : recommendations_of
                     (recs ++ [ {| recommendation_id := new_id; rec_user_id := userId;
                                   rec_job_id := id; match_score := 0 |} ]) userId id =
                   [ {| recommendation_id := new_id; rec_user_id := userId;
                        rec_job_id := id; match_score := 0 |} ]).
    { rewrite ListingFacts.recommendations_of_app, Er.
      unfold recommendations_of. cbn [filter rec_user_id rec_job_id app].
      rewrite String.eqb_refl, Z.eqb_refl. reflexivity. }
    split; [reflexivity|]. split; [|split; [|split; [|split]]].
    + eexists. split; [exact Hnew|]. right. repeat split.
    + intros insertError new_id' now'. rewrite Hnew. reflexivity.
    + intros otherUser otherJob Hother.
      rewrite ListingFacts.recommendations_of_app.
      unfold recommendations_of at 2. cbn [filter rec_user_id rec_job_id].
      destruct (String.eqb_spec userId otherUser) as [->|Hu];
        [|cbn [andb]; apply app_nil_r].
      destruct (Z.eqb_spec id otherJob) as [->|Hj];
        [|cbn [andb]; apply app_nil_r].
      destruct Hother as [H|H]; contradiction.
    + intros message. left. reflexivity.
    + reflexivity.
  - split; [reflexivity|]. split; [|split; [|split; [|split]]].
    + exists row. split; [exact Er|]. left. reflexivity.
    + intros insertError new_id' now'. rewrite Er. reflexivity.
    + reflexivity.
    + intros message. right. reflexivity.
    + reflexivity.
Qed.

Lemma apply_records_once_witness :
  safe_integer 7 /\
  (List.length (recommendations_of [] "u1" 7) <= 1)%nat /\
  fst (post_apply [] "u1" (Some 7%Z) None 1%Z 100%Z) = Applied "7" 100%Z.
Proof.
  assert (Hs : safe_integer 7) by (split; reflexivity).
  assert (H : (List.length (recommendations_of [] "u1" 7) <= 1)%nat)
    by (vm_compute; repeat constructor).
  split; [exact Hs|]. split; [exact H|].
  exact (proj1 (apply_records_once [] "u1" 7%Z 1%Z 100%Z Hs H)).
Defined.

(** * Facts on the analysis of the skill-gap routes *)

Module GapFacts.

Import JSString SkillGapRoute.
#[local] Open Scope nat_scope.

Lemma lower_char_idempotent c : lower_char (lower_char c) = lower_char c.
Proof. destruct c as [[] [] [] [] [] [] [] []]; reflexivity. Qed.

Lemma toLowerCase_idempotent s : toLowerCase (toLowerCase s) = toLowerCase s.
Proof.
  induction s as [|c s IH]; [reflexivity|].
  cbn [toLowerCase]. rewrite lower_char_idempotent, IH. reflexivity.
Qed.

Lemma array_includes_In l s : array_includes l s = true <-> In s l.
Proof.
  unfold array_includes. rewrite existsb_exists. split.
  - intros (x & Hin & Heq). apply String.eqb_eq in Heq. subst. exact Hin.
  - intros Hin. exists s. split; [exact Hin|apply String.eqb_refl].
Qed.

Lemma array_includes_false l s : array_includes l s = false <-> ~ In s l.
Proof.
  rewrite <- array_includes_In. destruct (array_includes l s); split;
    intros H; try reflexivity; try discriminate; try (intros H'; discriminate).
  exfalso. apply H. reflexivity.
Qed.

(** Looking for a lower-cased skill among lower-cased skills is comparing
    the lower-cased forms pairwise, as the jobs routes do. *)
Lemma array_includes_lower userSkills s :
  array_includes (map toLowerCase userSkills) (toLowerCase s) =
  existsb (fun userSkill => toLowerCase userSkill =? toLowerCase s)%string userSkills.
Proof.
  unfold array_includes. induction userSkills as [|u us IH]; [reflexivity|].
  cbn [map existsb]. rewrite IH. reflexivity.
Qed.

(** [jobSkills.filter((_, index) => test(jobSkillsLower[index]))] *)
Lemma filter_by_index {A B} (f : A -> B) (test : B -> bool) l :
  map fst (filter (fun p => test (snd p)) (combine l (map f l))) =
  filter (fun x => test (f x)) l.
Proof.
  induction l as [|x l IH]; [reflexivity|].
  cbn [map combine filter snd]. destruct (test (f x)); cbn [map fst];
    rewrite IH; reflexivity.
Qed.

Lemma filter_complement_perm {A} (f : A -> bool) l :
  Permutation (filter f l ++ filter (fun x => negb (f x)) l) l.
Proof.
  induction l as [|x l IH]; [constructor|].
  cbn [filter]. destruct (f x); cbn [negb app].
  - constructor. exact IH.
  - apply Permutation_sym, Permutation_cons_app, Permutation_sym, IH.
Qed.

Lemma analyse_matching jobTitle company jobSkills userSkills :
  matchingSkills (analyse jobTitle company jobSkills userSkills) =
  filter (fun s => array_includes userSkills (toLowerCase s)) jobSkills.
Proof. cbn [analyse matchingSkills]. apply filter_by_index. Qed.

Lemma analyse_missing jobTitle company jobSkills userSkills :
  missingSkills (analyse jobTitle company jobSkills userSkills) =
  filter (fun s => negb (array_includes userSkills (toLowerCase s))) jobSkills.
Proof.
  cbn [analyse missingSkills].
  apply (filter_by_index toLowerCase (fun s => negb (array_includes userSkills s))).
Qed.

Lemma analyse_overallMatch jobTitle company jobSkills userSkills :
  overallMatch (analyse jobTitle company jobSkills userSkills) =
  if 0 <? List.length jobSkills
  then percentage
         (List.length
            (filter (fun s => array_includes userSkills (toLowerCase s)) jobSkills))
         (List.length jobSkills)
  else 0%Z.
Proof.
  cbn [analyse overallMatch].
  rewrite (filter_by_index toLowerCase (array_includes userSkills)). reflexivity.
Qed.

Lemma analyse_lengths jobTitle company jobSkills userSkills :
  List.length (missingSkills (analyse jobTitle company jobSkills userSkills)) +
  List.length (matchingSkills (analyse jobTitle company jobSkills userSkills)) =
  List.length jobSkills.
Proof.
  rewrite analyse_matching, analyse_missing, Nat.add_comm. apply filter_length.
Qed.

Lemma fold_left_sum {A} (f : A -> nat) l acc :
  fold_left (fun sum x => sum + f x) l acc = acc + list_sum (map f l).
Proof.
  revert acc. induction l as [|x l IH]; intros acc.
  - cbn. lia.
  - cbn [fold_left map]. rewrite IH.
    change (list_sum (f x :: map f l)) with (f x + list_sum (map f l)). lia.
Qed.

Lemma totalGaps_sum jobAnalysis :
  totalGaps jobAnalysis =
  list_sum (map (fun job => List.length (missingSkills job)) jobAnalysis).
Proof. unfold totalGaps. rewrite fold_left_sum. reflexivity. Qed.

Lemma list_sum_perm l l' : Permutation l l' -> list_sum l = list_sum l'.
Proof.
  induction 1 as [|x l l' _ IH|x y l|l l' l'' _ IH1 _ IH2].
  - reflexivity.
  - change (x + list_sum l = x + list_sum l'). rewrite IH. reflexivity.
  - change (y + (x + list_sum l) = x + (y + list_sum l)). lia.
  - rewrite IH1. exact IH2.
Qed.

(** What a lookup in a table returns: the array of an own property, or
    the member of [Object.prototype] of that name, or the empty array. *)
Lemma get_or_empty_cases table skill :
  (exists trainings,
      get_or_empty table skill = Own trainings /\
      (own table skill = Some trainings \/
       (own table skill = None /\ trainings = [] /\
        ~ In skill object_prototype_members))) \/
  (get_or_empty table skill = Prototype skill /\
   own table skill = None /\ In skill object_prototype_members).
Proof.
  unfold get_or_empty, get.
  destruct (own table skill) as [trainings|].
  - left. exists trainings. split; [reflexivity|left; reflexivity].
  - destruct (existsb (fun name => (name =? skill)%string) object_prototype_members)
      eqn:Em.
    + right. split; [reflexivity|]. split; [reflexivity|].
      apply existsb_exists in Em. destruct Em as (name & Hin & Heq).
      apply String.eqb_eq in Heq. subst. exact Hin.
    + left. exists []. split; [reflexivity|]. right.
      split; [reflexivity|]. split; [reflexivity|]. intros Hin.
      assert (Ht : existsb (fun name => (name =? skill)%string)
                           object_prototype_members = true).
      { apply existsb_exists. exists skill. split; [exact Hin|apply String.eqb_refl]. }
      rewrite Ht in Em. discriminate.
Qed.

(** No training of the table is filed under the name of a member of
    [Object.prototype]. *)
Lemma own_prototype_member skill :
  In skill object_prototype_members -> own trainingRecommendations skill = None.
Proof.
  intros Hin. unfold object_prototype_members in Hin. cbn [In] in Hin.
  repeat (destruct Hin as [<-|Hin]; [reflexivity|]). destruct Hin.
Qed.

Lemma firstn_subset {A} n (l : list A) x : In x (firstn n l) -> In x l.
Proof.
  revert l. induction n as [|n IH]; intros [|y l]; cbn [firstn In]; try tauto.
  intros [H|H]; [left; exact H|right; apply IH, H].
Qed.

(** The number of elements that pass one of several tests, no two of which
    an element can pass together. *)
Lemma filter_disjoint_length {A} (f g : A -> bool) l :
  (forall x, f x && g x = false) ->
  List.length (filter f l) + List.length (filter g l) =
  List.length (filter (fun x => f x || g x) l).
Proof.
  intros Hd. induction l as [|x l IH]; [reflexivity|].
  cbn [filter]. specialize (Hd x).
  destruct (f x), (g x); cbn [orb andb List.length] in *; try discriminate; lia.
Qed.

Lemma includes_disjoint (names names' : list string) x :
  forallb (fun n => negb (array_includes names' n)) names = true ->
  array_includes names x && array_includes names' x = false.
Proof.
  intros Hall. destruct (array_includes names x) eqn:Hx; [|reflexivity].
  apply array_includes_In in Hx. rewrite forallb_forall in Hall.
  specialize (Hall x Hx). apply negb_true_iff in Hall. exact Hall.
Qed.

End GapFacts.

(** X5: the skill-gap analysis of a job splits the skills of the job in
    two: [matchingSkills] is the list of the skills of the job, in their
    order, whose lower-cased form is one of the (lower-cased) skills of the
    user, and [missingSkills] the list of the others, in their order; so
    every skill of the job is in exactly one of the two lists and their
    lengths add up to the number of skills. *)
Theorem analysis_partitions_job_skills :
  forall (jobTitle company : string) (jobSkills userSkills : list string),
    let a := SkillGapRoute.analyse jobTitle company jobSkills userSkills in
    SkillGapRoute.matchingSkills a =
      filter (fun skill => SkillGapRoute.array_includes userSkills (toLowerCase skill))
             jobSkills /\
    SkillGapRoute.missingSkills a =
      filter (fun skill =>
                negb (SkillGapRoute.array_includes userSkills (toLowerCase skill)))
             jobSkills /\
    Permutation (SkillGapRoute.matchingSkills a ++ SkillGapRoute.missingSkills a)
                jobSkills /\
    (List.length (SkillGapRoute.matchingSkills a) +
     List.length (SkillGapRoute.missingSkills a) = List.length jobSkills)%nat /\
    (forall s,
        In s (SkillGapRoute.matchingSkills a) <->
        In s jobSkills /\ In (toLowerCase s) userSkills) /\
    (forall s,
        In s (SkillGapRoute.missingSkills a) <->
        In s jobSkills /\ ~ In (toLowerCase s) userSkills) /\
    (forall s,
        ~ (In s (SkillGapRoute.matchingSkills a) /\
           In s (SkillGapRoute.missingSkills a))) /\
    (forall s,
        (SkillGapRoute.array_includes userSkills (toLowerCase s) = true <->
         In (toLowerCase s) userSkills)).
Proof.
  intros jobTitle company jobSkills userSkills a. subst a.
  rewrite GapFacts.analyse_matching, GapFacts.analyse_missing.
  assert (Hm : forall s,
             In s (filter (fun s => SkillGapRoute.array_includes userSkills
                                      (toLowerCase s)) jobSkills) <->
             In s jobSkills /\ In (toLowerCase s) userSkills).
  { intros s. rewrite filter_In, GapFacts.array_includes_In. reflexivity. }
  assert (Hg : forall s,
             In s (filter (fun s => negb (SkillGapRoute.array_includes userSkills
                                            (toLowerCase s))) jobSkills) <->
             In s jobSkills /\ ~ In (toLowerCase s) userSkills).
  { intros s. rewrite filter_In, negb_true_iff, GapFacts.array_includes_false.
    reflexivity. }
  split; [reflexivity|]. split; [reflexivity|].
  split; [apply GapFacts.filter_complement_perm|].
  split; [apply filter_length|].
  split; [exact Hm|]. split; [exact Hg|]. split.
  - intros s [H1 H2]. apply Hm in H1. apply Hg in H2. tauto.
  - intros s. apply GapFacts.array_includes_In.
Qed.

(** X6: an analysis recommends between one and three trainings: the first
    three of what the lookups [trainingRecommendations[skill] || []] give
    for the missing skills, in their order, and the one general course when
    they give nothing (in particular when no skill is missing).  A lookup
    gives the courses filed under the skill; for a skill named like a member
    of [Object.prototype] (such as "constructor") it gives that member, which
    is then recommended in the place of a course; for any other skill it
    gives nothing.  [GET /training/:skill] answers with the same lookup. *)
Theorem analysis_recommends_one_to_three :
  forall (jobTitle company : string) (jobSkills userSkills : list string),
    let a := SkillGapRoute.analyse jobTitle company jobSkills userSkills in
    let found :=
      flat_map (SkillGapRoute.lookup SkillGapRoute.trainingRecommendations)
               (SkillGapRoute.missingSkills a) in
    let general :=
      SkillGapRoute.Course
        (SkillGapRoute.training "General Full Stack Course" "Coursera" "40 hours"
                                "Intermediate") in
    (1 <= List.length (SkillGapRoute.recommendedTrainings a) <= 3)%nat /\
    (found <> [] -> SkillGapRoute.recommendedTrainings a = firstn 3 found) /\
    (found = [] -> SkillGapRoute.recommendedTrainings a = [general]) /\
    (SkillGapRoute.missingSkills a = [] -> found = []) /\
    (forall r,
        In r (SkillGapRoute.recommendedTrainings a) ->
        r = general \/
        exists skill,
          In skill (SkillGapRoute.missingSkills a) /\
          ((exists t trainings,
               r = SkillGapRoute.Course t /\ In t trainings /\
               SkillGapRoute.get_training skill =
                 (skill, SkillGapRoute.Own trainings)) \/
           (r = SkillGapRoute.Inherited skill /\
            In skill SkillGapRoute.object_prototype_members /\
            SkillGapRoute.get_training skill =
              (skill, SkillGapRoute.Prototype skill)))) /\
    (forall skill,
        (forall trainings,
            SkillGapRoute.own SkillGapRoute.trainingRecommendations skill =
              Some trainings ->
            SkillGapRoute.lookup SkillGapRoute.trainingRecommendations skill =
              map SkillGapRoute.Course trainings) /\
        (In skill SkillGapRoute.object_prototype_members ->
         SkillGapRoute.lookup SkillGapRoute.trainingRecommendations skill =
           [SkillGapRoute.Inherited skill]) /\
        (SkillGapRoute.own SkillGapRoute.trainingRecommendations skill = None ->
         ~ In skill SkillGapRoute.object_prototype_members ->
         SkillGapRoute.lookup SkillGapRoute.trainingRecommendations skill = [])).
Proof.
  intros jobTitle company jobSkills userSkills a found general.
  assert (Hrec : SkillGapRoute.recommendedTrainings a =
                 if (0 <? List.length (firstn 3 found))%nat
                 then firstn 3 found
                 else [general]).
  { subst found a general.
    cbn [SkillGapRoute.analyse SkillGapRoute.recommendedTrainings
         SkillGapRoute.missingSkills]. reflexivity. }
  assert (Hlookup : forall skill r,
             In r (SkillGapRoute.lookup SkillGapRoute.trainingRecommendations skill) ->
             (exists t trainings,
                 r = SkillGapRoute.Course t /\ In t trainings /\
                 SkillGapRoute.get_training skill =
                   (skill, SkillGapRoute.Own trainings)) \/
             (r = SkillGapRoute.Inherited skill /\
              In skill SkillGapRoute.object_prototype_members /\
              SkillGapRoute.get_training skill =
                (skill, SkillGapRoute.Prototype skill))).
  { intros skill r. unfold SkillGapRoute.lookup, SkillGapRoute.get_training.
    destruct (GapFacts.get_or_empty_cases SkillGapRoute.trainingRecommendations skill)
      as [(trainings & -> & _)|(-> & _ & Hmember)].
    - intros Hin. apply in_map_iff in Hin. destruct Hin as (t & <- & Ht).
      left. exists t, trainings. split; [reflexivity|]. split; [exact Ht|reflexivity].
    - intros [<-|[]]. right. split; [reflexivity|]. split; [exact Hmember|reflexivity]. }
  assert (Hfound : forall r, In r found ->
             exists skill,
               In skill (SkillGapRoute.missingSkills a) /\
               In r (SkillGapRoute.lookup SkillGapRoute.trainingRecommendations skill)).
  { intros r Hin. subst found. apply in_flat_map in Hin. exact Hin. }
  assert (Hnone : SkillGapRoute.missingSkills a = [] -> found = []).
  { intros H. subst found. rewrite H. reflexivity. }
  clearbody found a. rewrite Hrec. clear Hrec.
  split; [|split; [|split; [|split; [|split]]]].
  - destruct (Nat.ltb_spec 0 (List.length (firstn 3 found))) as [Hpos|Hz].
    + split; [exact Hpos|]. rewrite length_firstn. lia.
    + cbn [List.length]. lia.
  - intros Hne. destruct found as [|t found]; [contradiction|reflexivity].
  - intros ->. reflexivity.
  - exact Hnone.
  - intros r Hin.
    destruct (Nat.ltb_spec 0 (List.length (firstn 3 found))) as [Hpos|Hz].
    + right. apply GapFacts.firstn_subset in Hin.
      destruct (Hfound r Hin) as (skill & Hs & Hr).
      exists skill. split; [exact Hs|]. apply Hlookup, Hr.
    + left. destruct Hin as [<-|[]]. reflexivity.
  - intros skill. split; [|split].
    + intros trainings Hown. unfold SkillGapRoute.lookup, SkillGapRoute.get_or_empty,
        SkillGapRoute.get. rewrite Hown. reflexivity.
    + intros Hmember. unfold SkillGapRoute.lookup.
      destruct (GapFacts.get_or_empty_cases SkillGapRoute.trainingRecommendations skill)
        as [(trainings & _ & [Hown|(_ & _ & Hnot)])|(-> & _ & _)].
      * rewrite (GapFacts.own_prototype_member skill Hmember) in Hown. discriminate.
      * contradiction.
      * reflexivity.
    + intros Hown Hnot. unfold SkillGapRoute.lookup.
      destruct (GapFacts.get_or_empty_cases SkillGapRoute.trainingRecommendations skill)
        as [(trainings & -> & [Hown'|(_ & -> & _)])|(_ & _ & Hmember)].
      * rewrite Hown in Hown'. discriminate.
      * reflexivity.
      * contradiction.
Qed.

(** X7: the skill-gap analysis and the jobs listing score a posting alike:
    for the job [mapJob] makes of a row, the [matchingSkills] and the
    [overallMatch] of the analysis (over the lower-cased skills of the user)
    are the matching skills and the [dynamicMatch] of the jobs routes, so
    the listing reports [max(overallMatch, 60)]; the analysis of the row
    with the same columns in [GET /skill-gap] is this analysis, and its
    [overallMatch] lies in [0,100]. *)
Theorem skill_gap_agrees_with_listing :
  forall (row : JobsRoute.JobRow) (userSkills : list string),
    let job := JobsRoute.mapJob row in
    let a := SkillGapRoute.analyse (JobsRoute.title job) (JobsRoute.job_company job)
               (JobsRoute.skills job) (map toLowerCase userSkills) in
    SkillGapRoute.matchingSkills a = JobsRoute.matchingSkills userSkills job /\
    SkillGapRoute.overallMatch a = JobsRoute.dynamicMatch userSkills job /\
    JobsRoute.matchPercentage (JobsRoute.withMatchScore userSkills job) =
      Z.max (SkillGapRoute.overallMatch a) 60 /\
    (forall selected : SkillGapRoute.SupabaseJobRow,
        SkillGapRoute.row_job_title selected = JobsRoute.job_title row ->
        SkillGapRoute.row_company selected = JobsRoute.company row ->
        SkillGapRoute.row_qualification selected = JobsRoute.qualification row ->
        SkillGapRoute.jobAnalysis [selected] (map toLowerCase userSkills) = [a]) /\
    (array_length_ok (JobsRoute.skills job) ->
     (0 <= SkillGapRoute.overallMatch a <= 100)%Z).
Proof.
  intros row userSkills job a.
  assert (Hm : SkillGapRoute.matchingSkills a =
               JobsRoute.matchingSkills userSkills job).
  { subst a. rewrite GapFacts.analyse_matching. unfold JobsRoute.matchingSkills.
    apply filter_ext. intros s. apply GapFacts.array_includes_lower. }
  assert (Ho : SkillGapRoute.overallMatch a = JobsRoute.dynamicMatch userSkills job).
  { subst a. rewrite GapFacts.analyse_overallMatch. unfold JobsRoute.dynamicMatch.
    unfold JobsRoute.matchingSkills.
    rewrite (filter_ext _ _ (fun s => GapFacts.array_includes_lower userSkills s)).
    reflexivity. }
  split; [exact Hm|]. split; [exact Ho|].
  split; [rewrite Ho; reflexivity|]. split.
  - intros selected Ht Hc Hq. unfold SkillGapRoute.jobAnalysis.
    cbn [map]. rewrite Ht, Hc, Hq. reflexivity.
  - intros Hlen. rewrite Ho. apply JobsFacts.dynamicMatch_range, Hlen.
Qed.

(** X8: [GET /skill-gap] analyses every row of the table once (the sort
    only reorders the analyses), reports the lower-cased skills of the
    user, and its [totalGaps] is the number of missing skills over all rows;
    together with the matching skills they make up all the skills of the
    postings.  An error of the query is answered with 500. *)
Theorem total_gaps_counts_missing_skills :
  forall (resume : option json) (rows : list SkillGapRoute.SupabaseJobRow),
    let userSkills := map toLowerCase (SkillGapRoute.getUserSkills resume) in
    let entry := fun job =>
      SkillGapRoute.analyse
        (or_else (SkillGapRoute.row_job_title job) "Untitled Role")
        (or_else (SkillGapRoute.row_company job) "Unknown Company")
        (parseSkillsText (SkillGapRoute.row_qualification job)) userSkills in
    let missing :=
      list_sum (map (fun job => List.length (SkillGapRoute.missingSkills (entry job)))
                    rows) in
    let matching :=
      list_sum (map (fun job => List.length (SkillGapRoute.matchingSkills (entry job)))
                    rows) in
    (exists analysis,
        SkillGapRoute.get_skill_gap resume (Samples.found rows) =
          SkillGapRoute.Gaps analysis userSkills missing /\
        Permutation analysis (map entry rows) /\
        List.length analysis = List.length rows) /\
    (missing + matching)%nat =
      list_sum (map (fun job =>
                       List.length (parseSkillsText (SkillGapRoute.row_qualification job)))
                    rows) /\
    (forall message data,
        SkillGapRoute.get_skill_gap resume
          {| JobsRoute.data := data; JobsRoute.error := Some message |} =
        SkillGapRoute.Failure 500 message).
Proof.
  intros resume rows userSkills entry missing matching.
  split; [|split].
  - exists (SkillGapRoute.jobAnalysis rows userSkills).
    assert (Hp : Permutation (SkillGapRoute.jobAnalysis rows userSkills)
                             (map entry rows)).
    { unfold SkillGapRoute.jobAnalysis. apply SortFacts.sort_perm. }
    split; [|split].
    + unfold SkillGapRoute.get_skill_gap. cbn [Samples.found JobsRoute.error JobsRoute.data].
      fold userSkills. f_equal.
      rewrite GapFacts.totalGaps_sum.
      rewrite (GapFacts.list_sum_perm _ _
                 (Permutation_map
                    (fun job => List.length (SkillGapRoute.missingSkills job)) Hp)).
      rewrite map_map. reflexivity.
    + exact Hp.
    + rewrite (Permutation_length Hp). apply length_map.
  - subst missing matching. induction rows as [|row rows IH]; [reflexivity|].
    cbn [map].
    change (list_sum (?x :: ?l)) with (x + list_sum l)%nat.
    pose proof (GapFacts.analyse_lengths
                  (or_else (SkillGapRoute.row_job_title row) "Untitled Role")
                  (or_else (SkillGapRoute.row_company row) "Unknown Company")
                  (parseSkillsText (SkillGapRoute.row_qualification row)) userSkills)
      as Hrow.
    fold (entry row) in Hrow. lia.
  - reflexivity.
Qed.

(** X9: [GET /skill-gap/in-demand] lists the eight in-demand skills in
    their fixed order, each flagged exactly when one of the skills of the
    user equals its name up to letter case; the letter case of the skills of
    the user makes no difference. *)
Theorem in_demand_flags_ignore_case :
  forall userSkills : list string,
    map fst (SkillGapRoute.skillsWithStatus userSkills) =
      SkillGapRoute.inDemandSkills /\
    (forall skill hasSkill,
        In (skill, hasSkill) (SkillGapRoute.skillsWithStatus userSkills) ->
        (hasSkill = true <->
         exists userSkill,
           In userSkill userSkills /\
           toLowerCase userSkill = toLowerCase (SkillGapRoute.skill_name skill))) /\
    SkillGapRoute.skillsWithStatus (map toLowerCase userSkills) =
      SkillGapRoute.skillsWithStatus userSkills.
Proof.
  intros userSkills. split; [|split].
  - unfold SkillGapRoute.skillsWithStatus. rewrite map_map. cbn [fst].
    apply map_id.
  - intros skill hasSkill Hin. unfold SkillGapRoute.skillsWithStatus in Hin.
    apply in_map_iff in Hin. destruct Hin as (skill' & Heq & _).
    injection Heq as -> <-.
    rewrite GapFacts.array_includes_In, in_map_iff.
    split; intros (u & H1 & H2); exists u; split; assumption.
  - unfold SkillGapRoute.skillsWithStatus. rewrite map_map.
    rewrite (map_ext _ _ GapFacts.toLowerCase_idempotent). reflexivity.
Qed.

(** * Facts on the statistics *)

Module StatsFacts.

Import JSString SkillGapRoute.
#[local] Open Scope nat_scope.

Lemma countCategory_lower names userSkills :
  countCategory names (map toLowerCase userSkills) = countCategory names userSkills.
Proof.
  unfold countCategory. rewrite JobsFacts.filter_of_map, length_map.
  rewrite (filter_ext _ (fun s => array_includes names (toLowerCase s))); [reflexivity|].
  intros s. rewrite GapFacts.toLowerCase_idempotent. reflexivity.
Qed.

Lemma lower_twice userSkills :
  map toLowerCase (map toLowerCase userSkills) = map toLowerCase userSkills.
Proof.
  rewrite map_map. apply map_ext, GapFacts.toLowerCase_idempotent.
Qed.

Lemma statsMatch_lower userSkills jobSkills :
  statsMatch (map toLowerCase userSkills) jobSkills = statsMatch userSkills jobSkills.
Proof. unfold statsMatch, matchingCount. rewrite lower_twice. reflexivity. Qed.

Lemma totalMatch_ext userSkills userSkills' jobs :
  (forall jobSkills, statsMatch userSkills jobSkills = statsMatch userSkills' jobSkills) ->
  totalMatch userSkills jobs = totalMatch userSkills' jobs.
Proof.
  intros H. unfold totalMatch. generalize (Number.of_nat 0).
  induction jobs as [|j jobs IH]; intros acc; [reflexivity|].
  cbn [fold_left]. rewrite H. apply IH.
Qed.

(** Four tests, no two of which an element passes together, select at
    most as many elements as the list has. *)
Lemma categories_le (f1 f2 f3 f4 : string -> bool) (l : list string) :
  (forall x, f1 x && f2 x = false) -> (forall x, f1 x && f3 x = false) ->
  (forall x, f1 x && f4 x = false) -> (forall x, f2 x && f3 x = false) ->
  (forall x, f2 x && f4 x = false) -> (forall x, f3 x && f4 x = false) ->
  List.length (filter f1 l) + List.length (filter f2 l) +
  List.length (filter f3 l) + List.length (filter f4 l) <= List.length l.
Proof.
  intros H12 H13 H14 H23 H24 H34. induction l as [|x l IH]; [reflexivity|].
  cbn [filter]. specialize (H12 x). specialize (H13 x). specialize (H14 x).
  specialize (H23 x). specialize (H24 x). specialize (H34 x).
  destruct (f1 x), (f2 x), (f3 x), (f4 x); cbn [andb List.length] in *;
    try discriminate; lia.
Qed.

End StatsFacts.

(** X10: in the statistics of [GET /skill-gap/stats] no skill is counted in
    two of the four categories (their name lists are disjoint), so the four
    counts add up to at most [totalSkills]; the number of opportunities is
    at most the number of jobs, a job without skills is never one, and with
    no job both [averageMatch] and [opportunities] are 0; the letter case
    of the skills of the user makes no difference to any of the numbers. *)
Theorem stats_count_each_skill_once :
  forall (userSkills : list string) (jobs : list (list string)),
    let s := SkillGapRoute.stats userSkills jobs in
    (SkillGapRoute.frontend s + SkillGapRoute.backend s +
     SkillGapRoute.devops s + SkillGapRoute.database s <=
     SkillGapRoute.totalSkills s)%nat /\
    (SkillGapRoute.stats_opportunities s <= List.length jobs)%nat /\
    SkillGapRoute.opportunities userSkills ([] :: jobs) =
      SkillGapRoute.opportunities userSkills jobs /\
    (SkillGapRoute.stats_averageMatch (SkillGapRoute.stats userSkills []) = 0%Z /\
     SkillGapRoute.stats_opportunities (SkillGapRoute.stats userSkills []) = 0%nat) /\
    SkillGapRoute.stats (map toLowerCase userSkills) jobs = s.
Proof.
  intros userSkills jobs s. subst s.
  split; [|split; [|split; [|split]]].
  - cbn [SkillGapRoute.stats SkillGapRoute.frontend SkillGapRoute.backend
         SkillGapRoute.devops SkillGapRoute.database SkillGapRoute.totalSkills].
    unfold SkillGapRoute.countCategory.
    apply (StatsFacts.categories_le
             (fun s => SkillGapRoute.array_includes SkillGapRoute.frontendSkills
                         (toLowerCase s))
             (fun s => SkillGapRoute.array_includes SkillGapRoute.backendSkills
                         (toLowerCase s))
             (fun s => SkillGapRoute.array_includes SkillGapRoute.devopsSkills
                         (toLowerCase s))
             (fun s => SkillGapRoute.array_includes SkillGapRoute.databaseSkills
                         (toLowerCase s)));
      intros x; apply GapFacts.includes_disjoint; reflexivity.
  - cbn [SkillGapRoute.stats SkillGapRoute.stats_opportunities].
    apply filter_length_le.
  - reflexivity.
  - split; reflexivity.
  - unfold SkillGapRoute.stats.
    rewrite !StatsFacts.countCategory_lower, length_map.
    assert (Ha : SkillGapRoute.averageMatch (map toLowerCase userSkills) jobs =
                 SkillGapRoute.averageMatch userSkills jobs).
    { unfold SkillGapRoute.averageMatch.
      rewrite (StatsFacts.totalMatch_ext (map toLowerCase userSkills) userSkills)
        by apply StatsFacts.statsMatch_lower.
      reflexivity. }
    assert (Ho : SkillGapRoute.opportunities (map toLowerCase userSkills) jobs =
                 SkillGapRoute.opportunities userSkills jobs).
    { unfold SkillGapRoute.opportunities. f_equal. apply filter_ext.
      intros jobSkills. rewrite StatsFacts.statsMatch_lower. reflexivity. }
    rewrite Ha, Ho. reflexivity.
Qed.

(** * Further facts on the [resumes] table *)

Module ResumeFacts.

Import ProfileRoute ProfileFacts.

(** A write that keeps the owner and the creation time of every row keeps
    the latest resume of a user in its place. *)
Lemma getLatestResume_map (f : ResumeRow -> ResumeRow) resumes userId :
  (forall r, user_id (f r) = user_id r) ->
  (forall r, created_at (f r) = created_at r) ->
  getLatestResume (map f resumes) userId =
  option_map f (getLatestResume resumes userId).
Proof.
  intros Hu Hc. unfold getLatestResume.
  rewrite filter_map_user by exact Hu. apply latest_map, Hc.
Qed.

Lemma getLatestResume_owner resumes userId r :
  getLatestResume resumes userId = Some r -> In r resumes /\ user_id r = userId.
Proof.
  unfold getLatestResume. intros H. apply latest_In in H.
  apply filter_In in H. destruct H as [Hin Hu].
  split; [exact Hin|]. apply String.eqb_eq, Hu.
Qed.

Lemma stored_none resumes userId :
  getLatestResume resumes userId = None -> stored_skills resumes userId = [].
Proof. unfold stored_skills. intros ->. reflexivity. Qed.

Lemma stored_some resumes userId r :
  getLatestResume resumes userId = Some r ->
  stored_skills resumes userId = normalizeSkills (Some (extracted_skills r)).
Proof. unfold stored_skills. intros ->. reflexivity. Qed.

(** Where the ids of the table are unique, the row with the id of a row of
    the table is that row. *)
Lemma unique_id resumes r x :
  NoDup (map resume_id resumes) ->
  In r resumes -> In x resumes -> resume_id x = resume_id r -> x = r.
Proof.
  induction resumes as [|y resumes IH]; intros Hnd Hr Hx Heq; [destruct Hr|].
  cbn [map] in Hnd. apply NoDup_cons_iff in Hnd. destruct Hnd as [Hy Hnd].
  destruct Hr as [->|Hr], Hx as [->|Hx].
  - reflexivity.
  - exfalso. apply Hy. rewrite <- Heq. apply in_map, Hx.
  - exfalso. apply Hy. rewrite Heq. apply in_map, Hr.
  - apply IH; assumption.
Qed.

(** A write to the rows of one user leaves the latest resume of another
    user as it is. *)
Lemma getLatestResume_frame (f : ResumeRow -> ResumeRow) resumes userId other :
  (forall r, user_id (f r) = user_id r) ->
  (forall r, In r resumes -> user_id r <> userId -> f r = r) ->
  other <> userId ->
  getLatestResume (map f resumes) other = getLatestResume resumes other.
Proof.
  intros Hu Hf Hother. unfold getLatestResume. f_equal.
  induction resumes as [|x resumes IH]; [reflexivity|].
  cbn [map filter]. rewrite Hu.
  rewrite IH by (intros r Hr; apply Hf; right; exact Hr).
  destruct (String.eqb_spec (user_id x) other) as [Hx|Hx]; [|reflexivity].
  rewrite Hf; [reflexivity|left; reflexivity|congruence].
Qed.

Lemma filter_absent (skill : string) l :
  ~ In skill l ->
  filter (fun existingSkill => negb (existingSkill =? skill)%string) l = l.
Proof.
  induction l as [|x l IH]; intros Hn; [reflexivity|].
  cbn [filter]. destruct (String.eqb_spec x skill) as [->|Hx].
  - exfalso. apply Hn. left. reflexivity.
  - cbn [negb]. rewrite IH; [reflexivity|]. intros H. apply Hn. right. exact H.
Qed.

Lemma filter_other_count (skill other : string) l :
  other <> skill ->
  count_occ string_dec
    (filter (fun existingSkill => negb (existingSkill =? skill)%string) l) other =
  count_occ string_dec l other.
Proof.
  intros Hother. induction l as [|x l IH]; [reflexivity|].
  cbn [filter]. destruct (String.eqb_spec x skill) as [->|Hx]; cbn [negb].
  - rewrite count_occ_cons_neq by congruence. exact IH.
  - cbn [count_occ]. destruct (string_dec x other); rewrite IH; reflexivity.
Qed.

(** What [DELETE /skills/:skill] answers and stores. *)
Lemma delete_skill_stored resumes userId skill :
  let nextSkills :=
    filter (fun existingSkill => negb (existingSkill =? skill)%string)
           (stored_skills resumes userId) in
  fst (delete_skill resumes userId skill) =
    Skills "Skill removed successfully" nextSkills /\
  stored_skills (snd (delete_skill resumes userId skill)) userId = nextSkills.
Proof.
  cbv zeta. unfold delete_skill.
  destruct (getLatestResume resumes userId) as [r|] eqn:El; cbn [fst snd].
  - rewrite (stored_some _ _ _ El). split; [reflexivity|].
    apply stored_after_update, El.
  - rewrite (stored_none _ _ El). split; reflexivity.
Qed.

End ResumeFacts.

(** X11: [DELETE /skills/:skill] answers with, and stores, the stored skills
    of the user without every occurrence of the skill (compared exactly,
    letter case included), the others in their order; a user without a
    resume gets the empty list and nothing is written; removing twice is
    removing once; and where the ids of the table are unique, the stored
    skills of every other user stay as they are. *)
Theorem remove_skill_filters_stored_list :
  forall (resumes : list ProfileRoute.ResumeRow) (userId skill : string),
    let stored := ProfileRoute.stored_skills resumes userId in
    let nextSkills :=
      filter (fun existingSkill => negb (existingSkill =? skill)%string) stored in
    let after := snd (ProfileRoute.delete_skill resumes userId skill) in
    fst (ProfileRoute.delete_skill resumes userId skill) =
      ProfileRoute.Skills "Skill removed successfully" nextSkills /\
    ProfileRoute.stored_skills after userId = nextSkills /\
    ~ In skill (ProfileRoute.stored_skills after userId) /\
    (forall other, other <> skill ->
       count_occ string_dec (ProfileRoute.stored_skills after userId) other =
       count_occ string_dec stored other) /\
    (ProfileRoute.getLatestResume resumes userId = None -> after = resumes) /\
    ProfileRoute.stored_skills
      (snd (ProfileRoute.delete_skill after userId skill)) userId = nextSkills /\
    (NoDup (map ProfileRoute.resume_id resumes) ->
     forall otherUser, otherUser <> userId ->
       ProfileRoute.stored_skills after otherUser =
       ProfileRoute.stored_skills resumes otherUser).
Proof.
  intros resumes userId skill stored nextSkills after.
  destruct (ResumeFacts.delete_skill_stored resumes userId skill) as [Hr Hs].
  fold stored in Hr, Hs. fold nextSkills in Hr, Hs. fold after in Hs.
  assert (Hnot : ~ In skill nextSkills).
  { subst nextSkills. rewrite filter_In. intros [_ H].
    rewrite String.eqb_refl in H. discriminate. }
  split; [exact Hr|]. split; [exact Hs|]. rewrite Hs.
  split; [exact Hnot|]. split; [|split; [|split]].
  - intros other Hother. apply ResumeFacts.filter_other_count, Hother.
  - intros Hnone. subst after. unfold ProfileRoute.delete_skill.
    rewrite Hnone. reflexivity.
  - destruct (ResumeFacts.delete_skill_stored after userId skill) as [_ Hs'].
    rewrite Hs', Hs. apply ResumeFacts.filter_absent, Hnot.
  - intros Hnd otherUser Hother. subst after. unfold ProfileRoute.delete_skill.
    destruct (ProfileRoute.getLatestResume resumes userId) as [r|] eqn:El;
      cbn [snd]; [|reflexivity].
    apply ResumeFacts.getLatestResume_owner in El. destruct El as [Hin Hu].
    unfold ProfileRoute.stored_skills, ProfileRoute.update_skills.
    rewrite (ResumeFacts.getLatestResume_frame _ resumes userId otherUser);
      [reflexivity| | |exact Hother].
    + intros x. destruct (ProfileRoute.resume_id x =? ProfileRoute.resume_id r)%string;
        reflexivity.
    + intros x Hx Hxu.
      destruct (String.eqb_spec (ProfileRoute.resume_id x) (ProfileRoute.resume_id r))
        as [Heq|Hne]; [|reflexivity].
      exfalso. apply Hxu.
      rewrite (ResumeFacts.unique_id resumes r x Hnd Hin Hx Heq). exact Hu.
Qed.

(** X12: adding a skill and removing it again is a round trip: when the
    skill is not empty and not yet stored, [POST /skills] followed by
    [DELETE /skills/:skill] leaves the stored skills of the user as they
    were, and in between the skill is the last of the stored skills. *)
Theorem add_then_remove_skill_round_trip :
  forall (resumes : list ProfileRoute.ResumeRow) (defaults : ProfileRoute.Defaults)
         (userId skill : string),
    skill <> "" ->
    ~ In skill (ProfileRoute.stored_skills resumes userId) ->
    let added := snd (ProfileRoute.post_skills resumes defaults userId (JStr skill)) in
    let removed := snd (ProfileRoute.delete_skill added userId skill) in
    ProfileRoute.stored_skills added userId =
      (ProfileRoute.stored_skills resumes userId ++ [skill])%list /\
    ProfileRoute.stored_skills removed userId =
      ProfileRoute.stored_skills resumes userId /\
    fst (ProfileRoute.delete_skill added userId skill) =
      ProfileRoute.Skills "Skill removed successfully"
        (ProfileRoute.stored_skills resumes userId).
Proof.
  intros resumes defaults userId skill Hne Hnot added removed.
  assert (Ha : ProfileRoute.stored_skills added userId =
               (ProfileRoute.stored_skills resumes userId ++ [skill])%list).
  { subst added. unfold ProfileRoute.post_skills.
    apply StringFacts.truthy_spec in Hne. rewrite Hne.
    fold (ProfileRoute.stored_skills resumes userId).
    destruct (existsb (fun s => (s =? skill)%string)
                      (ProfileRoute.stored_skills resumes userId)) eqn:Ex.
    { apply ProfileFacts.includes_In in Ex. contradiction. }
    destruct (ProfileRoute.getLatestResume resumes userId) as [r|] eqn:El; cbn [snd].
    - apply ProfileFacts.stored_after_update, El.
    - apply ProfileFacts.stored_after_insert, El. }
  assert (Hf : filter (fun existingSkill => negb (existingSkill =? skill)%string)
                 (ProfileRoute.stored_skills resumes userId ++ [skill]) =
               ProfileRoute.stored_skills resumes userId).
  { rewrite filter_app, (ResumeFacts.filter_absent skill _ Hnot).
    cbn [filter]. rewrite String.eqb_refl. apply app_nil_r. }
  destruct (ResumeFacts.delete_skill_stored added userId skill) as [Hr Hs].
  rewrite Ha, Hf in Hr, Hs.
  split; [exact Ha|]. split; [exact Hs|exact Hr].
Qed.

Lemma add_then_remove_skill_round_trip_witness :
  ProfileRoute.stored_skills
    (snd (ProfileRoute.delete_skill
            (snd (ProfileRoute.post_skills (Samples.one_resume ["Python"; "SQL"])
                    Samples.defaults "u1" (JStr "Go")))
            "u1" "Go"))
    "u1" =
  ProfileRoute.stored_skills (Samples.one_resume ["Python"; "SQL"]) "u1".
Proof.
  assert (Hne : "Go" <> "") by discriminate.
  assert (Hnot : ~ In "Go" (ProfileRoute.stored_skills
                              (Samples.one_resume ["Python"; "SQL"]) "u1")).
  { intros [H|[H|[]]]; discriminate. }
  exact (proj1 (proj2 (add_then_remove_skill_round_trip
                         (Samples.one_resume ["Python"; "SQL"]) Samples.defaults
                         "u1" "Go" Hne Hnot))).
Defined.

(** X13: the profile completeness of [GET /completeness] is 25 times the
    number of complete checks among the four (Personal Info, Education,
    Experience, Skills); the Education check is never complete, so the
    percentage is at most 75; the Skills check is complete exactly when the
    user has a stored skill, and Personal Info when the profile has a
    non-empty name and a non-empty email. *)
Theorem completeness_is_25_per_check :
  forall (profile : option ProfileRoute.ProfileRow)
         (resumes : list ProfileRoute.ResumeRow) (userId : string),
    let percentage := fst (ProfileRoute.get_completeness profile resumes userId) in
    let checks := snd (ProfileRoute.get_completeness profile resumes userId) in
    percentage = (25 * Z.of_nat (List.length (filter snd checks)))%Z /\
    (0 <= percentage <= 75)%Z /\
    map fst checks = ["Personal Info"; "Education"; "Experience"; "Skills"] /\
    In ("Education", false) checks /\
    (In ("Skills", true) checks <->
     ProfileRoute.stored_skills resumes userId <> []) /\
    (In ("Personal Info", true) checks <->
     exists p name email,
       profile = Some p /\
       ProfileRoute.full_name p = Some name /\ name <> "" /\
       ProfileRoute.profile_email p = Some email /\ email <> "").
Proof.
  intros profile resumes userId percentage checks.
  subst percentage checks. unfold ProfileRoute.get_completeness. cbn [fst snd].
  unfold ProfileRoute.checks, ProfileRoute.completeness.
  fold (ProfileRoute.stored_skills resumes userId).
  set (personal := match profile with
                   | Some p => ProfileRoute.present (ProfileRoute.full_name p) &&
                               ProfileRoute.present (ProfileRoute.profile_email p)
                   | None => false
                   end).
  set (experience := match ProfileRoute.getLatestResume resumes userId with
                     | Some r => ProfileRoute.present (ProfileRoute.parsed_role r)
                     | None => false
                     end).
  assert (Hp : personal = true <->
               exists p name email,
                 profile = Some p /\
                 ProfileRoute.full_name p = Some name /\ name <> "" /\
                 ProfileRoute.profile_email p = Some email /\ email <> "").
  { subst personal. split.
    - destruct profile as [p|]; [|discriminate]. intros H.
      apply andb_true_iff in H. destruct H as [Hn He].
      unfold ProfileRoute.present in Hn, He.
      destruct (ProfileRoute.full_name p) as [name|] eqn:En; [|discriminate].
      destruct (ProfileRoute.profile_email p) as [email|] eqn:Em; [|discriminate].
      exists p, name, email.
      split; [reflexivity|]. split; [exact En|].
      split; [apply StringFacts.truthy_spec, Hn|].
      split; [exact Em|apply StringFacts.truthy_spec, He].
    - intros (p & name & email & -> & Hn & Hne & He & Hee).
      rewrite Hn, He. cbn [ProfileRoute.present].
      apply StringFacts.truthy_spec in Hne, Hee. rewrite Hne, Hee. reflexivity. }
  assert (Hs : (0 <? List.length (ProfileRoute.stored_skills resumes userId))%nat = true <->
               ProfileRoute.stored_skills resumes userId <> []).
  { destruct (ProfileRoute.stored_skills resumes userId); cbn; split;
      intros H; try discriminate; try reflexivity. contradiction. }
  clearbody personal experience.
  destruct ((0 <? List.length (ProfileRoute.stored_skills resumes userId))%nat)
    eqn:Eskills.
  - split; [|split; [|split; [|split; [|split]]]].
    + destruct personal, experience; vm_compute; reflexivity.
    + destruct personal, experience; vm_compute; split; discriminate.
    + reflexivity.
    + right. left. reflexivity.
    + split; [intros _; apply Hs; reflexivity|].
      intros _. right. right. right. left. reflexivity.
    + rewrite <- Hp. split.
      * intros [H|[H|[H|[H|[]]]]]; try discriminate.
        injection H as H. exact H.
      * intros ->. left. reflexivity.
  - split; [|split; [|split; [|split; [|split]]]].
    + destruct personal, experience; vm_compute; reflexivity.
    + destruct personal, experience; vm_compute; split; discriminate.
    + reflexivity.
    + right. left. reflexivity.
    + split.
      * intros [H|[H|[H|[H|[]]]]]; discriminate.
      * intros H. apply Hs in H. discriminate.
    + rewrite <- Hp. split.
      * intros [H|[H|[H|[H|[]]]]]; try discriminate.
        injection H as H. exact H.
      * intros ->. left. reflexivity.
Qed.

(** X14: the write of [PUT /] to the [resumes] table: when it is accepted,
    the skills read back for the user are the string entries of the [skills]
    value of the body when that is an array, none when it is another value,
    and the skills stored before when the body has no [skills]; a refused
    write is reported with its message whenever [skills] or [experience] is
    in the body, and a body with neither leaves the table as it is. *)
Theorem put_profile_stores_skills :
  forall (resumes : list ProfileRoute.ResumeRow) (defaults : ProfileRoute.Defaults)
         (userId : string) (experience : ProfileRoute.BodyField (option string))
         (skills : ProfileRoute.BodyField json),
    (exists resumes',
        ProfileRoute.put_resume resumes defaults userId experience skills None =
          inr resumes' /\
        ProfileRoute.stored_skills resumes' userId =
          match skills with
          | Some value => ProfileRoute.normalizeSkills (Some value)
          | None => ProfileRoute.stored_skills resumes userId
          end) /\
    (forall l,
        skills = Some (JArr (map JStr l)) ->
        exists resumes',
          ProfileRoute.put_resume resumes defaults userId experience skills None =
            inr resumes' /\
          ProfileRoute.stored_skills resumes' userId = l) /\
    (forall message,
        ProfileRoute.put_resume resumes defaults userId experience skills
                                (Some message) =
        match skills, experience with
        | None, None => inr resumes
        | _, _ => inl message
        end).
Proof.
  intros resumes defaults userId experience skills.
  assert (Hmain : exists resumes',
             ProfileRoute.put_resume resumes defaults userId experience skills None =
               inr resumes' /\
             ProfileRoute.stored_skills resumes' userId =
               match skills with
               | Some value => ProfileRoute.normalizeSkills (Some value)
               | None => ProfileRoute.stored_skills resumes userId
               end).
  { unfold ProfileRoute.put_resume.
    destruct (ProfileRoute.getLatestResume resumes userId) as [r|] eqn:El.
    - assert (Hupd : forall value role,
                 ProfileRoute.stored_skills
                   (map (fun x =>
                           if (ProfileRoute.resume_id x =? ProfileRoute.resume_id r)%string
                           then {| ProfileRoute.resume_id := ProfileRoute.resume_id x;
                                   ProfileRoute.user_id := ProfileRoute.user_id x;
                                   ProfileRoute.file_url := ProfileRoute.file_url x;
                                   ProfileRoute.extracted_skills := value;
                                   ProfileRoute.parsed_role := role;
                                   ProfileRoute.experience_years :=
                                     ProfileRoute.experience_years x;
                                   ProfileRoute.created_at := ProfileRoute.created_at x |}
                           else x) resumes) userId =
                 ProfileRoute.normalizeSkills (Some value)).
      { intros value role. unfold ProfileRoute.stored_skills.
        rewrite ResumeFacts.getLatestResume_map, El.
        - cbn [option_map]. rewrite String.eqb_refl. reflexivity.
        - intros x.
          destruct (ProfileRoute.resume_id x =? ProfileRoute.resume_id r)%string;
            reflexivity.
        - intros x.
          destruct (ProfileRoute.resume_id x =? ProfileRoute.resume_id r)%string;
            reflexivity. }
      destruct skills as [value|], experience as [role|];
        (eexists; split; [reflexivity|]); try apply Hupd.
      + rewrite Hupd. symmetry. apply ResumeFacts.stored_some, El.
      + reflexivity.
    - assert (Hins : forall value role,
                 ProfileRoute.stored_skills
                   (resumes ++
                    [ {| ProfileRoute.resume_id := ProfileRoute.new_id defaults;
                         ProfileRoute.user_id := userId;
                         ProfileRoute.file_url := Some "";
                         ProfileRoute.extracted_skills := value;
                         ProfileRoute.parsed_role := role;
                         ProfileRoute.experience_years := None;
                         ProfileRoute.created_at := ProfileRoute.now defaults |} ])
                   userId =
                 ProfileRoute.normalizeSkills (Some value)).
      { intros value role. unfold ProfileRoute.stored_skills, ProfileRoute.getLatestResume in *.
        apply ProfileFacts.latest_none in El. rewrite filter_app, El.
        cbn [filter ProfileRoute.user_id app]. rewrite String.eqb_refl. reflexivity. }
      destruct skills as [value|], experience as [role|];
        (eexists; split; [reflexivity|]).
      + rewrite Hins. destruct value; reflexivity.
      + rewrite Hins. destruct value; reflexivity.
      + rewrite Hins, (ResumeFacts.stored_none _ _ El). reflexivity.
      + reflexivity. }
  split; [exact Hmain|]. split.
  - intros l ->. destruct Hmain as (resumes' & Hput & Hs).
    exists resumes'. split; [exact Hput|]. rewrite Hs.
    cbn [ProfileRoute.normalizeSkills]. apply ProfileFacts.strings_of_strings.
  - intros message. unfold ProfileRoute.put_resume.
    destruct skills, experience; reflexivity.
Qed.

(** * Facts on the authentication middleware *)

Module AuthFacts.

Import JSString AuthMiddleware.

(** The first piece of a split is what stands before the first separator. *)
Lemma split_first sep scheme c rest :
  free_of sep scheme -> sep c = true ->
  split sep (scheme ++ String c rest) = scheme :: split sep rest.
Proof.
  intros Hfree Hc. induction scheme as [|d scheme IH].
  - cbn [append split]. rewrite Hc. reflexivity.
  - inversion Hfree as [|? ? Hd Hrest]; subst.
    cbn [append split]. rewrite Hd, (IH Hrest). reflexivity.
Qed.

Lemma split_whole sep s : free_of sep s -> split sep s = [s].
Proof.
  intros Hfree. induction s as [|d s IH]; [reflexivity|].
  inversion Hfree as [|? ? Hd Hrest]; subst.
  cbn [split]. rewrite Hd, (IH Hrest). reflexivity.
Qed.

Lemma string_value_truthy v s : string_value v = Some s -> s <> "".
Proof.
  destruct v; cbn [string_value]; try discriminate.
  destruct (truthy s0) eqn:Et; [|discriminate].
  intros H. injection H as <-. apply StringFacts.truthy_spec, Et.
Qed.

Lemma fullName_nonempty user : fullName user <> "".
Proof.
  unfold fullName.
  destruct (string_value (meta_full_name user)) eqn:E1;
    [apply (string_value_truthy _ _ E1)|].
  destruct (string_value (meta_name user)) eqn:E2;
    [apply (string_value_truthy _ _ E2)|].
  apply ListingFacts.or_else_nonempty. discriminate.
Qed.

Lemma token_of_free authHeader token :
  token_of authHeader = Some token -> free_of space token.
Proof.
  destruct authHeader as [h|]; cbn [token_of]; [|discriminate].
  destruct (truthy h) eqn:Et.
  - intros H. apply nth_error_In in H.
    pose proof (StringFacts.split_free space h) as Hf.
    rewrite Forall_forall in Hf. apply Hf, H.
  - intros H. injection H as <-.
    destruct h; [constructor|discriminate].
Qed.

End AuthFacts.

(** X15: [authenticateToken] lets a request pass only with a non-empty
    token that [supabase.auth.getUser] accepted, and then [req.user] has the
    id of the Supabase user and a name that is never empty; it answers 401
    exactly when the header has no non-empty second piece, without asking
    Supabase, and 403 otherwise.  The token is the piece between the first
    and the second space of the header: the scheme word before it is not
    looked at, and a header without a space is refused. *)
Theorem authenticate_token_outcomes :
  forall (authHeader : option string)
         (getUser : string -> AuthMiddleware.GetUser),
    (forall user token,
        AuthMiddleware.authenticateToken authHeader getUser =
          AuthMiddleware.Next user token ->
        token <> "" /\
        AuthMiddleware.token_of authHeader = Some token /\
        free_of AuthMiddleware.space token /\
        AuthMiddleware.user_name user <> "" /\
        exists supabaseUser,
          getUser token = AuthMiddleware.Returned false (Some supabaseUser) /\
          AuthMiddleware.user_id user = AuthMiddleware.supabase_id supabaseUser /\
          AuthMiddleware.user_email user =
            or_else (AuthMiddleware.supabase_email supabaseUser) "") /\
    (forall status message,
        AuthMiddleware.authenticateToken authHeader getUser =
          AuthMiddleware.Rejected status message ->
        (status = 401%Z /\ message = "Access token required" /\
         (AuthMiddleware.token_of authHeader = None \/
          AuthMiddleware.token_of authHeader = Some "") /\
         forall getUser',
           AuthMiddleware.authenticateToken authHeader getUser' =
           AuthMiddleware.Rejected 401 "Access token required") \/
        (status = 403%Z /\ message = "Invalid or expired token" /\
         exists token,
           AuthMiddleware.token_of authHeader = Some token /\ token <> "" /\
           forall supabaseUser,
             getUser token <> AuthMiddleware.Returned false (Some supabaseUser))) /\
    (forall scheme scheme' rest,
        free_of AuthMiddleware.space scheme -> free_of AuthMiddleware.space scheme' ->
        AuthMiddleware.authenticateToken (Some (scheme ++ " " ++ rest)) getUser =
        AuthMiddleware.authenticateToken (Some (scheme' ++ " " ++ rest)) getUser) /\
    (forall header,
        free_of AuthMiddleware.space header ->
        AuthMiddleware.authenticateToken (Some header) getUser =
        AuthMiddleware.Rejected 401 "Access token required").
Proof.
  intros authHeader getUser. split; [|split; [|split]].
  - intros user token. unfold AuthMiddleware.authenticateToken.
    destruct (AuthMiddleware.token_of authHeader) as [t|] eqn:Et; [|discriminate].
    destruct (truthy t) eqn:Etr; [|discriminate].
    destruct (getUser t) as [|error [u|]] eqn:Eg; try discriminate;
      destruct error; try discriminate.
    intros H. injection H as <- <-.
    split; [apply StringFacts.truthy_spec, Etr|].
    split; [reflexivity|].
    split; [apply (AuthFacts.token_of_free authHeader), Et|].
    split; [apply AuthFacts.fullName_nonempty|].
    exists u. split; [exact Eg|]. split; reflexivity.
  - intros status message. unfold AuthMiddleware.authenticateToken.
    destruct (AuthMiddleware.token_of authHeader) as [t|] eqn:Et.
    + destruct (truthy t) eqn:Etr.
      * assert (Hne : t <> "") by (apply StringFacts.truthy_spec, Etr).
        destruct (getUser t) as [|error [u|]] eqn:Eg.
        -- intros H. injection H as <- <-. right.
           split; [reflexivity|]. split; [reflexivity|].
           exists t. split; [reflexivity|]. split; [exact Hne|].
           intros supabaseUser. rewrite Eg. discriminate.
        -- destruct error; [|discriminate].
           intros H. injection H as <- <-. right.
           split; [reflexivity|]. split; [reflexivity|].
           exists t. split; [reflexivity|]. split; [exact Hne|].
           intros supabaseUser. rewrite Eg. discriminate.
        -- intros H. assert (H' : AuthMiddleware.Rejected 403 "Invalid or expired token" =
                                  AuthMiddleware.Rejected status message)
             by (destruct error; exact H).
           injection H' as <- <-. right.
           split; [reflexivity|]. split; [reflexivity|].
           exists t. split; [reflexivity|]. split; [exact Hne|].
           intros supabaseUser. rewrite Eg. discriminate.
      * intros H. injection H as <- <-. left.
        split; [reflexivity|]. split; [reflexivity|].
        assert (t = "") as ->.
        { destruct t; [reflexivity|discriminate]. }
        split; [right; reflexivity|]. intros getUser'. reflexivity.
    + intros H. injection H as <- <-. left.
      split; [reflexivity|]. split; [reflexivity|].
      split; [left; reflexivity|]. intros getUser'. reflexivity.
  - intros scheme scheme' rest Hs Hs'.
    assert (Htoken : forall s, free_of AuthMiddleware.space s ->
               AuthMiddleware.token_of (Some (s ++ " " ++ rest)) =
               nth_error (split AuthMiddleware.space rest) 0).
    { intros s Hfree. cbn [AuthMiddleware.token_of].
      assert (Ht : truthy (s ++ " " ++ rest) = true).
      { apply StringFacts.truthy_spec. destruct s; discriminate. }
      rewrite Ht. change (" " ++ rest) with (String " " rest).
      rewrite (AuthFacts.split_first AuthMiddleware.space s " " rest Hfree eq_refl). reflexivity. }
    unfold AuthMiddleware.authenticateToken.
    rewrite (Htoken scheme Hs), (Htoken scheme' Hs'). reflexivity.
  - intros header Hfree. unfold AuthMiddleware.authenticateToken.
    cbn [AuthMiddleware.token_of].
    destruct (truthy header) eqn:Et.
    + rewrite (AuthFacts.split_whole AuthMiddleware.space header Hfree). reflexivity.
    + rewrite Et. reflexivity.
Qed.

(** * Facts on the in-memory database *)

Module DatabaseFacts.

Import JSString Database.

Lemma map_get_set_same {V} (m : list (string * V)) k v :
  map_get (map_set m k v) k = Some v.
Proof.
  induction m as [|[k' v'] m IH]; cbn [map_set map_get].
  - rewrite String.eqb_refl. reflexivity.
  - destruct (String.eqb_spec k' k) as [->|Hk]; cbn [map_get].
    + rewrite String.eqb_refl. reflexivity.
    + destruct (String.eqb_spec k' k) as [->|_]; [contradiction|exact IH].
Qed.

Lemma map_get_set_other {V} (m : list (string * V)) k k' v :
  k' <> k -> map_get (map_set m k v) k' = map_get m k'.
Proof.
  intros Hne. induction m as [|[k0 v0] m IH]; cbn [map_set map_get].
  - destruct (String.eqb_spec k k') as [->|_]; [contradiction|reflexivity].
  - destruct (String.eqb_spec k0 k) as [->|Hk]; cbn [map_get].
    + destruct (String.eqb_spec k k') as [->|_]; [contradiction|reflexivity].
    + rewrite IH. reflexivity.
Qed.

Lemma map_set_fresh {V} (m : list (string * V)) k v :
  map_get m k = None -> map_set m k v = (m ++ [(k, v)])%list.
Proof.
  induction m as [|[k' v'] m IH]; cbn [map_get map_set app]; [reflexivity|].
  destruct (k' =? k)%string; [discriminate|].
  intros H. rewrite (IH H). reflexivity.
Qed.

Lemma find_none_app {A} (f : A -> bool) l x :
  find f l = None -> find f (l ++ [x]) = if f x then Some x else None.
Proof.
  induction l as [|y l IH]; cbn [find app]; [reflexivity|].
  destruct (f y); [discriminate|exact IH].
Qed.

Lemma includes_empty hay : includes hay "" = true.
Proof. destruct hay; reflexivity. Qed.

End DatabaseFacts.

(** X16: [updateProfile] of the in-memory database: for a user without a
    profile it returns undefined and changes nothing; otherwise the profile
    read back with [getProfile] is the returned one, in which each of the
    fields name, phone, education, experience, skills and resume URL has the
    value of the update when the update has the field and its old value
    when not, the user id and the email are kept and [updatedAt] is the time
    of the update; an update without fields changes the time only.  The
    profiles of the other users, the users and the jobs stay as they are. *)
Theorem update_profile_merges_fields :
  forall (db : Database.t) (userId : string) (updates : Database.Updates) (now : Z),
    let result := fst (Database.updateProfile db userId updates now) in
    let db' := snd (Database.updateProfile db userId updates now) in
    let pick := fun (A : Type) (field : option A) (old : A) =>
      match field with Some value => value | None => old end in
    (Database.getProfile db userId = None -> result = None /\ db' = db) /\
    (forall profile,
        Database.getProfile db userId = Some profile ->
        exists updated,
          result = Some updated /\
          Database.getProfile db' userId = Some updated /\
          SkillGapRoute.userId updated = SkillGapRoute.userId profile /\
          SkillGapRoute.email updated = SkillGapRoute.email profile /\
          SkillGapRoute.updatedAt updated = now /\
          SkillGapRoute.profile_skills updated =
            pick _ (Database.set_skills updates) (SkillGapRoute.profile_skills profile) /\
          SkillGapRoute.profile_name updated =
            pick _ (Database.set_name updates) (SkillGapRoute.profile_name profile) /\
          SkillGapRoute.phone updated =
            pick _ (Database.set_phone updates) (SkillGapRoute.phone profile) /\
          SkillGapRoute.education updated =
            pick _ (Database.set_education updates) (SkillGapRoute.education profile) /\
          SkillGapRoute.profile_experience updated =
            pick _ (Database.set_experience updates)
                 (SkillGapRoute.profile_experience profile) /\
          SkillGapRoute.resumeUrl updated =
            pick _ (Database.set_resumeUrl updates) (SkillGapRoute.resumeUrl profile) /\
          (updates = Database.no_updates ->
           updated =
             {| SkillGapRoute.userId := SkillGapRoute.userId profile;
                SkillGapRoute.profile_name := SkillGapRoute.profile_name profile;
                SkillGapRoute.email := SkillGapRoute.email profile;
                SkillGapRoute.phone := SkillGapRoute.phone profile;
                SkillGapRoute.education := SkillGapRoute.education profile;
                SkillGapRoute.profile_experience :=
                  SkillGapRoute.profile_experience profile;
                SkillGapRoute.profile_skills := SkillGapRoute.profile_skills profile;
                SkillGapRoute.resumeUrl := SkillGapRoute.resumeUrl profile;
                SkillGapRoute.updatedAt := now |})) /\
    (forall other, other <> userId ->
       Database.getProfile db' other = Database.getProfile db other) /\
    Database.users db' = Database.users db /\
    Database.getAllJobs db' = Database.getAllJobs db.
Proof.
  intros db userId updates now result db' pick. subst result db' pick.
  unfold Database.updateProfile, Database.getProfile.
  destruct (Database.map_get (Database.profiles db) userId) as [profile|] eqn:Ep;
    cbn [fst snd Database.profiles Database.users Database.getAllJobs Database.jobs].
  - split; [discriminate|]. split; [|split; [|split; reflexivity]].
    + intros p Hp. injection Hp as <-.
      exists (Database.merge profile updates now).
      split; [reflexivity|].
      split; [apply DatabaseFacts.map_get_set_same|].
      do 9 (split; [reflexivity|]).
      intros ->. reflexivity.
    + intros other Hother. apply DatabaseFacts.map_get_set_other, Hother.
  - split; [split; reflexivity|]. split; [discriminate|].
    split; [|split; reflexivity]. reflexivity.
Qed.

(** X17: [createUser] stores the user under its id with the email
    lower-cased and gives it a profile without skills; the users stored
    under other ids stay as they are.  When the id is new and no user has
    the email yet, [findUserByEmail] finds the new user for every spelling
    of the email that differs in letter case only. *)
Theorem create_user_is_found_by_email :
  forall (db : Database.t) (uuid hashedPassword : string) (now : Z)
         (name email : string),
    Database.findUserById db uuid = None ->
    Database.findUserByEmail db email = None ->
    let user := fst (Database.createUser db uuid hashedPassword now name email) in
    let db' := snd (Database.createUser db uuid hashedPassword now name email) in
    Database.user_email user = toLowerCase email /\
    Database.findUserById db' uuid = Some user /\
    (forall spelling,
        toLowerCase spelling = toLowerCase email ->
        Database.findUserByEmail db' spelling = Some user) /\
    (exists profile,
        Database.getProfile db' uuid = Some profile /\
        SkillGapRoute.profile_skills profile = [] /\
        SkillGapRoute.profile_name profile = name /\
        SkillGapRoute.email profile = toLowerCase email) /\
    (forall id, id <> uuid ->
       Database.findUserById db' id = Database.findUserById db id /\
       Database.getProfile db' id = Database.getProfile db id).
Proof.
  intros db uuid hashedPassword now name email Hid Hemail user db'.
  subst user db'. unfold Database.createUser.
  cbn [fst snd Database.user_email Database.user_id].
  unfold Database.findUserById, Database.getProfile, Database.findUserByEmail in *.
  cbn [Database.users Database.profiles].
  split; [reflexivity|].
  split; [apply DatabaseFacts.map_get_set_same|].
  split; [|split].
  - intros spelling Hs. rewrite Hs.
    rewrite (DatabaseFacts.map_set_fresh _ _ _ Hid), map_app.
    cbn [map snd]. rewrite (DatabaseFacts.find_none_app _ _ _ Hemail).
    cbn [Database.user_email]. rewrite String.eqb_refl. reflexivity.
  - eexists. split; [apply DatabaseFacts.map_get_set_same|].
    repeat split.
  - intros id Hne. split; apply DatabaseFacts.map_get_set_other, Hne.
Qed.

Lemma create_user_is_found_by_email_witness :
  Database.findUserByEmail
    (snd (Database.createUser Database.empty "id-1" "hash" 5 "Ada" "Ada@Example.COM"))
    "ADA@example.com" =
  Some (fst (Database.createUser Database.empty "id-1" "hash" 5 "Ada" "Ada@Example.COM")).
Proof.
  assert (Hid : Database.findUserById Database.empty "id-1" = None) by reflexivity.
  assert (Hemail : Database.findUserByEmail Database.empty "Ada@Example.COM" = None)
    by reflexivity.
  assert (Hs : toLowerCase "ADA@example.com" = toLowerCase "Ada@Example.COM")
    by reflexivity.
  exact (proj1 (proj2 (proj2 (create_user_is_found_by_email
                                Database.empty "id-1" "hash" 5 "Ada" "Ada@Example.COM"
                                Hid Hemail)))
               "ADA@example.com" Hs).
Defined.

(** X18: the job queries of the in-memory database: [searchJobs] keeps the
    jobs the search filter of the jobs route keeps, in their order, whatever
    the letter case of the query, and all jobs for the empty query;
    [getJobById] returns a job of the list that has the id, and nothing
    only when no job has it; [filterJobs] without a type and without skills
    (or with an empty skill list) returns all jobs, and with a type only the
    jobs of exactly that type. *)
Theorem database_job_queries :
  forall (db : Database.t),
    (forall query,
        Database.searchJobs db query =
        JobsRoute.filterSearch (Some query) (Database.getAllJobs db)) /\
    Database.searchJobs db "" = Database.getAllJobs db /\
    (forall query query',
        toLowerCase query = toLowerCase query' ->
        Database.searchJobs db query = Database.searchJobs db query') /\
    (forall id job,
        Database.getJobById db id = Some job ->
        In job (Database.getAllJobs db) /\ JobsRoute.job_id job = id) /\
    (forall id,
        Database.getJobById db id = None <->
        forall job, In job (Database.getAllJobs db) -> JobsRoute.job_id job <> id) /\
    Database.filterJobs db None None = Database.getAllJobs db /\
    Database.filterJobs db None (Some []) = Database.getAllJobs db /\
    (forall type skills job,
        type <> "" ->
        In job (Database.filterJobs db (Some type) skills) ->
        In job (Database.getAllJobs db) /\ JobsRoute.job_type job = type).
Proof.
  intros db.
  assert (Hall : forall query, toLowerCase query = "" ->
             Database.searchJobs db query = Database.getAllJobs db).
  { intros query Hq. unfold Database.searchJobs, Database.getAllJobs. rewrite Hq.
    rewrite (filter_ext _ (fun _ => true)); [apply JobsFacts.filter_all|].
    intros job. rewrite DatabaseFacts.includes_empty. reflexivity. }
  split; [|split; [|split; [|split; [|split; [|split; [|split]]]]]].
  - intros query. unfold JobsRoute.filterSearch, JobsRoute.given.
    destruct (truthy query) eqn:Et; [reflexivity|].
    apply Hall. destruct query; [reflexivity|discriminate].
  - apply Hall. reflexivity.
  - intros query query' Hq. unfold Database.searchJobs. rewrite Hq. reflexivity.
  - intros id job H. unfold Database.getJobById in H.
    apply find_some in H. destruct H as [Hin Heq].
    split; [exact Hin|apply String.eqb_eq, Heq].
  - intros id. unfold Database.getJobById, Database.getAllJobs. split.
    + intros H job Hin Heq.
      pose proof (find_none _ _ H job Hin) as Hf. cbv beta in Hf.
      rewrite Heq, String.eqb_refl in Hf. discriminate.
    + intros H.
      destruct (find (fun job => (JobsRoute.job_id job =? id)%string) (Database.jobs db))
        as [job|] eqn:Ef; [|reflexivity].
      apply find_some in Ef. destruct Ef as [Hin Heq].
      apply String.eqb_eq in Heq. exfalso. exact (H job Hin Heq).
  - apply JobsFacts.filter_all.
  - apply JobsFacts.filter_all.
  - intros type skills job Hne Hin. unfold Database.filterJobs in Hin.
    apply filter_In in Hin. destruct Hin as [Hin Hkeep].
    split; [exact Hin|].
    apply andb_true_iff in Hkeep. destruct Hkeep as [Ht _].
    unfold JobsRoute.given in Ht.
    apply StringFacts.truthy_spec in Hne. rewrite Hne in Ht.
    apply String.eqb_eq, Ht.
Qed.

(** * Facts on the profile routes over the in-memory database *)

Module ProfileDbFacts.

Import JSString SkillGapRoute ProfileDbRoute.




End ProfileDbFacts.



(** X20: the profile completeness over the in-memory database is 25 times
    the number of complete checks among the four, so it is one of 0, 25,
    50, 75 and 100, and 100 exactly when name, email, education and
    experience are not empty and the profile has a skill; without a
    profile the route answers 404. *)
Theorem database_completeness_is_25_per_check :
  forall (db : Database.t) (userId : string),
    (Database.getProfile db userId = None ->
     ProfileDbRoute.get_completeness db userId =
       ProfileDbRoute.Failure 404 "Profile not found") /\
    (forall profile,
        Database.getProfile db userId = Some profile ->
        exists percentage,
          ProfileDbRoute.get_completeness db userId =
            ProfileDbRoute.Completeness percentage (ProfileDbRoute.checks profile) /\
          percentage =
            (25 * Z.of_nat (List.length (filter snd (ProfileDbRoute.checks profile))))%Z /\
          (0 <= percentage <= 100)%Z /\
          (percentage = 100%Z <->
           SkillGapRoute.profile_name profile <> "" /\
           SkillGapRoute.email profile <> "" /\
           SkillGapRoute.education profile <> "" /\
           SkillGapRoute.profile_experience profile <> "" /\
           SkillGapRoute.profile_skills profile <> [])).
Proof.
  intros db userId. unfold ProfileDbRoute.get_completeness. split.
  - intros ->. reflexivity.
  - intros profile ->. eexists. split; [reflexivity|].
    unfold ProfileDbRoute.checks.
    rewrite <- !StringFacts.truthy_spec.
    assert (Hs : SkillGapRoute.profile_skills profile <> [] <->
                 (0 <? List.length (SkillGapRoute.profile_skills profile))%nat = true).
    { destruct (SkillGapRoute.profile_skills profile); cbn; split; intros H;
        try reflexivity; try discriminate. contradiction. }
    rewrite Hs.
    destruct (truthy (SkillGapRoute.profile_name profile)),
      (truthy (SkillGapRoute.email profile)),
      (truthy (SkillGapRoute.education profile)),
      (truthy (SkillGapRoute.profile_experience profile)),
      ((0 <? List.length (SkillGapRoute.profile_skills profile))%nat);
      (split; [vm_compute; reflexivity|]);
      (split; [vm_compute; split; discriminate|]);
      vm_compute; split; try discriminate; try tauto;
      intros (H1 & H2 & H3 & H4 & H5); discriminate.
Qed.

(** * Facts on the accounts of the in-memory database *)

Module AccountFacts.

Import JSString Database AuthRoute.

Lemma length_truthy password : (6 <= String.length password)%nat -> truthy password = true.
Proof. destruct password; cbn; [lia|reflexivity]. Qed.

Lemma lower_truthy a b :
  toLowerCase a = toLowerCase b -> truthy b = true -> truthy a = true.
Proof.
  intros H Hb. destruct a; [|reflexivity].
  destruct b; [exact Hb|discriminate].
Qed.

Lemma findUserByEmail_lower db a b :
  toLowerCase a = toLowerCase b -> findUserByEmail db a = findUserByEmail db b.
Proof. unfold findUserByEmail. intros ->. reflexivity. Qed.

(** No user has an email that [findUserByEmail] does not find. *)
Lemma findUserByEmail_none db email :
  findUserByEmail db email = None ->
  ~ In (toLowerCase email)
       (map (fun entry => user_email (snd entry)) (users db)).
Proof.
  unfold findUserByEmail. intros Hnone Hin.
  apply in_map_iff in Hin. destruct Hin as ([k u] & Heq & Hin).
  cbn [snd] in Heq.
  pose proof (find_none _ _ Hnone u (in_map snd _ _ Hin)) as Hf.
  cbv beta in Hf. rewrite Heq, String.eqb_refl in Hf. discriminate.
Qed.

(** What a registration that passes the checks does. *)
Lemma post_register_created sign db uuid hashedPassword now name email password :
  name <> "" -> email <> "" -> (6 <= String.length password)%nat ->
  findUserByEmail db email = None ->
  post_register sign db uuid hashedPassword now name email password =
  (Authenticated 201 "User registered successfully"
     (sign (payload (fst (createUser db uuid hashedPassword now name email))))
     (public (fst (createUser db uuid hashedPassword now name email))),
   snd (createUser db uuid hashedPassword now name email)).
Proof.
  intros Hn He Hp Hfree. unfold post_register.
  apply StringFacts.truthy_spec in Hn, He. rewrite Hn, He, (length_truthy _ Hp).
  cbn [negb orb].
  destruct (Nat.ltb_spec (String.length password) 6) as [Hlt|_]; [lia|].
  rewrite Hfree. reflexivity.
Qed.

(** A registration that is refused leaves the database as it is. *)
Lemma post_register_refused sign db uuid hashedPassword now name email password
      status message db' :
  post_register sign db uuid hashedPassword now name email password =
    (Failure status message, db') -> db' = db.
Proof.
  unfold post_register.
  destruct (negb (truthy name) || negb (truthy email) || negb (truthy password));
    [intros H; injection H as H1 H2 H3; symmetry; exact H3|].
  destruct (String.length password <? 6)%nat;
    [intros H; injection H as H1 H2 H3; symmetry; exact H3|].
  destruct (findUserByEmail db email);
    [intros H; injection H as H1 H2 H3; symmetry; exact H3|].
  cbn. discriminate.
Qed.

Lemma createUser_consistent db uuid hashedPassword now name email :
  consistent db ->
  findUserById db uuid = None -> findUserByEmail db email = None ->
  consistent (snd (createUser db uuid hashedPassword now name email)).
Proof.
  intros [Hnd Hall] Hid Hemail. unfold consistent, createUser.
  cbn [snd users user_id]. unfold findUserById, getProfile in *.
  cbn [users profiles]. split.
  - rewrite (DatabaseFacts.map_set_fresh _ _ _ Hid), map_app.
    cbn [map snd user_email].
    apply NoDup_app_remove_r with (l' := []). rewrite app_nil_r.
    apply Permutation_NoDup with
      (l := toLowerCase email ::
            map (fun entry => user_email (snd entry)) (users db)).
    + apply Permutation_cons_append.
    + constructor; [apply findUserByEmail_none, Hemail|exact Hnd].
  - intros userId user.
    destruct (String.eqb_spec userId uuid) as [->|Hne].
    + rewrite !DatabaseFacts.map_get_set_same.
      intros H. injection H as <-. split; [reflexivity|].
      eexists. split; [reflexivity|]. split; reflexivity.
    + rewrite !(DatabaseFacts.map_get_set_other _ _ _ _ Hne). apply Hall.
Qed.

Lemma updateProfile_consistent db userId updates now :
  consistent db -> consistent (snd (updateProfile db userId updates now)).
Proof.
  intros [Hnd Hall]. unfold updateProfile.
  destruct (map_get (profiles db) userId) as [profile|] eqn:Ep; cbn [snd];
    [|split; assumption].
  unfold consistent, findUserById, getProfile in *. cbn [users profiles].
  split; [exact Hnd|]. intros id user Hu.
  destruct (Hall id user Hu) as [Hid (p & Hp & Hpid & Hpe)].
  split; [exact Hid|].
  destruct (String.eqb_spec id userId) as [->|Hne].
  - rewrite DatabaseFacts.map_get_set_same. rewrite Ep in Hp. injection Hp as <-.
    eexists. split; [reflexivity|]. split; [exact Hpid|exact Hpe].
  - rewrite (DatabaseFacts.map_get_set_other _ _ _ _ Hne).
    exists p. split; [exact Hp|]. split; [exact Hpid|exact Hpe].
Qed.

End AccountFacts.

(** X21: the checks of [POST /register]: a missing or empty name, email or
    password is answered with 400, then a password of fewer than 6 code
    units with 400, then an email that a user already has, whatever its
    letter case, with 409; every refused registration leaves the database
    as it is. *)
Theorem register_checks_in_order :
  forall (sign : JwtMiddleware.Payload -> string) (db : Database.t)
         (uuid hashedPassword : string) (now : Z) (name email password : string),
    let answer :=
      AuthRoute.post_register sign db uuid hashedPassword now name email password in
    ((name = "" \/ email = "" \/ password = "") ->
     answer = (AuthRoute.Failure 400 "Name, email, and password are required", db)) /\
    (name <> "" -> email <> "" -> password <> "" ->
     (String.length password < 6)%nat ->
     answer = (AuthRoute.Failure 400 "Password must be at least 6 characters", db)) /\
    (name <> "" -> email <> "" -> (6 <= String.length password)%nat ->
     forall spelling existingUser,
       toLowerCase spelling = toLowerCase email ->
       Database.findUserByEmail db spelling = Some existingUser ->
       answer = (AuthRoute.Failure 409 "User with this email already exists", db)) /\
    (forall status message db',
        answer = (AuthRoute.Failure status message, db') -> db' = db).
Proof.
  intros sign db uuid hashedPassword now name email password answer.
  subst answer. split; [|split; [|split]].
  - intros H. unfold AuthRoute.post_register.
    assert (Hb : negb (truthy name) || negb (truthy email) || negb (truthy password)
                 = true).
    { destruct H as [-> | [-> | ->]]; cbn; rewrite ?orb_true_r; reflexivity. }
    rewrite Hb. reflexivity.
  - intros Hn He Hp Hlen. unfold AuthRoute.post_register.
    apply StringFacts.truthy_spec in Hn, He, Hp. rewrite Hn, He, Hp.
    cbn [negb orb]. apply Nat.ltb_lt in Hlen. rewrite Hlen. reflexivity.
  - intros Hn He Hp spelling existingUser Hs Hfound.
    unfold AuthRoute.post_register.
    apply StringFacts.truthy_spec in Hn, He.
    rewrite Hn, He, (AccountFacts.length_truthy _ Hp). cbn [negb orb].
    destruct (Nat.ltb_spec (String.length password) 6) as [Hlt|_]; [lia|].
    rewrite <- (AccountFacts.findUserByEmail_lower db spelling email Hs), Hfound.
    reflexivity.
  - intros status message db'. apply AccountFacts.post_register_refused.
Qed.

(** X22: registration followed by login: when the checks pass, the id is
    new, no user has the email and [bcrypt.compare] accepts the password
    against its hash, the user is created with the email lower-cased and
    [POST /login] with the password succeeds for every spelling of the
    email that differs in letter case only, with the same user and token
    claims; a password that [bcrypt.compare] rejects is answered with 401,
    a second registration of the email with 409, and [GET /me] returns the
    user. *)
Theorem register_then_login :
  forall (sign : JwtMiddleware.Payload -> string)
         (verifyPassword : string -> string -> bool) (db : Database.t)
         (uuid hashedPassword : string) (now : Z) (name email password : string),
    name <> "" -> email <> "" -> (6 <= String.length password)%nat ->
    Database.findUserById db uuid = None ->
    Database.findUserByEmail db email = None ->
    verifyPassword password hashedPassword = true ->
    let db' :=
      snd (AuthRoute.post_register sign db uuid hashedPassword now name email password) in
    exists user,
      fst (AuthRoute.post_register sign db uuid hashedPassword now name email password) =
        AuthRoute.Authenticated 201 "User registered successfully"
          (sign (AuthRoute.payload user)) (AuthRoute.public user) /\
      Database.user_id user = uuid /\
      Database.user_email user = toLowerCase email /\
      Database.user_name user = name /\
      (forall spelling,
          toLowerCase spelling = toLowerCase email ->
          AuthRoute.post_login sign verifyPassword db' spelling password =
          AuthRoute.Authenticated 200 "Login successful"
            (sign (AuthRoute.payload user)) (AuthRoute.public user)) /\
      (forall spelling other,
          toLowerCase spelling = toLowerCase email ->
          other <> "" -> verifyPassword other hashedPassword = false ->
          AuthRoute.post_login sign verifyPassword db' spelling other =
          AuthRoute.Failure 401 "Invalid email or password") /\
      (forall spelling uuid' hashedPassword' now' name' password',
          toLowerCase spelling = toLowerCase email ->
          name' <> "" -> (6 <= String.length password')%nat ->
          AuthRoute.post_register sign db' uuid' hashedPassword' now' name' spelling
                                  password' =
          (AuthRoute.Failure 409 "User with this email already exists", db')) /\
      AuthRoute.get_me db' uuid = AuthRoute.CurrentUser (AuthRoute.public user).
Proof.
  intros sign verifyPassword db uuid hashedPassword now name email password
         Hn He Hp Hid Hemail Hverify db'.
  subst db'.
  rewrite (AccountFacts.post_register_created sign db uuid hashedPassword now name
             email password Hn He Hp Hemail).
  cbn [fst snd].
  set (user := fst (Database.createUser db uuid hashedPassword now name email)).
  set (db' := snd (Database.createUser db uuid hashedPassword now name email)).
  assert (Hfound : forall spelling,
             toLowerCase spelling = toLowerCase email ->
             Database.findUserByEmail db' spelling = Some user).
  { intros spelling Hs. subst db' user.
    unfold Database.createUser, Database.findUserByEmail in *.
    cbn [fst snd Database.users Database.user_id]. rewrite Hs.
    unfold Database.findUserById in Hid.
    rewrite (DatabaseFacts.map_set_fresh _ _ _ Hid), map_app.
    cbn [map snd]. rewrite (DatabaseFacts.find_none_app _ _ _ Hemail).
    cbn [Database.user_email]. rewrite String.eqb_refl. reflexivity. }
  assert (Het : truthy email = true) by (apply StringFacts.truthy_spec, He).
  exists user. split; [reflexivity|].
  split; [reflexivity|]. split; [reflexivity|]. split; [reflexivity|].
  split; [|split; [|split]].
  - intros spelling Hs. unfold AuthRoute.post_login.
    rewrite (AccountFacts.lower_truthy _ _ Hs Het), (AccountFacts.length_truthy _ Hp).
    cbn [negb orb]. rewrite (Hfound spelling Hs).
    change (Database.password user) with hashedPassword.
    rewrite Hverify. reflexivity.
  - intros spelling other Hs Hother Hreject. unfold AuthRoute.post_login.
    apply StringFacts.truthy_spec in Hother.
    rewrite (AccountFacts.lower_truthy _ _ Hs Het), Hother.
    cbn [negb orb]. rewrite (Hfound spelling Hs).
    change (Database.password user) with hashedPassword.
    rewrite Hreject. reflexivity.
  - intros spelling uuid' hashedPassword' now' name' password' Hs Hn' Hp'.
    unfold AuthRoute.post_register.
    apply StringFacts.truthy_spec in Hn'.
    rewrite Hn', (AccountFacts.lower_truthy _ _ Hs Het),
      (AccountFacts.length_truthy _ Hp').
    cbn [negb orb].
    destruct (Nat.ltb_spec (String.length password') 6) as [Hlt|_]; [lia|].
    rewrite (Hfound spelling Hs). reflexivity.
  - unfold AuthRoute.get_me, Database.findUserById. subst db' user.
    unfold Database.createUser. cbn [fst snd Database.users Database.user_id].
    rewrite DatabaseFacts.map_get_set_same. reflexivity.
Qed.

Lemma register_then_login_witness :
  AuthRoute.post_login (fun user => JwtMiddleware.payload_id user) String.eqb
    (snd (AuthRoute.post_register (fun user => JwtMiddleware.payload_id user)
            Database.empty "id-1" "secret1" 5 "Ada" "Ada@Example.com" "secret1"))
    "ada@example.COM" "secret1" =
  AuthRoute.Authenticated 200 "Login successful" "id-1"
    {| AuthRoute.id := "id-1"; AuthRoute.name := "Ada";
       AuthRoute.email := "ada@example.com" |}.
Proof.
  assert (Hn : "Ada" <> "") by discriminate.
  assert (He : "Ada@Example.com" <> "") by discriminate.
  assert (Hp : (6 <= String.length "secret1")%nat) by (cbn; lia).
  assert (Hid : Database.findUserById Database.empty "id-1" = None) by reflexivity.
  assert (Hemail : Database.findUserByEmail Database.empty "Ada@Example.com" = None)
    by reflexivity.
  assert (Hv : String.eqb "secret1" "secret1" = true) by reflexivity.
  destruct (register_then_login (fun user => JwtMiddleware.payload_id user) String.eqb
              Database.empty "id-1" "secret1" 5 "Ada" "Ada@Example.com" "secret1"
              Hn He Hp Hid Hemail Hv)
    as (user & Hreg & Hu & Hm & Hname & Hlogin & _).
  rewrite (Hlogin "ada@example.COM" eq_refl).
  unfold AuthRoute.public, AuthRoute.payload. cbn [JwtMiddleware.payload_id].
  rewrite Hu, Hm, Hname. reflexivity.
Defined.

(** X23: an invariant of the in-memory database under the routes: the new
    database satisfies it, and when it holds (the key of a user is its id,
    no two users have the same email, every user has a profile with its id
    and email) it holds again after [POST /register] with a new id, after
    [PUT /profile], [POST /profile/skills], [DELETE /profile/skills/:skill]
    and after the upload and the removal of a resume; so a registered user
    always has a profile. *)
Theorem routes_keep_database_consistent :
  forall db : Database.t,
    AuthRoute.consistent db ->
    (forall sign uuid hashedPassword now name email password,
        Database.findUserById db uuid = None ->
        AuthRoute.consistent
          (snd (AuthRoute.post_register sign db uuid hashedPassword now name email
                                        password))) /\
    (forall userId body now,
        AuthRoute.consistent (snd (ProfileDbRoute.put_profile db userId body now))) /\
    (forall userId skill now,
        AuthRoute.consistent (snd (ProfileDbRoute.post_skills db userId skill now))) /\
    (forall userId skill now,
        AuthRoute.consistent (snd (ProfileDbRoute.delete_skill db userId skill now))) /\
    (forall userId file now,
        AuthRoute.consistent (snd (UploadDbRoute.post_upload db userId file now))) /\
    (forall userId now,
        AuthRoute.consistent (UploadDbRoute.delete_resume db userId now)) /\
    (forall userId user,
        Database.findUserById db userId = Some user ->
        exists profile,
          ProfileDbRoute.get_profile db userId = ProfileDbRoute.ProfileData profile /\
          SkillGapRoute.email profile = Database.user_email user).
Proof.
  intros db Hc. split; [|split; [|split; [|split; [|split; [|split]]]]].
  - intros sign uuid hashedPassword now name email password Hid.
    unfold AuthRoute.post_register.
    destruct (negb (truthy name) || negb (truthy email) || negb (truthy password));
      [exact Hc|].
    destruct (String.length password <? 6)%nat; [exact Hc|].
    destruct (Database.findUserByEmail db email) eqn:Hemail; [exact Hc|].
    apply (AccountFacts.createUser_consistent db uuid hashedPassword now name email
             Hc Hid Hemail).
  - intros userId body now. unfold ProfileDbRoute.put_profile.
    match goal with
    | |- context [Database.updateProfile db userId ?u now] =>
        pose proof (AccountFacts.updateProfile_consistent db userId u now Hc) as Hu;
        destruct (Database.updateProfile db userId u now) as [[p|] db']
    end; exact Hu.
  - intros userId skill now. unfold ProfileDbRoute.post_skills.
    destruct skill; try exact Hc.
    destruct (truthy s); [|exact Hc].
    destruct (Database.getProfile db userId) as [profile|]; [|exact Hc].
    destruct (SkillGapRoute.array_includes (SkillGapRoute.profile_skills profile) s);
      [exact Hc|].
    match goal with
    | |- context [Database.updateProfile db userId ?u now] =>
        pose proof (AccountFacts.updateProfile_consistent db userId u now Hc) as Hu;
        destruct (Database.updateProfile db userId u now) as [p db']
    end; exact Hu.
  - intros userId skill now. unfold ProfileDbRoute.delete_skill.
    destruct (Database.getProfile db userId) as [profile|]; [|exact Hc].
    match goal with
    | |- context [Database.updateProfile db userId ?u now] =>
        pose proof (AccountFacts.updateProfile_consistent db userId u now Hc) as Hu;
        destruct (Database.updateProfile db userId u now) as [p db']
    end; exact Hu.
  - intros userId file now. unfold UploadDbRoute.post_upload.
    destruct file; [|exact Hc]. cbn [snd].
    apply AccountFacts.updateProfile_consistent, Hc.
  - intros userId now. unfold UploadDbRoute.delete_resume.
    destruct (Database.getProfile db userId); [|exact Hc].
    apply AccountFacts.updateProfile_consistent, Hc.
  - intros userId user Hu. destruct Hc as [_ Hall].
    destruct (Hall userId user Hu) as [_ (profile & Hp & _ & He)].
    exists profile. unfold ProfileDbRoute.get_profile. rewrite Hp.
    split; [reflexivity|exact He].
Qed.

Lemma routes_keep_database_consistent_witness :
  AuthRoute.consistent Database.empty /\
  AuthRoute.consistent
    (snd (AuthRoute.post_register (fun user => JwtMiddleware.payload_id user)
            Database.empty "id-1" "hash" 5 "Ada" "ada@example.com" "secret1")).
Proof.
  assert (Hc : AuthRoute.consistent Database.empty).
  { split; [constructor|]. intros userId user H. discriminate H. }
  split; [exact Hc|].
  exact (proj1 (routes_keep_database_consistent Database.empty Hc)
               (fun user => JwtMiddleware.payload_id user)
               "id-1" "hash" 5 "Ada" "ada@example.com" "secret1" eq_refl).
Defined.

(** * Facts on the upload routes *)

Module UploadFacts.

Import ProfileRoute UploadRoute.
#[local] Open Scope Z_scope.

(** The row created last is the latest. *)
Lemma latest_last rows row :
  Forall (fun r => created_at r < created_at row) rows ->
  latest (rows ++ [row]) = Some row.
Proof.
  induction 1 as [|r rows Hr _ IH]; [reflexivity|].
  cbn [app latest]. rewrite IH.
  destruct (Z.ltb_spec (created_at r) (created_at row)) as [_|Hge]; [reflexivity|lia].
Qed.

Lemma getLatestResume_last resumes row :
  Forall (fun r => created_at r < created_at row) resumes ->
  getLatestResume (resumes ++ [row]) (user_id row) = Some row.
Proof.
  intros Hall. unfold getLatestResume. rewrite filter_app. cbn [filter].
  rewrite String.eqb_refl. apply latest_last.
  apply Forall_forall. intros r Hin. apply filter_In in Hin.
  rewrite Forall_forall in Hall. apply Hall, Hin.
Qed.

Lemma getLatestResume_other resumes row other :
  other <> user_id row ->
  getLatestResume (resumes ++ [row]) other = getLatestResume resumes other.
Proof.
  intros Hne. unfold getLatestResume. rewrite filter_app. cbn [filter].
  destruct (String.eqb_spec (user_id row) other) as [Heq|_]; [congruence|].
  rewrite app_nil_r. reflexivity.
Qed.

Lemma filter_users (userId other : string) resumes :
  filter (fun r => (user_id r =? other)%string)
         (filter (fun r => negb (user_id r =? userId)%string) resumes) =
  if (other =? userId)%string then []
  else filter (fun r => (user_id r =? other)%string) resumes.
Proof.
  induction resumes as [|r resumes IH].
  - cbn. destruct (other =? userId)%string; reflexivity.
  - cbn [filter].
    destruct (String.eqb_spec (user_id r) userId) as [Hu|Hu]; cbn [negb filter].
    + rewrite IH. destruct (String.eqb_spec other userId) as [Ho|Ho]; [reflexivity|].
      destruct (String.eqb_spec (user_id r) other) as [Hr|Hr]; [congruence|reflexivity].
    + destruct (String.eqb_spec (user_id r) other) as [Hr|Hr]; rewrite IH.
      * destruct (String.eqb_spec other userId) as [Ho|Ho]; [congruence|reflexivity].
      * reflexivity.
Qed.

End UploadFacts.

(** X24: the upload route over the [resumes] table: an accepted upload
    inserts a resume with the URL [/uploads/<filename>] and the five fixed
    skills, so (the clock being later than every stored resume) the skills
    read back for the user are those five, whatever was stored before, and
    [GET /status] reports the URL; [DELETE /] removes every resume of the
    user, after which the user has no stored skill and no resume; the
    latest resume of every other user stays as it is.  Without a file the
    answer is 400, a refused insert or delete is answered with 500, and
    the table is unchanged. *)
Theorem upload_replaces_stored_skills :
  forall (resumes : list ProfileRoute.ResumeRow) (defaults : ProfileRoute.Defaults)
         (userId filename : string),
    Forall (fun r => (ProfileRoute.created_at r < ProfileRoute.now defaults)%Z)
           resumes ->
    let url := "/uploads/" ++ filename in
    let uploaded :=
      snd (UploadRoute.post_upload resumes defaults userId (Some filename) None) in
    let deleted := snd (UploadRoute.delete_resume uploaded userId None) in
    fst (UploadRoute.post_upload resumes defaults userId (Some filename) None) =
      UploadRoute.Uploaded url ["React"; "TypeScript"; "Node.js"; "Python"; "AWS"] /\
    ProfileRoute.stored_skills uploaded userId =
      ["React"; "TypeScript"; "Node.js"; "Python"; "AWS"] /\
    UploadRoute.get_status uploaded userId = (true, Some url) /\
    UploadRoute.get_status deleted userId = (false, None) /\
    ProfileRoute.stored_skills deleted userId = [] /\
    (forall other, other <> userId ->
       ProfileRoute.getLatestResume uploaded other =
         ProfileRoute.getLatestResume resumes other /\
       ProfileRoute.getLatestResume deleted other =
         ProfileRoute.getLatestResume resumes other) /\
    (forall insertError,
        UploadRoute.post_upload resumes defaults userId None insertError =
          (UploadRoute.Failure 400 "No file uploaded", resumes)) /\
    (forall message,
        UploadRoute.post_upload resumes defaults userId (Some filename) (Some message) =
          (UploadRoute.Failure 500 message, resumes) /\
        UploadRoute.delete_resume resumes userId (Some message) =
          (UploadRoute.Failure 500 message, resumes)).
Proof.
  intros resumes defaults userId filename Hclock url uploaded deleted.
  set (row := {| ProfileRoute.resume_id := ProfileRoute.new_id defaults;
                 ProfileRoute.user_id := userId;
                 ProfileRoute.file_url := Some url;
                 ProfileRoute.extracted_skills :=
                   JArr (map JStr UploadRoute.extractedSkills);
                 ProfileRoute.parsed_role := None;
                 ProfileRoute.experience_years := None;
                 ProfileRoute.created_at := ProfileRoute.now defaults |}).
  assert (Hup : uploaded = (resumes ++ [row])%list) by reflexivity.
  assert (Hlatest : ProfileRoute.getLatestResume uploaded userId = Some row).
  { rewrite Hup. apply (UploadFacts.getLatestResume_last resumes row), Hclock. }
  assert (Hgone : ProfileRoute.getLatestResume deleted userId = None).
  { subst deleted. cbn [UploadRoute.delete_resume snd].
    unfold ProfileRoute.getLatestResume.
    rewrite UploadFacts.filter_users, String.eqb_refl. reflexivity. }
  split; [reflexivity|]. split; [|split; [|split; [|split; [|split; [|split]]]]].
  - unfold ProfileRoute.stored_skills. rewrite Hlatest. reflexivity.
  - unfold UploadRoute.get_status. rewrite Hlatest.
    cbn [ProfileRoute.file_url row ProfileRoute.present]. subst url.
    reflexivity.
  - unfold UploadRoute.get_status. rewrite Hgone. reflexivity.
  - unfold ProfileRoute.stored_skills. rewrite Hgone. reflexivity.
  - intros other Hother.
    assert (Hkeep : ProfileRoute.getLatestResume uploaded other =
                    ProfileRoute.getLatestResume resumes other).
    { rewrite Hup. apply UploadFacts.getLatestResume_other. exact Hother. }
    split; [exact Hkeep|]. rewrite <- Hkeep.
    subst deleted. cbn [UploadRoute.delete_resume snd].
    unfold ProfileRoute.getLatestResume at 1.
    rewrite UploadFacts.filter_users.
    destruct (String.eqb_spec other userId) as [Heq|_]; [contradiction|reflexivity].
  - reflexivity.
  - intros message. split; reflexivity.
Qed.

Lemma upload_replaces_stored_skills_witness :
  ProfileRoute.stored_skills
    (snd (UploadRoute.post_upload (Samples.one_resume ["Go"]) Samples.defaults "u1"
            (Some "resume-1.pdf") None)) "u1" =
  ["React"; "TypeScript"; "Node.js"; "Python"; "AWS"].
Proof.
  assert (Hclock : Forall (fun r => (ProfileRoute.created_at r <
                                     ProfileRoute.now Samples.defaults)%Z)
                          (Samples.one_resume ["Go"])).
  { repeat constructor. }
  exact (proj1 (proj2 (upload_replaces_stored_skills (Samples.one_resume ["Go"])
                         Samples.defaults "u1" "resume-1.pdf" Hclock))).
Defined.

(** X25: the upload route over the in-memory database stores the URL of the
    file only: for a user with a profile, [GET /status] reports the URL
    after an upload and no resume after [DELETE /], and the skills of the
    profile are the same before and after (the skills in the answer of the
    upload are not stored); for a user without a profile the upload is
    answered like any other but nothing is stored. *)
Theorem database_upload_stores_url_only :
  forall (db : Database.t) (userId filename : string) (now now' : Z),
    let url := "/uploads/" ++ filename in
    let uploaded := snd (UploadDbRoute.post_upload db userId (Some filename) now) in
    let deleted := UploadDbRoute.delete_resume uploaded userId now' in
    fst (UploadDbRoute.post_upload db userId (Some filename) now) =
      Some (url, ["React"; "TypeScript"; "Node.js"; "Python"; "AWS"]) /\
    (forall profile,
        Database.getProfile db userId = Some profile ->
        UploadDbRoute.get_status uploaded userId = (true, Some url) /\
        UploadDbRoute.get_status deleted userId = (false, None) /\
        ProfileDbRoute.skills_of (Database.getProfile uploaded userId) =
          SkillGapRoute.profile_skills profile /\
        ProfileDbRoute.skills_of (Database.getProfile deleted userId) =
          SkillGapRoute.profile_skills profile) /\
    (Database.getProfile db userId = None ->
     uploaded = db /\ UploadDbRoute.get_status uploaded userId = (false, None)) /\
    UploadDbRoute.post_upload db userId None now = (None, db).
Proof.
  intros db userId filename now now' url uploaded deleted.
  split; [reflexivity|]. split; [|split; [|reflexivity]].
  - intros profile Hp.
    assert (Hup : Database.getProfile uploaded userId =
                  Some (Database.merge profile
                          (UploadDbRoute.resume_update (Some url)) now)).
    { subst uploaded. cbn [UploadDbRoute.post_upload snd].
      unfold Database.updateProfile, Database.getProfile in *. rewrite Hp.
      cbn [snd Database.profiles]. apply DatabaseFacts.map_get_set_same. }
    assert (Hdel : Database.getProfile deleted userId =
                   Some (Database.merge
                           (Database.merge profile
                              (UploadDbRoute.resume_update (Some url)) now)
                           (UploadDbRoute.resume_update None) now')).
    { subst deleted. unfold UploadDbRoute.delete_resume. rewrite Hup.
      unfold Database.updateProfile, Database.getProfile in *. rewrite Hup.
      cbn [snd Database.profiles]. apply DatabaseFacts.map_get_set_same. }
    unfold UploadDbRoute.get_status. rewrite Hup, Hdel.
    split; [subst url; reflexivity|]. split; [reflexivity|]. split; reflexivity.
  - intros Hnone.
    assert (Hsame : uploaded = db).
    { subst uploaded. cbn [UploadDbRoute.post_upload snd].
      unfold Database.updateProfile, Database.getProfile in *. rewrite Hnone.
      reflexivity. }
    split; [exact Hsame|]. rewrite Hsame.
    unfold UploadDbRoute.get_status. rewrite Hnone. reflexivity.
Qed.

(** X26: a token issued by [generateToken] authenticates its user: when
    [jwt.verify] returns the claims of what [jwt.sign] made of them and the
    token is not empty and has no space, the middleware lets the header
    [<scheme> <token>] pass with these claims, whatever the scheme word;
    a token that [jwt.verify] rejects is answered with 403, and a header
    without a second piece with 401. *)
Theorem issued_token_authenticates :
  forall (sign : JwtMiddleware.Payload -> string)
         (verify : string -> option JwtMiddleware.Payload)
         (user : JwtMiddleware.Payload) (scheme : string),
    verify (sign user) = Some user ->
    sign user <> "" ->
    free_of AuthMiddleware.space (sign user) ->
    free_of AuthMiddleware.space scheme ->
    JwtMiddleware.authenticateToken verify
      (Some (scheme ++ " " ++ JwtMiddleware.generateToken sign user)) =
      JwtMiddleware.Next user /\
    (forall token,
        token <> "" -> free_of AuthMiddleware.space token -> verify token = None ->
        JwtMiddleware.authenticateToken verify (Some (scheme ++ " " ++ token)) =
        JwtMiddleware.Rejected 403 "Invalid or expired token") /\
    JwtMiddleware.authenticateToken verify (Some scheme) =
      JwtMiddleware.Rejected 401 "Access token required" /\
    JwtMiddleware.authenticateToken verify None =
      JwtMiddleware.Rejected 401 "Access token required".
Proof.
  intros sign verify user scheme Hverify Hne Hfree Hscheme.
  assert (Htoken : forall token,
             token <> "" -> free_of AuthMiddleware.space token ->
             AuthMiddleware.token_of (Some (scheme ++ " " ++ token)) = Some token /\
             truthy token = true).
  { intros token Hn Hf. split; [|apply StringFacts.truthy_spec, Hn].
    cbn [AuthMiddleware.token_of].
    assert (Ht : truthy (scheme ++ " " ++ token) = true).
    { apply StringFacts.truthy_spec. destruct scheme; discriminate. }
    rewrite Ht. change (" " ++ token) with (String " " token).
    rewrite (AuthFacts.split_first AuthMiddleware.space scheme " " token
               Hscheme eq_refl).
    rewrite (AuthFacts.split_whole AuthMiddleware.space token Hf). reflexivity. }
  split; [|split; [|split]].
  - unfold JwtMiddleware.authenticateToken, JwtMiddleware.generateToken.
    destruct (Htoken (sign user) Hne Hfree) as [-> ->]. rewrite Hverify.
    reflexivity.
  - intros token Hn Hf Hreject. unfold JwtMiddleware.authenticateToken.
    destruct (Htoken token Hn Hf) as [-> ->]. rewrite Hreject. reflexivity.
  - unfold JwtMiddleware.authenticateToken. cbn [AuthMiddleware.token_of].
    destruct (truthy scheme) eqn:Et.
    + rewrite (AuthFacts.split_whole AuthMiddleware.space scheme Hscheme).
      reflexivity.
    + rewrite Et. reflexivity.
  - reflexivity.
Qed.

Lemma issued_token_authenticates_witness :
  JwtMiddleware.authenticateToken
    (fun token =>
       if (token =? "t-id-1")%string
       then Some {| JwtMiddleware.payload_id := "id-1";
                    JwtMiddleware.payload_email := "ada@example.com";
                    JwtMiddleware.payload_name := "Ada" |}
       else None)
    (Some "Bearer t-id-1") =
  JwtMiddleware.Next {| JwtMiddleware.payload_id := "id-1";
                        JwtMiddleware.payload_email := "ada@example.com";
                        JwtMiddleware.payload_name := "Ada" |}.
Proof.
  assert (Hne : "t-id-1" <> "") by discriminate.
  assert (Hfree : free_of AuthMiddleware.space "t-id-1") by (repeat constructor).
  assert (Hscheme : free_of AuthMiddleware.space "Bearer") by (repeat constructor).
  exact (proj1 (issued_token_authenticates
                  (fun user => "t-" ++ JwtMiddleware.payload_id user)
                  (fun token =>
                     if (token =? "t-id-1")%string
                     then Some {| JwtMiddleware.payload_id := "id-1";
                                  JwtMiddleware.payload_email := "ada@example.com";
                                  JwtMiddleware.payload_name := "Ada" |}
                     else None)
                  {| JwtMiddleware.payload_id := "id-1";
                     JwtMiddleware.payload_email := "ada@example.com";
                     JwtMiddleware.payload_name := "Ada" |}
                  "Bearer" eq_refl Hne Hfree Hscheme)).
Defined.

(** * Facts on sums and averages of Numbers *)

Module AverageFacts.

Import Number NumberFacts.
#[local] Open Scope Z_scope.

Lemma le_bound_mono r B B' k : B <= B' -> le_bound r B k -> le_bound r B' k.
Proof.
  intros HB. destruct r as [[]|[]| |[] m e]; cbn [le_bound]; try tauto.
  intros [He Hm]. split; [exact He|].
  assert (0 <= 2 ^ (k - e)) by (apply Z.pow_nonneg; lia). nia.
Qed.

(** [shl_align] keeps the value and lowers the exponent to the smaller of
    the two. *)
Lemma shl_align_spec mx ex ex' :
  snd (shl_align mx ex ex') = Z.min ex ex' /\
  Zpos (fst (shl_align mx ex ex')) = Zpos mx * 2 ^ (ex - Z.min ex ex').
Proof.
  unfold shl_align. destruct (ex' - ex) as [|d|d] eqn:Ed; cbn [fst snd].
  - replace (Z.min ex ex') with ex by lia. rewrite Z.sub_diag. split; lia.
  - replace (Z.min ex ex') with ex by lia. rewrite Z.sub_diag. split; lia.
  - replace (Z.min ex ex') with ex' by lia. split; [reflexivity|].
    rewrite iter_xO_spec. f_equal. f_equal. lia.
Qed.

(** The bound of [binary_round_aux_le], for the rounding of a positive
    integer times a power of two. *)
Lemma binary_round_le mx ex B k :
  0 < B < 2 ^ prec -> emin prec emax <= k -> k <= emax - prec -> ex <= k ->
  Zpos mx <= B * 2 ^ (k - ex) ->
  le_bound (binary_round prec emax false mx ex) B k.
Proof.
  intros HB Hk1 Hk2 He Hle. unfold binary_round.
  pose proof (shl_align_spec mx ex (fexp prec emax (Zpos (digits2_pos mx) + ex)))
    as [Hs Hf].
  destruct (shl_align mx ex (fexp prec emax (Zpos (digits2_pos mx) + ex)))
    as [mz ez]. cbn [fst snd] in Hs, Hf. subst ez.
  set (ez := Z.min ex (fexp prec emax (Zpos (digits2_pos mx) + ex))) in *.
  assert (Hez : ez <= ex) by (unfold ez; lia).
  apply binary_round_aux_le; try assumption; try lia.
  - rewrite Hf. replace (k - ez) with (k - ex + (ex - ez)) by lia.
    rewrite Z.pow_add_r by lia.
    assert (0 <= 2 ^ (ex - ez)) by (apply Z.pow_nonneg; lia). nia.
  - intros H. contradiction H. reflexivity.
Qed.

(** The sum of two Numbers that are at most [B1] and [B2] is at most
    [B1 + B2]. *)
Lemma add_le x y B1 B2 :
  0 <= B1 -> 0 <= B2 -> 0 < B1 + B2 < 2 ^ prec ->
  le_bound x B1 0 -> le_bound y B2 0 -> le_bound (add x y) (B1 + B2) 0.
Proof.
  intros H1 H2 HB Hx Hy.
  destruct x as [[]|[]| |[] mx ex]; cbn [le_bound] in Hx; try contradiction;
    destruct y as [[]|[]| |[] my ey]; cbn [le_bound] in Hy; try contradiction.
  - exact I.
  - apply (le_bound_mono _ B2); [lia|exact Hy].
  - apply (le_bound_mono _ B1); [lia|exact Hx].
  - destruct Hx as [Hex Hmx], Hy as [Hey Hmy].
    unfold add, SFadd. cbn [cond_Zopp].
    set (ez := Z.min ex ey).
    destruct (shl_align_spec mx ex ez) as [_ Hax].
    destruct (shl_align_spec my ey ez) as [_ Hay].
    replace (Z.min ex ez) with ez in Hax by (unfold ez; lia).
    replace (Z.min ey ez) with ez in Hay by (unfold ez; lia).
    set (ax := fst (shl_align mx ex ez)) in *.
    set (ay := fst (shl_align my ey ez)) in *.
    change (Zpos ax + Zpos ay) with (Zpos (ax + ay)).
    cbn [binary_normalize].
    assert (Hez : ez <= 0) by (unfold ez; lia).
    apply binary_round_le; try (unfold emin, emax, prec in *; lia); try lia.
    rewrite Pos2Z.inj_add, Hax, Hay. rewrite Z.sub_0_l in *.
    assert (Hx' : Zpos mx * 2 ^ (ex - ez) <= B1 * 2 ^ (- ez)).
    { replace (- ez) with (- ex + (ex - ez)) by lia.
      rewrite Z.pow_add_r by (unfold ez; lia).
      assert (0 <= 2 ^ (ex - ez)) by (apply Z.pow_nonneg; unfold ez; lia). nia. }
    assert (Hy' : Zpos my * 2 ^ (ey - ez) <= B2 * 2 ^ (- ez)).
    { replace (- ez) with (- ey + (ey - ez)) by lia.
      rewrite Z.pow_add_r by (unfold ez; lia).
      assert (0 <= 2 ^ (ey - ez)) by (apply Z.pow_nonneg; unfold ez; lia). nia. }
    lia.
Qed.

(** A Number that is at most [B * n], divided by the length [n], is at
    most [B]. *)
Lemma div_le_bound x n B :
  (0 < n)%nat -> Z.of_nat n < 2 ^ prec -> 0 < B < 2 ^ prec ->
  le_bound x (B * Z.of_nat n) 0 -> le_bound (div x (of_nat n)) B 0.
Proof.
  intros Hn Hlt HB Hx.
  destruct (of_nat_pos n Hn Hlt) as (pt & et & Et & Hte & Het & Hpt).
  destruct x as [[]|[]| |[] mx ex]; cbn [le_bound] in Hx; try contradiction.
  { rewrite Et. exact I. }
  destruct Hx as [Hex Hmx]. rewrite Z.sub_0_l in Hmx.
  rewrite Et. unfold div, SFdiv, SFdiv_core_binary.
  pose proof (Zdigits2_pos_lower pt) as [Hptlo Hpthi].
  change (Zdigits2 (Zpos pt)) with (Zpos (digits2_pos pt)).
  change (Zdigits2 (Zpos mx)) with (Zpos (digits2_pos mx)).
  set (dt := Zpos (digits2_pos pt)) in *.
  set (dx := Zpos (digits2_pos mx)) in *.
  assert (Hpe : 0 < 2 ^ (- et)) by (apply Z.pow_pos_nonneg; lia).
  assert (Hpx : 0 < 2 ^ (- ex)) by (apply Z.pow_pos_nonneg; lia).
  assert (Hn1 : 1 <= Z.of_nat n) by lia.
  assert (Hdt : 0 < dt + et).
  { destruct (Z_lt_le_dec 0 (dt + et)) as [H|H]; [exact H|exfalso].
    assert (2 ^ dt <= 2 ^ (- et)) by (apply Z.pow_le_mono_r; lia). nia. }
  assert (Hnlt : Z.of_nat n < 2 ^ (dt + et)).
  { assert (Hsplit : 2 ^ dt = 2 ^ (dt + et) * 2 ^ (- et)).
    { rewrite <- Z.pow_add_r by lia. f_equal. lia. }
    rewrite Hsplit, Hpt in Hpthi. nia. }
  assert (Hdx : dx <= prec + (dt + et) - ex).
  { apply (Zdigits2_bound (Zpos mx)); [lia|unfold prec; lia|].
    replace (prec + (dt + et) - ex) with (prec + (dt + et) + - ex) by lia.
    rewrite !Z.pow_add_r by (unfold prec; lia).
    assert (Hb : B * Z.of_nat n < 2 ^ prec * 2 ^ (dt + et)).
    { assert (0 < 2 ^ (dt + et)) by (apply Z.pow_pos_nonneg; lia).
      assert (0 < 2 ^ prec) by (apply Z.pow_pos_nonneg; unfold prec; lia). nia. }
    nia. }
  set (e' := Z.min (fexp prec emax (dx + ex - (dt + et))) (ex - et)).
  assert (He' : e' <= ex - et) by (unfold e'; lia).
  assert (He0 : e' <= 0).
  { unfold e', fexp, emin, emax, prec in *. lia. }
  set (s := ex - et - e').
  set (M := match s with Zpos _ => Z.shiftl (Zpos mx) s | Z0 => Zpos mx | Zneg _ => 0 end).
  assert (Hs : 0 <= s) by (unfold s; lia).
  assert (HM : M = Zpos mx * 2 ^ s) by (apply shift_case; exact Hs).
  assert (Hp : 0 < 2 ^ (- e')) by (apply Z.pow_pos_nonneg; lia).
  assert (HMle : M <= B * Zpos pt * 2 ^ (- e')).
  { rewrite HM, Hpt.
    assert (Hexp : 2 ^ (- ex) * 2 ^ s = 2 ^ (- et) * 2 ^ (- e')).
    { rewrite <- !Z.pow_add_r by lia. f_equal. unfold s. lia. }
    assert (Hps : 0 <= 2 ^ s) by (apply Z.pow_nonneg; lia).
    assert (H1 : Zpos mx * 2 ^ s <= B * Z.of_nat n * 2 ^ (- ex) * 2 ^ s)
      by (apply Z.mul_le_mono_nonneg_r; [exact Hps|exact Hmx]).
    replace (B * (Z.of_nat n * 2 ^ (- et)) * 2 ^ (- e'))
      with (B * Z.of_nat n * (2 ^ (- et) * 2 ^ (- e'))) by ring.
    rewrite <- Hexp. lia. }
  pose proof (Z_div_mod M (Zpos pt) eq_refl) as Hdm.
  unfold Z.div_eucl at 1 in Hdm. fold (Z.div_eucl M (Zpos pt)) in Hdm.
  destruct (Z.div_eucl M (Zpos pt)) as [q r] eqn:Eqr.
  destruct Hdm as [Hq Hr].
  assert (HM0 : 0 <= M) by (rewrite HM; apply Z.mul_nonneg_nonneg; [lia|apply Z.pow_nonneg; lia]).
  assert (Hq0 : 0 <= q) by nia.
  assert (Hqle : Zpos pt * q <= Zpos pt * (B * 2 ^ (- e'))) by lia.
  cbn [xorb].
  apply binary_round_aux_le; try (unfold emin, emax, prec; lia); try lia.
  - rewrite Z.sub_0_l. nia.
  - intros Hne. rewrite Z.sub_0_l.
    assert (r <> 0) by (intros ->; apply Hne; apply new_location_exact; reflexivity).
    nia.
Qed.

End AverageFacts.

(** * Facts on the average match *)

Module AverageMatchFacts.

Import JSString SkillGapRoute Number NumberFacts.
#[local] Open Scope Z_scope.

Lemma matchingCount_filter userSkills jobSkills :
  matchingCount userSkills jobSkills =
  List.length
    (filter (fun s => array_includes (map toLowerCase userSkills) (toLowerCase s))
            jobSkills).
Proof.
  unfold matchingCount.
  rewrite <- (GapFacts.filter_by_index toLowerCase
                (array_includes (map toLowerCase userSkills)) jobSkills).
  rewrite length_map. reflexivity.
Qed.

Lemma matchingCount_le userSkills jobSkills :
  (matchingCount userSkills jobSkills <= List.length jobSkills)%nat.
Proof. rewrite matchingCount_filter. apply filter_length_le. Qed.

Lemma statsMatch_le userSkills jobSkills :
  array_length_ok jobSkills -> le_bound (statsMatch userSkills jobSkills) 100 0.
Proof.
  intros Hlen. unfold statsMatch.
  destruct (Nat.ltb_spec 0 (List.length jobSkills)) as [Hpos|_]; [|exact I].
  apply PercentageFacts.percentage_finite.
  - exact Hpos.
  - apply matchingCount_le.
  - apply PercentageFacts.array_length_below_2_53, Hlen.
Qed.

Lemma fold_add_le userSkills jobs acc A :
  Forall array_length_ok jobs ->
  0 <= A -> A + 100 * Z.of_nat (List.length jobs) < 2 ^ prec ->
  le_bound acc A 0 ->
  le_bound (fold_left (fun total jobSkills => add total (statsMatch userSkills jobSkills))
                      jobs acc)
           (A + 100 * Z.of_nat (List.length jobs)) 0.
Proof.
  intros Hall. revert acc A.
  induction Hall as [|jobSkills jobs Hj _ IH]; intros acc A HA Hlt Hacc.
  - cbn [fold_left List.length]. rewrite Z.mul_0_r, Z.add_0_r. exact Hacc.
  - cbn [fold_left]. rewrite length_cons, Nat2Z.inj_succ in *.
    replace (A + 100 * Z.succ (Z.of_nat (List.length jobs)))
      with ((A + 100) + 100 * Z.of_nat (List.length jobs)) in * by lia.
    apply IH; [lia|exact Hlt|].
    apply AverageFacts.add_le; try lia; [exact Hacc|apply statsMatch_le, Hj].
Qed.

Lemma totalMatch_le userSkills jobs :
  Forall array_length_ok jobs -> array_length_ok jobs ->
  le_bound (totalMatch userSkills jobs) (100 * Z.of_nat (List.length jobs)) 0.
Proof.
  intros Hall Hlen. unfold totalMatch.
  assert (Hn : 100 * Z.of_nat (List.length jobs) < 2 ^ prec).
  { unfold array_length_ok in Hlen.
    change (2 ^ 32) with 4294967296 in Hlen.
    change (2 ^ prec) with 9007199254740992. lia. }
  apply (fold_add_le userSkills jobs (of_nat 0) 0 Hall); [lia|lia|exact I].
Qed.

Lemma averageMatch_range userSkills jobs :
  Forall array_length_ok jobs -> array_length_ok jobs ->
  0 <= averageMatch userSkills jobs <= 100.
Proof.
  intros Hall Hlen. unfold averageMatch.
  destruct (Nat.ltb_spec 0 (List.length jobs)) as [Hpos|_]; [|lia].
  apply Math_round_le, AverageFacts.div_le_bound.
  - exact Hpos.
  - apply PercentageFacts.array_length_below_2_53, Hlen.
  - change (2 ^ prec) with 9007199254740992. lia.
  - apply totalMatch_le; assumption.
Qed.

(** A job all of whose skills the user has matches at 100, a job of which
    the user has no skill at 0. *)
Lemma statsMatch_all userSkills jobSkills :
  jobSkills <> [] -> array_length_ok jobSkills ->
  matchingCount userSkills jobSkills = List.length jobSkills ->
  geb (statsMatch userSkills jobSkills) (of_nat 50) = true.
Proof.
  intros Hne Hlen Hall. unfold statsMatch. rewrite Hall.
  destruct (Nat.ltb_spec 0 (List.length jobSkills)) as [Hpos|Hz].
  - rewrite (div_self _ Hpos (PercentageFacts.array_length_below_2_53 _ Hlen)).
    vm_compute. reflexivity.
  - destruct jobSkills; [contradiction|cbn in Hz; lia].
Qed.

Lemma statsMatch_none userSkills jobSkills :
  array_length_ok jobSkills ->
  matchingCount userSkills jobSkills = 0%nat ->
  geb (statsMatch userSkills jobSkills) (of_nat 50) = false.
Proof.
  intros Hlen Hnone. unfold statsMatch. rewrite Hnone.
  destruct (Nat.ltb_spec 0 (List.length jobSkills)) as [Hpos|Hz]; [|reflexivity].
  destruct (of_nat_pos _ Hpos (PercentageFacts.array_length_below_2_53 _ Hlen))
    as (m & e & -> & _).
  reflexivity.
Qed.

Lemma filter_none {A} (f : A -> bool) l :
  (forall x, In x l -> f x = false) -> filter f l = [].
Proof.
  induction l as [|x l IH]; intros H; [reflexivity|].
  cbn [filter]. rewrite (H x (or_introl eq_refl)).
  apply IH. intros y Hy. apply H. right. exact Hy.
Qed.

End AverageMatchFacts.

(** X27: the [averageMatch] of [GET /skill-gap/stats] is a whole percentage
    between 0 and 100, computed in binary64 as the rounded mean of the
    unrounded matches of the jobs; a job all of whose skills the user has
    (up to letter case) counts as an opportunity, and a job of which the
    user has no skill does not. *)
Theorem average_match_is_a_percentage :
  forall (userSkills : list string) (jobs : list (list string)),
    array_length_ok jobs ->
    Forall array_length_ok jobs ->
    (0 <= SkillGapRoute.stats_averageMatch (SkillGapRoute.stats userSkills jobs)
       <= 100)%Z /\
    (forall jobSkills,
        array_length_ok jobSkills -> jobSkills <> [] ->
        (forall skill, In skill jobSkills ->
           exists userSkill,
             In userSkill userSkills /\ toLowerCase userSkill = toLowerCase skill) ->
        SkillGapRoute.opportunities userSkills (jobSkills :: jobs) =
        S (SkillGapRoute.opportunities userSkills jobs)) /\
    (forall jobSkills,
        array_length_ok jobSkills ->
        (forall skill userSkill,
           In skill jobSkills -> In userSkill userSkills ->
           toLowerCase userSkill <> toLowerCase skill) ->
        SkillGapRoute.opportunities userSkills (jobSkills :: jobs) =
        SkillGapRoute.opportunities userSkills jobs).
Proof.
  intros userSkills jobs Hlen Hall.
  split; [apply AverageMatchFacts.averageMatch_range; assumption|]. split.
  - intros jobSkills Hok Hne Hmatch.
    unfold SkillGapRoute.opportunities. cbn [filter].
    rewrite AverageMatchFacts.statsMatch_all; [reflexivity|exact Hne|exact Hok|].
    rewrite AverageMatchFacts.matchingCount_filter. f_equal.
    rewrite (filter_ext_in _ (fun _ => true)); [apply JobsFacts.filter_all|].
    intros skill Hs. apply GapFacts.array_includes_In, in_map_iff.
    destruct (Hmatch skill Hs) as (u & Hu & Heq). exists u. split; assumption.
  - intros jobSkills Hok Hnone.
    unfold SkillGapRoute.opportunities. cbn [filter].
    rewrite AverageMatchFacts.statsMatch_none; [reflexivity|exact Hok|].
    rewrite AverageMatchFacts.matchingCount_filter.
    rewrite AverageMatchFacts.filter_none; [reflexivity|].
    intros skill Hs. apply GapFacts.array_includes_false.
    intros Hin. apply in_map_iff in Hin. destruct Hin as (u & Heq & Hu).
    exact (Hnone skill u Hs Hu Heq).
Qed.

Lemma average_match_is_a_percentage_witness :
  (0 <= SkillGapRoute.stats_averageMatch
          (SkillGapRoute.stats ["python"; "sql"]
             [["Python"; "SQL"; "Go"]; ["Java"]; []]) <= 100)%Z.
Proof.
  assert (Hlen : array_length_ok [["Python"; "SQL"; "Go"]; ["Java"]; []])
    by (vm_compute; reflexivity).
  assert (Hall : Forall array_length_ok [["Python"; "SQL"; "Go"]; ["Java"]; []])
    by (repeat constructor).
  exact (proj1 (average_match_is_a_percentage ["python"; "sql"]
                  [["Python"; "SQL"; "Go"]; ["Java"]; []] Hlen Hall)).
Defined.

(** * Facts on the jobs routes over the in-memory database *)

Module JobsDbFacts.

Import JSString JobsRoute JobsDbRoute.
#[local] Open Scope Z_scope.

Lemma byMatchDescending_twice a b :
  byMatchDescending a b <= 0 <-> - twice a <= - twice b.
Proof. unfold byMatchDescending. lia. Qed.

(** The jobs of [GET /] before the scores are computed. *)
Lemma filters_kept_db db query :
  filterSkills (q_skills query)
    (filterType (q_type query)
       match given (q_search query) with
       | Some search => Database.searchJobs db search
       | None => Database.getAllJobs db
       end) =
  filter (kept query) (Database.getAllJobs db).
Proof.
  unfold filterSkills, filterType, Database.searchJobs, Database.getAllJobs.
  rewrite (JobsFacts.filter_optional (given (q_search query))
             (fun search job =>
                includes (toLowerCase (title job)) (toLowerCase search) ||
                includes (toLowerCase (job_company job)) (toLowerCase search) ||
                existsb (fun skill => includes (toLowerCase skill) (toLowerCase search))
                        (skills job))).
  rewrite (JobsFacts.filter_optional (given (q_type query))
             (fun type job => (toLowerCase (job_type job) =? toLowerCase type)%string)).
  rewrite (JobsFacts.filter_optional (given (q_skills query))).
  rewrite !JobsFacts.filter_twice. apply filter_ext. intros job. unfold kept.
  destruct (given (q_search query)), (given (q_type query)),
    (given (q_skills query));
    rewrite <- ?andb_assoc, ?andb_true_r, ?andb_true_l; reflexivity.
Qed.

Lemma get_jobs_sorted db query userId :
  get_jobs db query userId =
  JSArray.sort byMatchDescending
    (map (withMatchScore (userSkills_of (Database.getProfile db userId)))
         (filter (kept query) (Database.getAllJobs db))).
Proof. unfold get_jobs. rewrite filters_kept_db. reflexivity. Qed.

End JobsDbFacts.

(** X28: the jobs listing over the in-memory database: the jobs listed are
    the jobs of the database that pass the filters, each once, where the
    type filter asks for the same type up to letter case (not for a
    substring); each has the score [max(matchScore, base / 2)], so at least
    half its base score and at least its skill match, and the listing is in
    descending order of the score; [GET /:id] and [POST /:id/apply] answer
    404 exactly when no job has the id. *)
Theorem database_listing_blends_base_score :
  forall (db : Database.t) (query : JobsRoute.Query) (userId : string),
    let listed := JobsDbRoute.get_jobs db query userId in
    let userSkills := JobsDbRoute.userSkills_of (Database.getProfile db userId) in
    Permutation (map JobsDbRoute.base listed)
                (filter (JobsDbRoute.kept query) (Database.getAllJobs db)) /\
    StronglySorted (fun a b => (JobsDbRoute.twice a >= JobsDbRoute.twice b)%Z) listed /\
    (forall job,
        In job listed ->
        JobsDbRoute.twice job =
          Z.max (2 * JobsRoute.dynamicMatch userSkills (JobsDbRoute.base job))
                (JobsRoute.matchPercentage (JobsDbRoute.base job)) /\
        (JobsRoute.matchPercentage (JobsDbRoute.base job) <= JobsDbRoute.twice job)%Z /\
        (2 * JobsRoute.dynamicMatch userSkills (JobsDbRoute.base job) <=
         JobsDbRoute.twice job)%Z) /\
    (forall job type,
        In job listed -> JobsRoute.q_type query = Some type -> type <> "" ->
        toLowerCase (JobsRoute.job_type (JobsDbRoute.base job)) = toLowerCase type) /\
    (forall id now,
        (JobsDbRoute.get_job db id userId = None <->
         forall job, In job (Database.getAllJobs db) -> JobsRoute.job_id job <> id) /\
        (JobsDbRoute.post_apply db id now = None <->
         JobsDbRoute.get_job db id userId = None) /\
        (forall job,
            Database.getJobById db id = Some job ->
            JobsDbRoute.get_job db id userId =
              Some (JobsDbRoute.withMatchScore userSkills job) /\
            JobsDbRoute.post_apply db id now = Some (id, now))).
Proof.
  intros db query userId listed userSkills.
  assert (Hl : listed =
               JSArray.sort JobsDbRoute.byMatchDescending
                 (map (JobsDbRoute.withMatchScore userSkills)
                      (filter (JobsDbRoute.kept query) (Database.getAllJobs db))))
    by apply JobsDbFacts.get_jobs_sorted.
  assert (Hin : forall job, In job listed ->
             exists j, In j (Database.getAllJobs db) /\
                       JobsDbRoute.kept query j = true /\
                       job = JobsDbRoute.withMatchScore userSkills j).
  { intros job H. rewrite Hl in H. apply SortFacts.sort_In in H.
    apply in_map_iff in H. destruct H as (j & <- & Hj).
    apply filter_In in Hj. exists j. split; [apply Hj|]. split; [apply Hj|reflexivity]. }
  split; [|split; [|split; [|split]]].
  - rewrite Hl.
    apply perm_trans with
      (map JobsDbRoute.base
         (map (JobsDbRoute.withMatchScore userSkills)
              (filter (JobsDbRoute.kept query) (Database.getAllJobs db)))).
    + apply Permutation_map, SortFacts.sort_perm.
    + rewrite map_map. cbn [JobsDbRoute.withMatchScore JobsDbRoute.base].
      rewrite map_id. apply Permutation_refl.
  - rewrite Hl.
    pose proof (SortFacts.sort_ordered JobsDbRoute.byMatchDescending
                  (fun job => (- JobsDbRoute.twice job)%Z)
                  JobsDbFacts.byMatchDescending_twice
                  (map (JobsDbRoute.withMatchScore userSkills)
                       (filter (JobsDbRoute.kept query) (Database.getAllJobs db))))
      as Hs.
    apply SortFacts.StronglySorted_weaken with (2 := Hs).
    intros a b Hab. cbv beta in Hab. lia.
  - intros job H. destruct (Hin job H) as (j & _ & _ & ->).
    cbn [JobsDbRoute.withMatchScore JobsDbRoute.twice JobsDbRoute.base].
    split; [reflexivity|]. split; lia.
  - intros job type H Hq Hne. destruct (Hin job H) as (j & _ & Hk & ->).
    cbn [JobsDbRoute.withMatchScore JobsDbRoute.base].
    unfold JobsDbRoute.kept in Hk. rewrite Hq in Hk.
    unfold JobsRoute.given at 2 in Hk.
    apply StringFacts.truthy_spec in Hne. rewrite Hne in Hk.
    apply andb_true_iff in Hk. destruct Hk as [Hk _].
    apply andb_true_iff in Hk. destruct Hk as [_ Hk].
    apply String.eqb_eq, Hk.
  - intros id now. unfold JobsDbRoute.get_job, JobsDbRoute.post_apply.
    fold userSkills. split; [|split].
    + unfold Database.getJobById, Database.getAllJobs.
      destruct (find (fun job => (JobsRoute.job_id job =? id)%string) (Database.jobs db))
        as [job|] eqn:Ef.
      * split; [discriminate|]. intros Hno. exfalso.
        apply find_some in Ef. destruct Ef as [Hj Heq].
        apply String.eqb_eq in Heq. exact (Hno job Hj Heq).
      * split; [|reflexivity]. intros _ job Hj Heq.
        pose proof (find_none _ _ Ef job Hj) as Hf. cbv beta in Hf.
        rewrite Heq, String.eqb_refl in Hf. discriminate.
    + destruct (Database.getJobById db id); split; intros H;
        try discriminate; reflexivity.
    + intros job ->. split; reflexivity.
Qed.

(** X29: the badge of a job card is never the grey one for a job of the
    jobs routes over the [jobs] table: the reported [matchPercentage] is at
    least 60, so [getMatchColor] gives emerald from 90, blue from 75 and
    amber otherwise. *)
Theorem listed_job_badge_is_never_grey :
  forall (query : JobsRoute.Query) (selected : JobsRoute.Selected (list JobsRoute.JobRow))
         (found : JobsRoute.Selected JobsRoute.JobRow) (idIsNaN : bool)
         (resume : option json) (job : JobsRoute.Job),
    In job (JobsRoute.jobs_of (JobsRoute.get_jobs query selected resume)) \/
    In job (JobsRoute.jobs_of (JobsRoute.get_job idIsNaN found resume)) ->
    JobCard.getMatchColor (JobsRoute.matchPercentage job) <> "bg-slate-500 text-white" /\
    (JobCard.getMatchColor (JobsRoute.matchPercentage job) = "bg-amber-500 text-white" <->
     (60 <= JobsRoute.matchPercentage job < 75)%Z) /\
    (JobCard.getMatchColor (JobsRoute.matchPercentage job) = "bg-blue-500 text-white" <->
     (75 <= JobsRoute.matchPercentage job < 90)%Z) /\
    (JobCard.getMatchColor (JobsRoute.matchPercentage job) = "bg-emerald-500 text-white" <->
     (90 <= JobsRoute.matchPercentage job)%Z).
Proof.
  intros query selected found idIsNaN resume job Hin.
  assert (Hbase : (60 <= JobsRoute.matchPercentage job)%Z).
  { destruct Hin as [Hin|Hin].
    - apply JobsFacts.get_jobs_In in Hin. destruct Hin as (row & _ & ->).
      apply (JobsFacts.withMatchScore_base _ (JobsRoute.mapJob row)).
    - apply JobsFacts.get_job_In in Hin. destruct Hin as (row & _ & ->).
      apply (JobsFacts.withMatchScore_base _ (JobsRoute.mapJob row)). }
  unfold JobCard.getMatchColor.
  destruct (Z.leb_spec 90 (JobsRoute.matchPercentage job));
    [|destruct (Z.leb_spec 75 (JobsRoute.matchPercentage job));
      [|destruct (Z.leb_spec 60 (JobsRoute.matchPercentage job))]];
    (split; [discriminate || lia|]);
    repeat split; intros; try discriminate; try lia; try reflexivity.
Qed.

Lemma listed_job_badge_is_never_grey_witness :
  JobCard.getMatchColor
    (JobsRoute.matchPercentage
       (JobsRoute.withMatchScore [] (JobsRoute.mapJob Samples.bare_posting))) <>
  "bg-slate-500 text-white".
Proof.
  assert (Hin : In (JobsRoute.withMatchScore [] (JobsRoute.mapJob Samples.bare_posting))
                   (JobsRoute.jobs_of
                      (JobsRoute.get_jobs Samples.no_query
                         (Samples.found [Samples.bare_posting]) None)) \/
                In (JobsRoute.withMatchScore [] (JobsRoute.mapJob Samples.bare_posting))
                   (JobsRoute.jobs_of
                      (JobsRoute.get_job false (Samples.found Samples.bare_posting) None))).
  { right. left. reflexivity. }
  exact (proj1 (listed_job_badge_is_never_grey Samples.no_query
                  (Samples.found [Samples.bare_posting])
                  (Samples.found Samples.bare_posting) false None _ Hin)).
Defined.

(** * Facts on the lists of the client *)

Module ClientFacts.

Import JSString.

Lemma filter_NoDup {A} (f : A -> bool) l : NoDup l -> NoDup (filter f l).
Proof.
  induction 1 as [|x l Hx _ IH]; cbn [filter]; [constructor|].
  destruct (f x); [|exact IH].
  constructor; [|exact IH]. intros Hin. apply Hx. apply filter_In in Hin. apply Hin.
Qed.

Lemma NoDup_snoc {A} (x : A) l : NoDup l -> ~ In x l -> NoDup (l ++ [x]).
Proof.
  intros Hnd Hx. apply Permutation_NoDup with (l := x :: l).
  - apply Permutation_cons_append.
  - constructor; assumption.
Qed.

Lemma filter_snoc_absent (x : string) l :
  ~ In x l -> filter (fun y => negb (y =? x)%string) (l ++ [x]) = l.
Proof.
  intros Hx. rewrite filter_app, (ResumeFacts.filter_absent x l Hx).
  cbn [filter]. rewrite String.eqb_refl. apply app_nil_r.
Qed.

End ClientFacts.

(** X30: the lists the client edits stay free of duplicates: the skills of
    the profile form under [handleAddSkill] and [handleRemoveSkill], whose
    entries also stay trimmed and not empty, and the active filters under
    [toggleFilter]; adding a skill that is new after trimming appends it
    and clears the input, anything else changes nothing; removing the
    added skill, like toggling a filter twice, gives the list back. *)
Theorem client_lists_stay_duplicate_free :
  forall (skills : list string),
    NoDup skills ->
    Forall (fun skill => skill <> "" /\ trim skill = skill) skills ->
    (forall newSkill,
        let after := snd (PreviewForm.handleAddSkill newSkill skills) in
        NoDup after /\
        Forall (fun skill => skill <> "" /\ trim skill = skill) after /\
        (trim newSkill <> "" -> ~ In (trim newSkill) skills ->
         PreviewForm.handleAddSkill newSkill skills =
           ("", (skills ++ [trim newSkill])%list) /\
         PreviewForm.handleRemoveSkill (trim newSkill) after = skills) /\
        (trim newSkill = "" \/ In (trim newSkill) skills ->
         PreviewForm.handleAddSkill newSkill skills = (newSkill, skills)) /\
        snd (PreviewForm.handleAddSkill newSkill after) = after) /\
    (forall skillToRemove,
        let after := PreviewForm.handleRemoveSkill skillToRemove skills in
        NoDup after /\
        Forall (fun skill => skill <> "" /\ trim skill = skill) after /\
        ~ In skillToRemove after) /\
    (forall filter,
        let after := Recommendations.toggleFilter filter skills in
        NoDup after /\
        (In filter after <-> ~ In filter skills) /\
        (forall other, other <> filter -> (In other after <-> In other skills)) /\
        (~ In filter skills -> Recommendations.toggleFilter filter after = skills)).
Proof.
  intros skills Hnd Hclean. split; [|split].
  - intros newSkill after. subst after. unfold PreviewForm.handleAddSkill.
    destruct (truthy (trim newSkill)) eqn:Et; cbn [andb].
    + assert (Hne : trim newSkill <> "") by (apply StringFacts.truthy_spec, Et).
      destruct (SkillGapRoute.array_includes skills (trim newSkill)) eqn:Ei;
        cbn [negb snd].
      * rewrite ?Ei. cbn [negb snd]. apply GapFacts.array_includes_In in Ei.
        split; [exact Hnd|]. split; [exact Hclean|]. split; [|split].
        -- intros _ Hnot. contradiction.
        -- intros _. reflexivity.
        -- reflexivity.
      * pose proof (proj1 (GapFacts.array_includes_false _ _) Ei) as Hnot.
        split; [apply ClientFacts.NoDup_snoc; assumption|].
        split; [|split; [|split]].
        -- apply Forall_app. split; [exact Hclean|].
           constructor; [|constructor].
           split; [exact Hne|apply StringFacts.trim_idempotent].
        -- intros _ _. split; [reflexivity|].
           apply ClientFacts.filter_snoc_absent, Hnot.
        -- intros [H|H]; contradiction.
        -- assert (Hin : SkillGapRoute.array_includes (skills ++ [trim newSkill])
                           (trim newSkill) = true).
           { apply GapFacts.array_includes_In, in_or_app. right. left. reflexivity. }
           rewrite Hin. reflexivity.
    + cbn [snd]. assert (He : trim newSkill = "").
      { destruct (trim newSkill); [reflexivity|discriminate]. }
      split; [exact Hnd|]. split; [exact Hclean|]. split; [|split].
      * intros Hne. contradiction.
      * intros _. reflexivity.
      * reflexivity.
  - intros skillToRemove after. subst after. unfold PreviewForm.handleRemoveSkill.
    split; [apply ClientFacts.filter_NoDup, Hnd|]. split.
    + rewrite Forall_forall in *. intros skill Hin. apply filter_In in Hin.
      apply Hclean, Hin.
    + rewrite filter_In. intros [_ H]. rewrite String.eqb_refl in H. discriminate.
  - intros f after. subst after. unfold Recommendations.toggleFilter.
    destruct (SkillGapRoute.array_includes skills f) eqn:Ei.
    + apply GapFacts.array_includes_In in Ei.
      split; [apply ClientFacts.filter_NoDup, Hnd|]. split; [|split].
      * rewrite filter_In, String.eqb_refl. split; [intros [_ H]; discriminate|].
        intros H. contradiction.
      * intros other Hother. rewrite filter_In. split; [intros [H _]; exact H|].
        intros H. split; [exact H|].
        destruct (String.eqb_spec other f); [contradiction|reflexivity].
      * intros H. contradiction.
    + pose proof (proj1 (GapFacts.array_includes_false _ _) Ei) as Hnot.
      split; [apply ClientFacts.NoDup_snoc; assumption|]. split; [|split].
      * split; [intros _; exact Hnot|]. intros _.
        apply in_or_app. right. left. reflexivity.
      * intros other Hother. rewrite in_app_iff. cbn [In].
        split; [intros [H|[H|[]]]; [exact H|congruence]|]. intros H. left. exact H.
      * intros _.
        assert (Hin : SkillGapRoute.array_includes (skills ++ [f]) f = true).
        { apply GapFacts.array_includes_In, in_or_app. right. left. reflexivity. }
        rewrite Hin. apply ClientFacts.filter_snoc_absent, Hnot.
Qed.

Lemma client_lists_stay_duplicate_free_witness :
  PreviewForm.handleAddSkill "  Go " ["Python"; "SQL"] = ("", ["Python"; "SQL"; "Go"]).
Proof.
  assert (Hnd : NoDup ["Python"; "SQL"]).
  { constructor; [intros [H|[]]; discriminate|].
    constructor; [intros []|constructor]. }
  assert (Hclean : Forall (fun skill => skill <> "" /\ trim skill = skill)
                          ["Python"; "SQL"]).
  { repeat constructor; discriminate. }
  assert (Hne : trim "  Go " <> "") by discriminate.
  assert (Hnot : ~ In (trim "  Go ") ["Python"; "SQL"]).
  { intros [H|[H|[]]]; discriminate. }
  exact (proj1 (proj1 (proj2 (proj2 (proj1 (client_lists_stay_duplicate_free
                                              ["Python"; "SQL"] Hnd Hclean)
                                           "  Go "))) Hne Hnot)).
Defined.
